(** * Real-estate backend: listing query engine, contact classification,
    derived price fields

  A shallow embedding of the controllers and Mongoose models of the
  backend (controllers/propertyController.js, controllers/contactController.js,
  the service controller, models/Contact.js, models/Service.js,
  models/Property.js, middleware/validation.js and the list route of
  routes/properties.js), followed by the properties the specification
  states about them.

  Conventions of the embedding:
  - a JavaScript string is a [string] (a sequence of 8-bit characters);
    case mapping and white space are the ASCII ones;
  - an [undefined] request parameter or document field is [None];
  - a JavaScript number is an element of a type with the interface
    [JSNumber]; page numbers and counts are integers ([Z]);
  - a collection is a finite map from document ids to documents;
  - an operation that writes takes the collection and returns the new one;
  - [new Date()] is a time stamp handed to the operation by its caller;
  - a save or update that the schema validators reject gives [None], and
    the controller answers 400 and leaves the collection as it was. *)

From Stdlib Require Import ZArith Lia Bool.
From Stdlib Require Import Strings.Ascii.
From stdpp Require Import base option list strings gmap.

Local Open Scope Z_scope.
#[local] Set Warnings "-clear-no-such-hyp".

(** ** JavaScript string primitives *)

Module JS.

(** [if (s)] on a string: only the empty string is falsy. *)
Definition truthy (s : string) : bool :=
  match s with
  | EmptyString => false
  | String _ _ => true
  end.

(** [if (x)] on a parameter that may be [undefined]. *)
Definition truthy_opt (x : option string) : bool :=
  match x with
  | None => false
  | Some s => truthy s
  end.

(** [x || ''] *)
Definition or_empty (x : option string) : string :=
  match x with
  | Some s => if truthy s then s else ""
  | None => ""
  end.

Definition is_upper (c : ascii) : bool :=
  let n := nat_of_ascii c in Nat.leb 65 n && Nat.leb n 90.

Definition lower_char (c : ascii) : ascii :=
  if is_upper c then ascii_of_nat (nat_of_ascii c + 32) else c.

(** [String.prototype.toLowerCase] *)
Fixpoint toLowerCase (s : string) : string :=
  match s with
  | EmptyString => EmptyString
  | String c s' => String (lower_char c) (toLowerCase s')
  end.

(** [String.prototype.startsWith] *)
Fixpoint startsWith (p s : string) : bool :=
  match p, s with
  | EmptyString, _ => true
  | String _ _, EmptyString => false
  | String a p', String b s' => if Ascii.eqb a b then startsWith p' s' else false
  end.

(** [hay.includes(needle)] *)
Fixpoint includes (needle hay : string) : bool :=
  match hay with
  | EmptyString => startsWith needle EmptyString
  | String _ hay' => startsWith needle hay || includes needle hay'
  end.

Definition is_space (c : ascii) : bool :=
  let n := nat_of_ascii c in
  (Nat.leb 9 n && Nat.leb n 13) || Nat.eqb n 32.

Fixpoint trimStart (s : string) : string :=
  match s with
  | EmptyString => EmptyString
  | String c s' => if is_space c then trimStart s' else s
  end.

Fixpoint trimEnd (s : string) : string :=
  match s with
  | EmptyString => EmptyString
  | String c s' =>
      match trimEnd s' with
      | EmptyString => if is_space c then EmptyString else String c EmptyString
      | t => String c t
      end
  end.

(** [String.prototype.trim], the [trim: true] setter of a schema path and
    the [trim()] sanitizer of the validation chains. *)
Definition trim (s : string) : string := trimEnd (trimStart s).

(** [[...new Set(xs)]]: the elements in order of first insertion. *)
Fixpoint set_from (seen xs : list string) : list string :=
  match xs with
  | [] => []
  | x :: xs' =>
      if bool_decide (x ∈ seen) then set_from seen xs'
      else x :: set_from (x :: seen) xs'
  end.

Definition set_spread (xs : list string) : list string := set_from [] xs.

End JS.

(** ** models/Contact.js *)

Module Contact.

Abbreviation Time := nat.

(** The paths of [contactSchema] the operations below read or write. *)
Record Doc := mkDoc {
  message : string;
  subject : option string;
  status : string;
  priority : string;
  notes : option string;
  assignedTo : option string;
  responseDate : option Time;
  tags : list string
}.

Definition set_priority (p : string) (d : Doc) : Doc :=
  mkDoc (message d) (subject d) (status d) p (notes d) (assignedTo d)
        (responseDate d) (tags d).

Definition set_tags (ts : list string) (d : Doc) : Doc :=
  mkDoc (message d) (subject d) (status d) (priority d) (notes d)
        (assignedTo d) (responseDate d) ts.

Definition set_status (s : string) (d : Doc) : Doc :=
  mkDoc (message d) (subject d) s (priority d) (notes d) (assignedTo d)
        (responseDate d) (tags d).

Definition set_notes (n : string) (d : Doc) : Doc :=
  mkDoc (message d) (subject d) (status d) (priority d) (Some n)
        (assignedTo d) (responseDate d) (tags d).

Definition set_assignedTo (a : string) (d : Doc) : Doc :=
  mkDoc (message d) (subject d) (status d) (priority d) (notes d) (Some a)
        (responseDate d) (tags d).

Definition set_responseDate (t : Time) (d : Doc) : Doc :=
  mkDoc (message d) (subject d) (status d) (priority d) (notes d)
        (assignedTo d) (Some t) (tags d).

Definition urgentKeywords : list string :=
  ["urgent"; "asap"; "immediately"; "emergency"].

Definition highKeywords : list string :=
  ["important"; "priority"; "soon"; "quickly"].

(** [(this.message + ' ' + (this.subject || '')).toLowerCase()] *)
Definition messageText (d : Doc) : string :=
  JS.toLowerCase (message d +:+ " " +:+ JS.or_empty (subject d)).

(** [keywords.some(keyword => messageText.includes(keyword))] *)
Definition some_included (keywords : list string) (text : string) : bool :=
  existsb (fun keyword => JS.includes keyword text) keywords.

(** The local array [tags] of the hook, after the four pushes. *)
Definition auto_tags (text : string) : list string :=
  (if JS.includes "viewing" text || JS.includes "visit" text
   then ["viewing-request"] else []) ++
  (if JS.includes "price" text || JS.includes "cost" text
   then ["pricing-inquiry"] else []) ++
  (if JS.includes "mortgage" text || JS.includes "financing" text
   then ["financing"] else []) ++
  (if JS.includes "investment" text then ["investment"] else []).

(** The body of [if (this.isNew) { ... }] in the pre-save hook. *)
Definition classify (d : Doc) : Doc :=
  let text := messageText d in
  let d1 :=
    if some_included urgentKeywords text then set_priority "urgent" d
    else if some_included highKeywords text then set_priority "high" d
    else d in
  set_tags (JS.set_spread (tags d1 ++ auto_tags text)) d1.

(** [contactSchema.pre('save', ...)]; [isNew] is the flag of the in-memory
    document: true for a document built by [new Contact] and not yet
    stored, false for one loaded from the collection. *)
Definition pre_save (isNew : bool) (d : Doc) : Doc :=
  if isNew then classify d else d.


(** [new Contact(data)]: the fields a caller may supply. *)
Record Data := mkData {
  d_message : string;
  d_subject : option string;
  d_priority : option string;
  d_tags : list string
}.

(** Construction applies the schema setters ([trim], [lowercase]) and the
    schema defaults ([status: 'pending'], [priority: 'medium']). *)
Definition new_doc (data : Data) : Doc :=
  mkDoc (JS.trim (d_message data))
        (JS.trim <$> d_subject data)
        "pending"
        (default "medium" (d_priority data))
        None None None
        (map (fun t => JS.toLowerCase (JS.trim t)) (d_tags data)).

Definition status_enum : list string := ["pending"; "contacted"; "resolved"; "spam"].
Definition priority_enum : list string := ["low"; "medium"; "high"; "urgent"].

Definition in_enum (vals : list string) (s : string) : bool :=
  bool_decide (s ∈ vals).

Definition maxlength (n : nat) (x : option string) : bool :=
  match x with
  | None => true
  | Some s => Nat.leb (String.length s) n
  end.

(** The schema validators of the modelled paths, run by [save] before the
    pre-save hook and by [findByIdAndUpdate] under [runValidators]. *)
Definition validate (d : Doc) : bool :=
  JS.truthy (message d)
  && Nat.leb 10 (String.length (message d))
  && Nat.leb (String.length (message d)) 1000
  && maxlength 200 (subject d)
  && in_enum status_enum (status d)
  && in_enum priority_enum (priority d)
  && maxlength 500 (notes d).

(** [doc.save()]: [None] is a rejected save (ValidationError), otherwise
    the document as written to the collection. *)
Definition save (isNew : bool) (d : Doc) : option Doc :=
  if validate d then Some (pre_save isNew d) else None.

(** [Contact.create(data)] *)
Definition create (data : Data) : option Doc := save true (new_doc data).

End Contact.

(** ** The response envelope (shared by all controllers) *)

Inductive Reply (A : Type) : Type :=
| Success (http : nat) (data : A) (msg : string)
| Failure (http : nat) (code : string) (msg : string) (timestamp : nat).

Arguments Success {A} http data msg.
Arguments Failure {A} http code msg timestamp.

(** A ValidationError thrown inside [asyncHandler], as [errorHandler]
    renders it. *)
Definition validation_failure {A : Type} (now : nat) : Reply A :=
  Failure 400 "VALIDATION_ERROR" "Invalid input data" now.

(** ** controllers/contactController.js *)

Module ContactController.

Import Contact.

Abbreviation Collection := (gmap nat Doc).

(** [req.body] of [submitContact], restricted to the modelled fields. *)
Record SubmitBody := mkSubmitBody {
  sb_subject : option string;
  sb_message : string
}.

(** [contactData] as [submitContact] assembles it; [property_name] is the
    name of the property found for [propertyId], if one was given and
    exists. Neither [priority] nor [tags] is passed on. *)
Definition contactData (body : SubmitBody) (property_name : option string) : Data :=
  let subject :=
    match property_name with
    | Some name =>
        if JS.truthy_opt (sb_subject body) then sb_subject body
        else Some ("Inquiry about " +:+ name)
    | None => sb_subject body
    end in
  mkData (sb_message body) subject None [].

(** [submitContact]: the new document gets a fresh id. *)
Definition submitContact (now : Time) (body : SubmitBody)
    (property_name : option string) (db : Collection)
    : Reply (nat * Doc) * Collection :=
  match create (contactData body property_name) with
  | None => (validation_failure now, db)
  | Some d =>
      let id := fresh (dom db) in
      (Success 201 (id, d)
         "Thank you for your inquiry. We will get back to you within 24 hours.",
       <[id := d]> db)
  end.

(** [req.body] of [updateContact]. *)
Record UpdateBody := mkUpdateBody {
  ub_status : option string;
  ub_notes : option string;
  ub_assignedTo : option string;
  ub_priority : option string
}.

(** [updateData]: a key is present only when the code attached it. *)
Record UpdateData := mkUpdateData {
  ud_status : option string;
  ud_notes : option string;
  ud_assignedTo : option string;
  ud_priority : option string;
  ud_responseDate : option Time
}.

Definition attach (x : option string) : option string :=
  if JS.truthy_opt x then x else None.

(** Lines 179-189 of the controller. *)
Definition build_updateData (now : Time) (body : UpdateBody) (contact : Doc)
    : UpdateData :=
  mkUpdateData
    (attach (ub_status body))
    (attach (ub_notes body))
    (attach (ub_assignedTo body))
    (attach (ub_priority body))
    (if bool_decide (ub_status body = Some "contacted")
        && negb (bool_decide (status contact = "contacted"))
     then Some now else None).

Definition apply_opt {A : Type} (f : A → Doc → Doc) (x : option A) (d : Doc) : Doc :=
  match x with
  | Some v => f v d
  | None => d
  end.

(** The [$set] of the attached keys; string paths go through their [trim]
    setter. No save hook runs on this path. *)
Definition apply_update (u : UpdateData) (d : Doc) : Doc :=
  apply_opt set_responseDate (ud_responseDate u)
    (apply_opt set_priority (ud_priority u)
      (apply_opt set_assignedTo (JS.trim <$> ud_assignedTo u)
        (apply_opt set_notes (JS.trim <$> ud_notes u)
          (apply_opt set_status (ud_status u) d)))).

(** Update validators ([runValidators: true]) look at the keys being set. *)
Definition update_valid (u : UpdateData) : bool :=
  from_option (in_enum status_enum) true (ud_status u)
  && from_option (in_enum priority_enum) true (ud_priority u)
  && maxlength 500 (JS.trim <$> ud_notes u).

(** [Contact.findByIdAndUpdate(id, updateData, {new: true, runValidators: true})] *)
Definition findByIdAndUpdate (id : nat) (u : UpdateData) (db : Collection)
    : option (option Doc * Collection) :=
  if update_valid u then
    match db !! id with
    | Some d => let d' := apply_update u d in Some (Some d', <[id := d']> db)
    | None => Some (None, db)
    end
  else None.

Definition updateContact (now : Time) (id : nat) (body : UpdateBody)
    (db : Collection) : Reply (option Doc) * Collection :=
  match db !! id with
  | None => (Failure 404 "NOT_FOUND" "Contact not found" now, db)
  | Some contact =>
      match findByIdAndUpdate id (build_updateData now body contact) db with
      | None => (validation_failure now, db)
      | Some (d', db') => (Success 200 d' "Contact updated successfully", db')
      end
  end.

(** [contactSchema.methods.markAsContacted] up to the call of [save]. *)
Definition markAsContacted_fields (now : Time) (notes : option string) (d : Doc) : Doc :=
  let d1 := set_responseDate now (set_status "contacted" d) in
  if JS.truthy_opt notes then apply_opt set_notes (JS.trim <$> notes) d1 else d1.

(** The [markAsContacted] controller: the document was loaded from the
    collection, so it is saved with [isNew = false]. *)
Definition markAsContacted (now : Time) (id : nat) (notes : option string)
    (db : Collection) : Reply Doc * Collection :=
  match db !! id with
  | None => (Failure 404 "NOT_FOUND" "Contact not found" now, db)
  | Some contact =>
      match save false (markAsContacted_fields now notes contact) with
      | None => (validation_failure now, db)
      | Some d' =>
          (Success 200 d' "Contact marked as contacted successfully",
           <[id := d']> db)
      end
  end.

(** The operations staff can run on an existing contact, each with the
    time at which it is served. *)
Inductive StaffOp :=
| OpUpdate (now : Time) (id : nat) (body : UpdateBody)
| OpMark (now : Time) (id : nat) (notes : option string).

Definition run_op (op : StaffOp) (db : Collection) : Collection :=
  match op with
  | OpUpdate now id body => snd (updateContact now id body db)
  | OpMark now id notes => snd (markAsContacted now id notes db)
  end.

Definition run_ops (ops : list StaffOp) (db : Collection) : Collection :=
  foldl (fun db op => run_op op db) db ops.

End ContactController.

(** ** JavaScript numbers

    Prices are JavaScript numbers. The operations of the platform the code
    applies to them are the methods of this interface; the development is
    parametric in it. *)

Class JSNumber (num : Type) := {
  (** the literal [0] *)
  zero : num;
  (** [x === 0] *)
  is_zero : num → bool;
  (** [if (x)]: false for a zero and for NaN *)
  to_boolean : num → bool;
  (** [x <= y] *)
  num_le : num → num → bool;
  (** [parseFloat(s)] *)
  parseFloat : string → num;
  (** [new Intl.NumberFormat('en-US', {style: 'currency', currency: 'USD'}).format(x)] *)
  format_USD : num → string;
  (** the interpolation of [x] in a template literal *)
  to_string : num → string
}.

(** Whole non-negative amounts, where the platform functions are plain
    decimal printing and [parseFloat] reads a string of decimal digits: an
    instance to compute with. *)
Module WholeNumber.

Definition is_digit (c : ascii) : bool :=
  let n := nat_of_ascii c in Nat.leb 48 n && Nat.leb n 57.

Definition digit_value (c : ascii) : N := N.of_nat (nat_of_ascii c - 48).

Fixpoint digits_from (k : nat) (n : N) (acc : string) : string :=
  let acc' := String (ascii_of_N (48 + n mod 10)%N) acc in
  match k with
  | O => acc'
  | S k' => if (n <? 10)%N then acc' else digits_from k' (n / 10)%N acc'
  end.

(** Decimal digits of [n], most significant first. *)
Definition digits (n : N) : string := digits_from (N.to_nat n) n "".

(** Thousands separators: a comma before every group of three digits
    counted from the right; [len] is the length of [s]. *)
Fixpoint group_from (len : nat) (s : string) : string :=
  match s with
  | EmptyString => EmptyString
  | String c s' =>
      let rest := group_from (len - 1) s' in
      String c (if Nat.ltb 1 len && Nat.eqb ((len - 1) mod 3) 0
                then "," +:+ rest else rest)
  end.

Definition grouped (n : N) : string :=
  let ds := digits n in group_from (String.length ds) ds.

Fixpoint read_digits (s : string) (acc : N) : N :=
  match s with
  | EmptyString => acc
  | String c s' =>
      if is_digit c then read_digits s' (10 * acc + digit_value c)%N else acc
  end.

#[global] Instance whole : JSNumber N := {|
  zero := 0%N;
  is_zero n := (n =? 0)%N;
  to_boolean n := negb (n =? 0)%N;
  num_le := N.leb;
  parseFloat s := read_digits s 0%N;
  format_USD n := "$" +:+ grouped n +:+ ".00";
  to_string := digits
|}.

End WholeNumber.

(** ** models/Property.js *)

Module Property.
Section Model.
Context {num : Type} `{JSNumber num}.

(** The paths of [propertySchema] the operations below read or write. *)
Record Doc := mkDoc {
  name : string;
  description : string;
  category : string;
  location : string;
  price : num;
  priceFormatted : option string;
  type : string;
  status : string;
  featured : bool;
  views : nat
}.

Definition set_priceFormatted (s : option string) (d : Doc) : Doc :=
  mkDoc (name d) (description d) (category d) (location d) (price d) s
        (type d) (status d) (featured d) (views d).

Definition set_price (p : num) (d : Doc) : Doc :=
  mkDoc (name d) (description d) (category d) (location d) p
        (priceFormatted d) (type d) (status d) (featured d) (views d).

Definition set_status (s : string) (d : Doc) : Doc :=
  mkDoc (name d) (description d) (category d) (location d) (price d)
        (priceFormatted d) (type d) s (featured d) (views d).

Definition set_featured (b : bool) (d : Doc) : Doc :=
  mkDoc (name d) (description d) (category d) (location d) (price d)
        (priceFormatted d) (type d) (status d) b (views d).

Definition set_name (s : string) (d : Doc) : Doc :=
  mkDoc s (description d) (category d) (location d) (price d)
        (priceFormatted d) (type d) (status d) (featured d) (views d).

Definition set_views (n : nat) (d : Doc) : Doc :=
  mkDoc (name d) (description d) (category d) (location d) (price d)
        (priceFormatted d) (type d) (status d) (featured d) n.

(** The virtual [formattedPrice]. *)
Definition formattedPrice (d : Doc) : string := format_USD (price d).

(** [propertySchema.pre('save', ...)] *)
Definition pre_save (d : Doc) : Doc :=
  if to_boolean (price d)
  then set_priceFormatted (Some (format_USD (price d))) d
  else d.

Definition category_enum : list string := ["Residential"; "Commercial"].
Definition type_enum : list string := ["Buy"; "Sell"; "Lease Out"].
Definition status_enum : list string :=
  ["Available"; "Pending"; "Sold"; "Rented"; "Off Market"].

Definition required_max (n : nat) (s : string) : bool :=
  JS.truthy s && Nat.leb (String.length s) n.

(** The schema validators of the modelled paths. *)
Definition validate (d : Doc) : bool :=
  required_max 200 (name d)
  && required_max 2000 (description d)
  && bool_decide (category d ∈ category_enum)
  && required_max 200 (location d)
  && num_le zero (price d)
  && bool_decide (type d ∈ type_enum)
  && bool_decide (status d ∈ status_enum).

(** [doc.save()] *)
Definition save (d : Doc) : option Doc :=
  if validate d then Some (pre_save d) else None.

(** [this.views += 1; return this.save()] *)
Definition incrementViews (d : Doc) : option Doc :=
  save (set_views (S (views d)) d).

End Model.
Arguments Doc num : clear implicits.
End Property.

(** ** The [$regex] operator of the storage layer

    The fragment of the regular-expression language that is modelled:
    a pattern is a sequence of ordinary characters, each matching itself,
    and dots, each matching any character but a line feed. A pattern with
    another metacharacter is outside the fragment ([compile] gives [None]).
    A pattern matches a subject when it matches some substring of it. *)

Module Regex.

Inductive atom :=
| Lit (c : ascii)
| AnyChar.

Definition metacharacters : list ascii :=
  ["\"; "^"; "$"; "|"; "?"; "*"; "+"; "("; ")"; "["; "]"; "{"; "}"]%char.

Definition is_meta (c : ascii) : bool :=
  existsb (Ascii.eqb c) metacharacters.

Fixpoint compile (pattern : string) : option (list atom) :=
  match pattern with
  | EmptyString => Some []
  | String c rest =>
      if is_meta c then None
      else
        match compile rest with
        | Some atoms =>
            Some ((if Ascii.eqb c "." then AnyChar else Lit c) :: atoms)
        | None => None
        end
  end.

(** [caseless] is the option [i]. *)
Definition atom_matches (caseless : bool) (a : atom) (c : ascii) : bool :=
  match a with
  | Lit x =>
      if caseless then Ascii.eqb (JS.lower_char x) (JS.lower_char c)
      else Ascii.eqb x c
  | AnyChar => negb (Ascii.eqb c "010")
  end.

Fixpoint match_here (caseless : bool) (atoms : list atom) (s : string) : bool :=
  match atoms, s with
  | [], _ => true
  | _ :: _, EmptyString => false
  | a :: atoms', String c s' =>
      atom_matches caseless a c && match_here caseless atoms' s'
  end.

Fixpoint search (caseless : bool) (atoms : list atom) (s : string) : bool :=
  match s with
  | EmptyString => match_here caseless atoms EmptyString
  | String _ s' => match_here caseless atoms s || search caseless atoms s'
  end.

(** [{ $regex: pattern, $options: options }] applied to a string value. *)
Definition test (pattern options subject : string) : option bool :=
  match compile pattern with
  | Some atoms => Some (search (JS.includes "i" options) atoms subject)
  | None => None
  end.

End Regex.

(** ** The validators of middleware/validation.js

    The functions of the validation library the chains call. *)

Module Validator.

Definition is_digit (c : ascii) : bool :=
  let n := nat_of_ascii c in Nat.leb 48 n && Nat.leb n 57.

Definition is_sign (c : ascii) : bool :=
  Ascii.eqb c "+" || Ascii.eqb c "-".

Definition skip_sign (s : string) : string :=
  match s with
  | String c s' => if is_sign c then s' else s
  | EmptyString => s
  end.

Fixpoint skip_digits (s : string) : string :=
  match s with
  | String c s' => if is_digit c then skip_digits s' else s
  | EmptyString => s
  end.

Definition all_digits (s : string) : bool :=
  JS.truthy s && negb (JS.truthy (skip_digits s)).

(** [isIn(values)] *)
Definition isIn (values : list string) (s : string) : bool :=
  bool_decide (s ∈ values).

(** [isLength({min, max})] *)
Definition isLength (min max : nat) (s : string) : bool :=
  Nat.leb min (String.length s) && Nat.leb (String.length s) max.

(** [isNumeric()]: an optional sign, then digits, or digits, a dot and
    digits ([^[+-]?([0-9]*[.])?[0-9]+$]). *)
Definition isNumeric (s : string) : bool :=
  let s1 := skip_sign s in
  match skip_digits s1 with
  | EmptyString => JS.truthy s1
  | String c s3 => Ascii.eqb c "." && all_digits s3
  end.

(** The shape [isFloat] accepts: sign, digits, fraction and exponent, all
    optional, on a string that is not just a sign or a dot. *)
Definition float_shape (s : string) : bool :=
  negb (bool_decide (s ∈ [""; "."; ","; "-"; "+"]))
  && (let s1 := skip_digits (skip_sign s) in
      let s2 := match s1 with
                | String c r => if Ascii.eqb c "." then skip_digits r else s1
                | EmptyString => s1
                end in
      match s2 with
      | EmptyString => true
      | String c r =>
          (Ascii.eqb c "e" || Ascii.eqb c "E") && all_digits (skip_sign r)
      end).

(** [isFloat({min: 0})] *)
Definition isFloat_min0 `{JSNumber num} (s : string) : bool :=
  float_shape s && num_le zero (parseFloat s : num).

Fixpoint read_digits (s : string) (acc : Z) : Z :=
  match s with
  | EmptyString => acc
  | String c s' =>
      if is_digit c
      then read_digits s' (10 * acc + Z.of_nat (nat_of_ascii c - 48))
      else acc
  end.

(** The integer a string denotes: an optional sign, then the decimal
    digits up to the first character that is not one. *)
Definition int_value (s : string) : Z :=
  let v := read_digits (skip_sign s) 0 in
  if JS.startsWith "-" s then - v else v.

(** The Number value of an integer. Every integer up to [2 ^ 53] in
    magnitude is a Number; a larger one is rounded to 53 significant bits,
    to the nearest, a tie going to the even significand, and from
    [2 ^ 1024] on the rounded magnitude is [Infinity]. *)
Inductive Number :=
| Finite (z : Z)
| PosInfinity
| NegInfinity.

Definition round_magnitude (a : Z) : Z :=
  let e := Z.log2 a - 52 in
  let q := a / 2 ^ e in
  let r := a mod 2 ^ e in
  let half := 2 ^ (e - 1) in
  (if (half <? r) || ((r =? half) && Z.odd q) then q + 1 else q) * 2 ^ e.

Definition to_double (v : Z) : Number :=
  if Z.abs v <=? 2 ^ 53 then Finite v
  else
    let m := round_magnitude (Z.abs v) in
    if m <? 2 ^ 1024 then Finite (Z.sgn v * m)
    else if 0 <? v then PosInfinity else NegInfinity.

(** [x <= y] on Number values. *)
Definition number_le (x y : Number) : bool :=
  match x, y with
  | NegInfinity, _ => true
  | _, PosInfinity => true
  | Finite a, Finite b => a <=? b
  | _, _ => false
  end.

(** [parseInt(s)] on an optional sign followed by decimal digits: the
    Number value of the integer they denote. [None] when the result is not
    a finite Number: no digit follows the sign ([NaN]), or the integer is
    beyond the largest Number ([Infinity]). Leading white space and the
    radix prefix [0x] are not modelled: such a string also gives [None]. *)
Definition parseInt (s : string) : option Z :=
  let body := skip_sign s in
  match body with
  | EmptyString => None
  | String c r =>
      if is_digit c then
        if Ascii.eqb c "0" && match r with
                              | String x _ => Ascii.eqb x "x" || Ascii.eqb x "X"
                              | EmptyString => false
                              end
        then None
        else
          match to_double (int_value s) with
          | Finite z => Some z
          | _ => None
          end
      else None
  end.

(** The shape [isInt] accepts: an optional sign, then one digit or more
    ([^[-+]?[0-9]+$]); leading zeros are allowed unless the option
    [allow_leading_zeroes] is set to false, which no chain does. *)
Definition int_shape (s : string) : bool :=
  all_digits (skip_sign s).

(** [isInt({min, max})]; [max = None] when the option is absent. The
    bounds are checked as [str >= min] and [str <= max], on the Number
    value of the string. *)
Definition isInt (min : Z) (max : option Z) (s : string) : bool :=
  int_shape s
  && number_le (Finite min) (to_double (int_value s))
  && from_option (fun m => number_le (to_double (int_value s)) (Finite m))
       true max.

End Validator.

(** ** controllers/propertyController.js *)

Module PropertyController.

(** [req.query]: every parameter is a string or absent. *)
Record Query := mkQuery {
  q_type : option string;
  q_category : option string;
  q_location : option string;
  q_minPrice : option string;
  q_maxPrice : option string;
  q_page : option string;
  q_limit : option string;
  q_sort : option string;
  q_featured : option string;
  q_status : option string
}.

Inductive Field := FLocation | FName | FDescription.

(** [{ field: { $regex: pattern, $options: options } }] *)
Record RegexCond := mkRegexCond {
  rc_field : Field;
  rc_regex : string;
  rc_options : string
}.

(** [pagination] *)
Record Pagination := mkPagination {
  currentPage : Z;
  totalPages : Z;
  totalItems : Z;
  itemsPerPage : Z;
  hasNextPage : bool;
  hasPreviousPage : bool
}.

(** [Math.ceil(a / b)] on integers, [b] not zero. *)
Definition ceil_div (a b : Z) : Z := - ((- a) / b).

(** Lines 46-69: [found] is the answer of [Property.find(query).sort(sort)]
    before [skip] and [limit] cut it, and [countDocuments(query)] counts the
    same documents. The code computes on Numbers; the computation is the
    one on integers written here for a page up to [2 ^ 53], a limit up to
    100 and fewer than [2 ^ 46] documents. *)
Definition paginate {A : Type} (pageNum limitNum : Z) (found : list A)
    : list A * Pagination :=
  let skip := (pageNum - 1) * limitNum in
  let properties := take (Z.to_nat limitNum) (drop (Z.to_nat skip) found) in
  let totalItems := Z.of_nat (length found) in
  let totalPages := ceil_div totalItems limitNum in
  (properties,
   mkPagination pageNum totalPages totalItems limitNum
     (pageNum <? totalPages) (1 <? pageNum)).

Section WithNumbers.
Context {num : Type} `{JSNumber num}.

Abbreviation Doc := (Property.Doc num).

(** [query.price]: the keys [$gte] and [$lte], each present or not. *)
Record PriceCond := mkPriceCond {
  gte : option num;
  lte : option num
}.

(** The [query] object: [status] is always there, the other keys only
    when attached. *)
Record Filter := mkFilter {
  f_status : string;
  f_type : option string;
  f_category : option string;
  f_featured : option bool;
  f_price : option PriceCond;
  f_or : option (list RegexCond)
}.

(** [if (x) query.k = x] *)
Definition attach (x : option string) : option string :=
  if JS.truthy_opt x then x else None.

Definition location_clause (location : string) : list RegexCond :=
  [ mkRegexCond FLocation location "i";
    mkRegexCond FName location "i";
    mkRegexCond FDescription location "i" ].

(** Lines 22-43: the query object of [getProperties]. *)
Definition build_query (q : Query) : Filter :=
  mkFilter
    (default "Available" (q_status q))
    (attach (q_type q))
    (attach (q_category q))
    ((fun featured => bool_decide (featured = "true")) <$> q_featured q)
    (if JS.truthy_opt (q_minPrice q) || JS.truthy_opt (q_maxPrice q)
     then Some (mkPriceCond (parseFloat <$> attach (q_minPrice q))
                            (parseFloat <$> attach (q_maxPrice q)))
     else None)
    (if JS.truthy_opt (q_location q)
     then location_clause <$> q_location q
     else None).

(** *** What the storage layer does with the query object *)

Definition field_value (f : Field) (d : Doc) : string :=
  match f with
  | FLocation => Property.location d
  | FName => Property.name d
  | FDescription => Property.description d
  end.

Definition regex_cond_matches (c : RegexCond) (d : Doc) : option bool :=
  Regex.test (rc_regex c) (rc_options c) (field_value (rc_field c) d).

(** [$or]: some condition of the list holds. *)
Fixpoint or_matches (conds : list RegexCond) (d : Doc) : option bool :=
  match conds with
  | [] => Some false
  | c :: conds' =>
      match regex_cond_matches c d, or_matches conds' d with
      | Some b, Some b' => Some (b || b')
      | _, _ => None
      end
  end.

Definition price_matches (c : PriceCond) (p : num) : bool :=
  from_option (fun lo => num_le lo p) true (gte c)
  && from_option (fun hi => num_le p hi) true (lte c).

Definition eq_if_present (cond : option string) (v : string) : bool :=
  from_option (fun x => bool_decide (v = x)) true cond.

Definition matches (f : Filter) (d : Doc) : option bool :=
  match from_option (fun conds => or_matches conds d) (Some true) (f_or f) with
  | Some in_or =>
      Some (bool_decide (Property.status d = f_status f)
            && eq_if_present (f_type f) (Property.type d)
            && eq_if_present (f_category f) (Property.category d)
            && from_option (Bool.eqb (Property.featured d)) true (f_featured f)
            && from_option (fun c => price_matches c (Property.price d)) true (f_price f)
            && in_or)
  | None => None
  end.

(** [Property.find(query)] over the documents of the collection. *)
Fixpoint find (f : Filter) (docs : list Doc) : option (list Doc) :=
  match docs with
  | [] => Some []
  | d :: docs' =>
      match matches f d, find f docs' with
      | Some b, Some rest => Some (if b then d :: rest else rest)
      | _, _ => None
      end
  end.

(** [.sort(sort)] is the storage layer's: any reordering. *)
Variable sort_docs : string → list Doc → list Doc.

(** [getProperties]; [None] when the request leaves the modelled fragment
    ([parseInt] or the pattern). *)
Definition getProperties (q : Query) (docs : list Doc)
    : option (Reply (list Doc * Pagination)) :=
  let query := build_query q in
  match from_option Validator.parseInt (Some 1) (q_page q),
        from_option Validator.parseInt (Some 10) (q_limit q),
        find query docs with
  | Some pageNum, Some limitNum, Some found =>
      Some (Success 200
              (paginate pageNum limitNum
                 (sort_docs (default "-createdAt" (q_sort q)) found))
              "Properties retrieved successfully")
  | _, _, _ => None
  end.

(** *** [validatePropertyQuery] (middleware/validation.js)

    Each chain is [optional()]: an absent parameter passes. The [trim()] of
    the [location] chain replaces the parameter by its trimmed value. A
    failing chain rejects the request (400) before the controller runs. *)

Definition check (p : string → bool) (x : option string) : bool :=
  from_option p true x.

Definition validatePropertyQuery (q : Query) : option Query :=
  let location := JS.trim <$> q_location q in
  if check (Validator.isIn Property.type_enum) (q_type q)
     && check (Validator.isIn Property.category_enum) (q_category q)
     && check (fun s => Validator.isNumeric s && Validator.isFloat_min0 (num:=num) s)
              (q_minPrice q)
     && check (fun s => Validator.isNumeric s && Validator.isFloat_min0 (num:=num) s)
              (q_maxPrice q)
     && check (Validator.isInt 1 None) (q_page q)
     && check (Validator.isInt 1 (Some 100)) (q_limit q)
     && check (Validator.isLength 1 200) location
  then Some (mkQuery (q_type q) (q_category q) location (q_minPrice q)
               (q_maxPrice q) (q_page q) (q_limit q) (q_sort q)
               (q_featured q) (q_status q))
  else None.

(** [router.get('/', validatePropertyQuery, getProperties)] *)
Definition list_route (now : nat) (q : Query) (docs : list Doc)
    : option (Reply (list Doc * Pagination)) :=
  match validatePropertyQuery q with
  | Some q' => getProperties q' docs
  | None => Some (validation_failure now)
  end.

(** *** The reference builder of the specification

    The status condition is the supplied status or "Available"; category,
    type and featured are conditions exactly when supplied; the price
    condition is there when a bound is supplied and carries the supplied
    bounds; featured is true for "true" and false otherwise; a supplied
    location gives the three-field disjunction. *)
Definition reference_filter (q : Query) : Filter :=
  mkFilter
    (match q_status q with Some s => s | None => "Available" end)
    (q_type q)
    (q_category q)
    (match q_featured q with
     | Some s => Some (if String.eqb s "true" then true else false)
     | None => None
     end)
    (match q_minPrice q, q_maxPrice q with
     | None, None => None
     | lo, hi => Some (mkPriceCond (parseFloat <$> lo) (parseFloat <$> hi))
     end)
    (match q_location q with
     | Some s => Some (location_clause s)
     | None => None
     end).

(** *** [createProperty] and [updateProperty] *)

(** [req.body] of [createProperty]. *)
Record CreateBody := mkCreateBody {
  cb_name : string;
  cb_description : string;
  cb_category : string;
  cb_location : string;
  cb_price : num;
  cb_priceFormatted : option string;
  cb_type : string;
  cb_status : option string;
  cb_featured : option bool
}.

(** [new Property(body)]: [trim] setters and schema defaults. *)
Definition new_doc (body : CreateBody) : Doc :=
  Property.mkDoc
    (JS.trim (cb_name body))
    (JS.trim (cb_description body))
    (cb_category body)
    (JS.trim (cb_location body))
    (cb_price body)
    (cb_priceFormatted body)
    (cb_type body)
    (default "Available" (cb_status body))
    (default false (cb_featured body))
    0%nat.

(** [createProperty]: [Property.create] saves the new document. *)
Definition createProperty (now : nat) (body : CreateBody) (db : gmap nat Doc)
    : Reply (nat * Doc) * gmap nat Doc :=
  match Property.save (new_doc body) with
  | None => (validation_failure now, db)
  | Some d =>
      let id := fresh (dom db) in
      (Success 201 (id, d) "Property created successfully", <[id := d]> db)
  end.

(** [req.body] of [updateProperty] when it holds nothing but plain keys of
    the paths of the answer; [PropertyReads.WholeBody] is the body as a
    whole, with the other paths and the update operators. *)
Record UpdateBody := mkUpdateBody {
  ub_name : option string;
  ub_price : option num;
  ub_priceFormatted : option string;
  ub_status : option string;
  ub_featured : option bool
}.

Definition apply_opt {A : Type} (f : A → Doc → Doc) (x : option A) (d : Doc) : Doc :=
  match x with
  | Some v => f v d
  | None => d
  end.

(** The [$set] of the keys of the body. No save hook runs on this path. *)
Definition apply_update (body : UpdateBody) (d : Doc) : Doc :=
  apply_opt Property.set_featured (ub_featured body)
    (apply_opt Property.set_status (ub_status body)
      (apply_opt (fun s => Property.set_priceFormatted (Some s)) (ub_priceFormatted body)
        (apply_opt Property.set_price (ub_price body)
          (apply_opt Property.set_name (JS.trim <$> ub_name body) d)))).

(** Update validators ([runValidators: true]) of the keys being set. *)
Definition update_valid (body : UpdateBody) : bool :=
  from_option (Property.required_max 200) true (JS.trim <$> ub_name body)
  && from_option (num_le zero) true (ub_price body)
  && from_option (fun s => bool_decide (s ∈ Property.status_enum)) true (ub_status body).

Definition updateProperty (now : nat) (id : nat) (body : UpdateBody)
    (db : gmap nat Doc) : Reply Doc * gmap nat Doc :=
  match db !! id with
  | None => (Failure 404 "NOT_FOUND" "Property not found" now, db)
  | Some property =>
      if update_valid body then
        let property' := apply_update body property in
        (Success 200 property' "Property updated successfully",
         <[id := property']> db)
      else (validation_failure now, db)
  end.

End WithNumbers.
Arguments Filter num : clear implicits.
Arguments PriceCond num : clear implicits.

End PropertyController.

(** ** models/Service.js *)

Module Service.
Section Model.
Context {num : Type} `{JSNumber num}.

(** The paths of [serviceSchema] the operations below read or write. *)
Record Doc := mkDoc {
  title : string;
  price : num;
  priceType : string;
  active : bool;
  featured : bool;
  views : nat;
  lastUpdated : nat
}.

Definition set_views (n : nat) (d : Doc) : Doc :=
  mkDoc (title d) (price d) (priceType d) (active d) (featured d) n
        (lastUpdated d).

Definition set_lastUpdated (t : nat) (d : Doc) : Doc :=
  mkDoc (title d) (price d) (priceType d) (active d) (featured d) (views d) t.

(** The virtual [formattedPrice]. *)
Definition formattedPrice (d : Doc) : string :=
  if String.eqb (priceType d) "free" then "Free"
  else if String.eqb (priceType d) "consultation" then "Contact for pricing"
  else if is_zero (price d) then "Contact for pricing"
  else
    let formatted := format_USD (price d) in
    if String.eqb (priceType d) "hourly" then formatted +:+ "/hour"
    else if String.eqb (priceType d) "percentage" then to_string (price d) +:+ "%"
    else formatted.

(** [serviceSchema.pre('save', ...)] *)
Definition pre_save (now : nat) (d : Doc) : Doc := set_lastUpdated now d.

Definition priceType_enum : list string :=
  ["free"; "fixed"; "hourly"; "percentage"; "consultation"].

(** The schema validators of the modelled paths. *)
Definition validate (d : Doc) : bool :=
  JS.truthy (title d)
  && Nat.leb (String.length (title d)) 100
  && num_le zero (price d)
  && bool_decide (priceType d ∈ priceType_enum).

(** [doc.save()] *)
Definition save (now : nat) (d : Doc) : option Doc :=
  if validate d then Some (pre_save now d) else None.

End Model.
Arguments Doc num : clear implicits.
End Service.

(** ** The service controller *)

Module ServiceController.
Section WithNumbers.
Context {num : Type} `{JSNumber num}.

Abbreviation Doc := (Service.Doc num).

(** [getService]. The call [service.incrementViews()] adds one to the
    counter of the in-memory document at once, so the body of the answer
    shows the incremented counter; its [save] is not awaited, and a save
    that fails is logged and leaves the collection as it was. *)
Definition getService (now : nat) (id : nat) (db : gmap nat Doc)
    : Reply Doc * gmap nat Doc :=
  let not_found := (Failure 404 "NOT_FOUND" "Service not found" now, db) in
  match db !! id with
  | None => not_found
  | Some service =>
      if negb (Service.active service) then not_found
      else
        let service' := Service.set_views (S (Service.views service)) service in
        (Success 200 service' "Service retrieved successfully",
         match Service.save now service' with
         | Some stored => <[id := stored]> db
         | None => db
         end)
  end.

End WithNumbers.
End ServiceController.

(** ** More string and number primitives *)

Module Text.

Definition is_lower (c : ascii) : bool :=
  let n := nat_of_ascii c in Nat.leb 97 n && Nat.leb n 122.

Definition upper_char (c : ascii) : ascii :=
  if is_lower c then ascii_of_nat (nat_of_ascii c - 32) else c.

(** [s.charAt(0).toUpperCase() + s.slice(1)] *)
Definition capitalize (s : string) : string :=
  match s with
  | EmptyString => EmptyString
  | String c rest => String (upper_char c) rest
  end.

(** [s.substring(n)] *)
Fixpoint substring_from (n : nat) (s : string) : string :=
  match n, s with
  | O, _ => s
  | S n', String _ rest => substring_from n' rest
  | S _, EmptyString => EmptyString
  end.

(** The interpolation of an integer in a template literal. *)
Definition int_to_string (z : Z) : string :=
  if z <? 0 then "-" +:+ WholeNumber.digits (Z.to_N (- z))
  else WholeNumber.digits (Z.to_N z).

(** [Math.round(a / b)] on integers, [b] positive: the nearest integer,
    a tie going up. *)
Definition round_div (a b : Z) : Z := (2 * a + b) / (2 * b).

End Text.

(** ** The error handler (second part of middleware/validation.js) *)

Module ErrorHandler.

(** A [code] is a number (a driver error) or a string. *)
Inductive Code :=
| CodeNum (n : Z)
| CodeStr (s : string).

#[global] Instance Code_eq_dec : EqDecision Code.
Proof. solve_decision. Defined.

Record Detail := mkDetail {
  dt_field : string;
  dt_message : string
}.

(** The properties of the error object the handler reads; [code],
    [statusCode] and [details] are properties the error got by assignment,
    which the spread [{ ...err }] copies. [e_keyValue] is the list of keys
    of [err.keyValue], [e_errors] the list of the values of [err.errors]:
    each one ([path], [message]), or [None] for a value that is [null] or
    [undefined]. *)
Record Err := mkErr {
  e_name : string;
  e_message : option string;
  e_code : option Code;
  e_status : option Z;
  e_statusCode : option Z;
  e_keyValue : option (list string);
  e_errors : option (list (option (string * string)));
  e_details : option (list Detail);
  e_stack : option string
}.

(** The local object [error]. *)
Record Shaped := mkShaped {
  s_code : option Code;
  s_message : option string;
  s_statusCode : option Z;
  s_details : option (list Detail)
}.

(** The answer [res.status(statusCode).json(...)]: the status and the
    body handed to the response. *)
Record ErrorReply := mkErrorReply {
  r_http : Z;
  r_code : Code;
  r_message : string;
  r_details : option (list Detail);
  r_stack : option string;
  r_timestamp : nat
}.

Definition fixed (code : string) (message : string) (http : Z) : Shaped :=
  mkShaped (Some (CodeStr code)) (Some message) (Some http) None.

(** The block of [err.code === 11000]; [None] when it throws: reading
    the first key of a missing or empty [keyValue] gives no string to
    capitalize. *)
Definition duplicate_key (err : Err) : option Shaped :=
  match e_keyValue err with
  | Some (field :: _) =>
      Some (mkShaped (Some (CodeStr "DUPLICATE_FIELD"))
              (Some (Text.capitalize field +:+ " already exists"))
              (Some 400)
              (Some [mkDetail field (field +:+ " already exists")]))
  | _ => None
  end.

(** [Object.values(err.errors).map(val => ({field: val.path, message:
    val.message}))]; [None] when it throws, on a value that is [null] or
    [undefined]. *)
Fixpoint details_of (values : list (option (string * string)))
    : option (list Detail) :=
  match values with
  | [] => Some []
  | None :: _ => None
  | Some val :: rest =>
      match details_of rest with
      | Some details => Some (mkDetail val.1 val.2 :: details)
      | None => None
      end
  end.

(** The block of [err.name === 'ValidationError']; [None] when it throws:
    [err.errors] is missing, or one of its values is. *)
Definition validation_error (err : Err) : option Shaped :=
  match e_errors err with
  | Some errors =>
      match details_of errors with
      | Some details =>
          Some (mkShaped (Some (CodeStr "VALIDATION_ERROR"))
                  (Some "Invalid input data") (Some 400) (Some details))
      | None => None
      end
  | None => None
  end.

Definition number_truthy (x : option Z) : bool :=
  match x with
  | Some n => negb (n =? 0)
  | None => false
  end.

Definition code_truthy (c : option Code) : bool :=
  match c with
  | Some (CodeNum n) => negb (n =? 0)
  | Some (CodeStr s) => JS.truthy s
  | None => false
  end.

(** The chain of [if] blocks: each one that applies replaces [error]. *)
Definition shape (err : Err) : option Shaped :=
  let error := mkShaped (e_code err) (e_message err) (e_statusCode err)
                 (e_details err) in
  let error :=
    if String.eqb (e_name err) "CastError"
    then fixed "NOT_FOUND" "Resource not found" 404 else error in
  match (if bool_decide (e_code err = Some (CodeNum 11000))
         then duplicate_key err else Some error) with
  | None => None
  | Some error =>
      match (if String.eqb (e_name err) "ValidationError"
             then validation_error err else Some error) with
      | None => None
      | Some error =>
          let error :=
            if String.eqb (e_name err) "JsonWebTokenError"
            then fixed "UNAUTHORIZED" "Invalid token" 401 else error in
          let error :=
            if String.eqb (e_name err) "TokenExpiredError"
            then fixed "UNAUTHORIZED" "Token has expired" 401 else error in
          let error :=
            if bool_decide (e_code err = Some (CodeStr "LIMIT_FILE_SIZE"))
            then fixed "FILE_TOO_LARGE" "File size too large" 400 else error in
          let error :=
            if bool_decide (e_code err = Some (CodeStr "LIMIT_FILE_COUNT"))
            then fixed "TOO_MANY_FILES" "Too many files uploaded" 400 else error in
          let error :=
            if bool_decide (e_code err = Some (CodeStr "LIMIT_UNEXPECTED_FILE"))
            then fixed "INVALID_FILE_FIELD" "Unexpected file field" 400 else error in
          let error :=
            if bool_decide (e_status err = Some 429)
            then fixed "RATE_LIMIT_EXCEEDED"
                   "Too many requests, please try again later" 429
            else error in
          Some error
      end
  end.

(** The response takes a status from 100 to 999; with another one the
    call that sends the answer throws. *)
Definition sendable (statusCode : Z) : bool :=
  (100 <=? statusCode) && (statusCode <=? 999).

(** [errorHandler]; [development] is [process.env.NODE_ENV === 'development'].
    [None] when the handler itself throws and nothing is sent. *)
Definition errorHandler (development : bool) (now : nat) (err : Err)
    : option ErrorReply :=
  match shape err with
  | None => None
  | Some error =>
      let statusCode :=
        if number_truthy (s_statusCode error) then default 500 (s_statusCode error)
        else if number_truthy (e_statusCode err) then default 500 (e_statusCode err)
        else 500 in
      let code :=
        if code_truthy (s_code error)
        then default (CodeStr "INTERNAL_ERROR") (s_code error)
        else CodeStr "INTERNAL_ERROR" in
      let message :=
        if JS.truthy_opt (s_message error) then default "" (s_message error)
        else "Internal server error" in
      if sendable statusCode
      then Some (mkErrorReply statusCode code message (s_details error)
                   (if development then e_stack err else None) now)
      else None
  end.

(** [notFound]: the error it hands to [next]. *)
Definition notFound (originalUrl : string) (stack : option string) : Err :=
  mkErr "Error" (Some ("Route " +:+ originalUrl +:+ " not found")) 
    (Some (CodeStr "NOT_FOUND")) None (Some 404) None None None stack.

(** The codes of the response envelope. *)
Definition vocabulary : list string :=
  ["NOT_FOUND"; "VALIDATION_ERROR"; "DUPLICATE_FIELD"; "UNAUTHORIZED";
   "FORBIDDEN"; "RATE_LIMIT_EXCEEDED"; "INTERNAL_ERROR"; "FILE_TOO_LARGE";
   "TOO_MANY_FILES"; "INVALID_FILE_FIELD"].

(** Some [if] block of the handler applies to the error. *)
Definition matches_rule (err : Err) : bool :=
  bool_decide (e_name err ∈ ["CastError"; "ValidationError";
                            "JsonWebTokenError"; "TokenExpiredError"])
  || bool_decide (e_code err = Some (CodeNum 11000))
  || bool_decide (e_code err ∈ [Some (CodeStr "LIMIT_FILE_SIZE");
                                Some (CodeStr "LIMIT_FILE_COUNT");
                                Some (CodeStr "LIMIT_UNEXPECTED_FILE")])
  || bool_decide (e_status err = Some 429).

End ErrorHandler.

(** ** The authentication middleware *)

Module Auth.

(** The paths of a user document the middleware reads. *)
Record User := mkUser {
  role : string;
  isActive : bool
}.

(** What [verifyToken] does with a token: the decoded user id, or the
    error it throws. *)
Inductive Verified :=
| Decoded (userId : nat)
| JsonWebTokenError
| TokenExpiredError
| OtherError.

(** A middleware calls [next()] with [req.user] as it then stands, or
    sends an answer. *)
Inductive Outcome :=
| Next (user : option User)
| Rejected (http : nat) (code : string) (msg : string) (timestamp : nat).

Section WithToken.

(** [jwt.verify(token, process.env.JWT_SECRET)] *)
Variable verifyToken : string → Verified.

Definition no_bearer (authHeader : option string) : bool :=
  negb (JS.truthy_opt authHeader)
  || negb (JS.startsWith "Bearer " (default "" authHeader)).

(** [authenticate] *)
Definition authenticate (now : nat) (authHeader : option string)
    (users : gmap nat User) : Outcome :=
  if no_bearer authHeader
  then Rejected 401 "UNAUTHORIZED" "Access token is required" now
  else
    let token := Text.substring_from 7 (default "" authHeader) in
    if negb (JS.truthy token)
    then Rejected 401 "UNAUTHORIZED" "Access token is required" now
    else
      match verifyToken token with
      | Decoded userId =>
          match users !! userId with
          | None => Rejected 401 "UNAUTHORIZED" "Invalid or expired token" now
          | Some user =>
              if negb (isActive user)
              then Rejected 401 "UNAUTHORIZED" "Invalid or expired token" now
              else Next (Some user)
          end
      | JsonWebTokenError => Rejected 401 "UNAUTHORIZED" "Invalid token" now
      | TokenExpiredError => Rejected 401 "UNAUTHORIZED" "Token has expired" now
      | OtherError => Rejected 500 "INTERNAL_ERROR" "Authentication failed" now
      end.

(** [authorize(...roles)] *)
Definition authorize (roles : list string) (now : nat) (user : option User)
    : Outcome :=
  match user with
  | None => Rejected 401 "UNAUTHORIZED" "Authentication required" now
  | Some u =>
      if negb (bool_decide (role u ∈ roles))
      then Rejected 403 "FORBIDDEN" "Insufficient permissions" now
      else Next (Some u)
  end.

(** [[authenticate, authorize(...roles)]]: the second runs when the first
    called [next]. *)
Definition guarded (roles : list string) (now : nat)
    (authHeader : option string) (users : gmap nat User) : Outcome :=
  match authenticate now authHeader users with
  | Next user => authorize roles now user
  | rejected => rejected
  end.

Definition adminOnly : nat → option string → gmap nat User → Outcome :=
  guarded ["admin"].

Definition adminOrAgent : nat → option string → gmap nat User → Outcome :=
  guarded ["admin"; "agent"].

(** [optionalAuth]: always calls [next]; the result is [req.user]. *)
Definition optionalAuth (authHeader : option string) (users : gmap nat User)
    : option User :=
  if no_bearer authHeader then None
  else
    let token := Text.substring_from 7 (default "" authHeader) in
    if negb (JS.truthy token) then None
    else
      match verifyToken token with
      | Decoded userId =>
          match users !! userId with
          | Some user => if isActive user then Some user else None
          | None => None
          end
      | _ => None
      end.

End WithToken.
End Auth.

(** ** The virtuals of models/Contact.js

    Dates are milliseconds since the epoch. *)

Module ContactVirtuals.

(** [responseTime]: hours between creation and response. *)
Definition responseTime (responseDate createdAt : option Z) : option Z :=
  match responseDate, createdAt with
  | Some r, Some c => Some (Text.round_div (r - c) (1000 * 60 * 60))
  | _, _ => None
  end.

(** [`${n} ${unit}${n > 1 ? 's' : ''} ago`] *)
Definition ago (n : Z) (unit : string) : string :=
  Text.int_to_string n +:+ " " +:+ unit
  +:+ (if 1 <? n then "s" else "") +:+ " ago".

(** [timeSinceSubmission]; [now] is [new Date()]. *)
Definition timeSinceSubmission (now createdAt : Z) : string :=
  let diffMs := now - createdAt in
  let diffHours := diffMs / (1000 * 60 * 60) in
  let diffDays := diffHours / 24 in
  if 0 <? diffDays then ago diffDays "day"
  else if 0 <? diffHours then ago diffHours "hour"
  else
    let diffMinutes := diffMs / (1000 * 60) in
    ago diffMinutes "minute".

End ContactVirtuals.

(** ** The statics and the subcategory validator of models/Property.js *)

Module PropertyStatics.

Definition residentialTypes : list string :=
  ["House"; "Villa"; "Apartment"; "Penthouse"; "Condo"; "Townhouse"].

Definition commercialTypes : list string :=
  ["Office Building"; "Retail Space"; "Warehouse"; "Industrial"; "Mixed-Use"].

(** The validator of the path [subcategory]; [category] is [this.category]. *)
Definition subcategory_validator (category value : string) : bool :=
  if String.eqb category "Residential"
  then bool_decide (value ∈ residentialTypes)
  else if String.eqb category "Commercial"
       then bool_decide (value ∈ commercialTypes)
       else false.

Definition getPropertyTypes : list string := ["Buy"; "Sell"; "Lease Out"].

Definition getCategories : list string := ["Residential"; "Commercial"].

(** [getSubcategories()]: an object with one key per category. *)
Definition getSubcategories : gmap string (list string) :=
  <["Residential" :=
      ["House"; "Villa"; "Apartment"; "Penthouse"; "Condo"; "Townhouse"]]>
    (<["Commercial" :=
         ["Office Building"; "Retail Space"; "Warehouse"; "Industrial";
          "Mixed-Use"]]> ∅).

End PropertyStatics.

(** ** controllers/propertyController.js: the other operations *)

Module PropertyReads.
Section WithNumbers.
Context {num : Type} `{JSNumber num}.

Abbreviation Doc := (Property.Doc num).

(** [getProperty]. As in [getService], [incrementViews] changes the
    in-memory document at once and its save is not awaited; the save runs
    the pre-save hook of the model. *)
Definition getProperty (now : nat) (id : nat) (db : gmap nat Doc)
    : Reply Doc * gmap nat Doc :=
  match db !! id with
  | None => (Failure 404 "NOT_FOUND" "Property not found" now, db)
  | Some property =>
      let property' := Property.set_views (S (Property.views property)) property in
      (Success 200 property' "Property retrieved successfully",
       match Property.save property' with
       | Some stored => <[id := stored]> db
       | None => db
       end)
  end.

(** [deleteProperty] *)
Definition deleteProperty (now : nat) (id : nat) (db : gmap nat Doc)
    : Reply unit * gmap nat Doc :=
  match db !! id with
  | None => (Failure 404 "NOT_FOUND" "Property not found" now, db)
  | Some _ => (Success 200 () "Property deleted successfully", delete id db)
  end.

(** [req.body] of [updateProperty] as [findByIdAndUpdate] gets it: the
    route hands it over whole. [keys] are the plain keys of the paths of the
    answer; the other modelled paths may be set as well; and the body may
    hold update operators, keys that start with [$]. The update validators
    run on the plain keys, which are the [$set] of the update; on operators
    such as [$inc], [$mul], [$min], [$max] and [$rename] none runs.
    [wb_operators] is what the operators of the body do to the document,
    as the storage layer applies them; [None] when the body holds none. *)
Record WholeBody := mkWholeBody {
  keys : PropertyController.UpdateBody (num := num);
  wb_description : option string;
  wb_category : option string;
  wb_location : option string;
  wb_type : option string;
  wb_views : option nat;
  wb_operators : option (Doc → Doc)
}.

Definition set_description (s : string) (d : Doc) : Doc :=
  Property.mkDoc (Property.name d) s (Property.category d)
    (Property.location d) (Property.price d) (Property.priceFormatted d)
    (Property.type d) (Property.status d) (Property.featured d)
    (Property.views d).

Definition set_category (s : string) (d : Doc) : Doc :=
  Property.mkDoc (Property.name d) (Property.description d) s
    (Property.location d) (Property.price d) (Property.priceFormatted d)
    (Property.type d) (Property.status d) (Property.featured d)
    (Property.views d).

Definition set_location (s : string) (d : Doc) : Doc :=
  Property.mkDoc (Property.name d) (Property.description d)
    (Property.category d) s (Property.price d) (Property.priceFormatted d)
    (Property.type d) (Property.status d) (Property.featured d)
    (Property.views d).

Definition set_type (s : string) (d : Doc) : Doc :=
  Property.mkDoc (Property.name d) (Property.description d)
    (Property.category d) (Property.location d) (Property.price d)
    (Property.priceFormatted d) s (Property.status d) (Property.featured d)
    (Property.views d).

(** The [$set] of the plain keys of the whole body; string paths go
    through their [trim] setter. *)
Definition apply_plain (body : WholeBody) (d : Doc) : Doc :=
  PropertyController.apply_opt Property.set_views (wb_views body)
    (PropertyController.apply_opt set_type (wb_type body)
      (PropertyController.apply_opt set_location (JS.trim <$> wb_location body)
        (PropertyController.apply_opt set_category (wb_category body)
          (PropertyController.apply_opt set_description
             (JS.trim <$> wb_description body)
             (PropertyController.apply_update (keys body) d))))).

(** Update validators ([runValidators: true]) of the plain keys. *)
Definition plain_valid (body : WholeBody) : bool :=
  PropertyController.update_valid (keys body)
  && from_option (Property.required_max 2000) true
       (JS.trim <$> wb_description body)
  && from_option (fun s => bool_decide (s ∈ Property.category_enum)) true
       (wb_category body)
  && from_option (Property.required_max 200) true
       (JS.trim <$> wb_location body)
  && from_option (fun s => bool_decide (s ∈ Property.type_enum)) true
       (wb_type body).

(** [updateProperty] on the whole body: the update validators look at the
    plain keys only; then the storage layer applies the plain keys and the
    operators. *)
Definition updateProperty (now : nat) (id : nat) (body : WholeBody)
    (db : gmap nat Doc) : Reply Doc * gmap nat Doc :=
  match db !! id with
  | None => (Failure 404 "NOT_FOUND" "Property not found" now, db)
  | Some property =>
      if plain_valid body then
        let property' :=
          default (fun d => d) (wb_operators body) (apply_plain body property) in
        (Success 200 property' "Property updated successfully",
         <[id := property']> db)
      else (validation_failure now, db)
  end.

(** The body holds the five keys of [PropertyController.UpdateBody] and
    nothing else. *)
Definition of_keys (body : PropertyController.UpdateBody (num := num))
    : WholeBody :=
  mkWholeBody body None None None None None None.

(** The requests that write to the collection of listings. *)
Inductive Request :=
| Create (now : nat) (body : PropertyController.CreateBody (num := num))
| Update (now : nat) (id : nat) (body : WholeBody)
| Read (now : nat) (id : nat)
| Delete (now : nat) (id : nat).

Definition handle (db : gmap nat Doc) (r : Request) : gmap nat Doc :=
  match r with
  | Create now body => snd (PropertyController.createProperty now body db)
  | Update now id body => snd (updateProperty now id body db)
  | Read now id => snd (getProperty now id db)
  | Delete now id => snd (deleteProperty now id db)
  end.

(** The request carries no update operator. *)
Definition no_operator (r : Request) : bool :=
  match r with
  | Update _ _ body =>
      match wb_operators body with
      | Some _ => false
      | None => true
      end
  | _ => true
  end.

(** The collection after serving the requests, one after the other,
    starting from an empty collection. *)
Definition serve (requests : list Request) : gmap nat Doc :=
  foldl handle ∅ requests.

(** [.sort(...)] is the storage layer's. *)
Variable sort_docs : string → list Doc → list Doc.

(** [getFeaturedProperties]: [limit(0)] is no limit; a negative limit is
    not modelled ([None]), nor a [limit] that [parseInt] does not read. *)
Definition getFeaturedProperties (limit : option string) (docs : list Doc)
    : option (Reply (list Doc)) :=
  let found :=
    sort_docs "-createdAt"
      (filter (fun d => Property.featured d = true
                        ∧ Property.status d = "Available") docs) in
  match from_option Validator.parseInt (Some 6) limit with
  | Some limitNum =>
      if limitNum <? 0 then None
      else
        Some (Success 200
                (if limitNum =? 0 then found else take (Z.to_nat limitNum) found)
                "Featured properties retrieved successfully")
  | None => None
  end.

(** The ranked text search of the storage layer: which documents a
    search string matches, and in which order they come out. *)
Variable text_matches : string → Doc → bool.
Variable rank : string → list Doc → list Doc.

Definition double_quote : string := String (ascii_of_nat 34) EmptyString.

(** [searchProperties]: the route has no validation chain, so [page] and
    [limit] are whatever the caller sent; [None] when [parseInt] does not
    read them or gives a value below 1 (not modelled). *)
Definition searchProperties (now : nat) (q page limit : option string)
    (docs : list Doc)
    : option (Reply (list Doc * PropertyController.Pagination * string)) :=
  if negb (JS.truthy_opt q)
  then Some (Failure 400 "VALIDATION_ERROR" "Search query is required" now)
  else
    let text := default "" q in
    match from_option Validator.parseInt (Some 1) page,
          from_option Validator.parseInt (Some 10) limit with
    | Some pageNum, Some limitNum =>
        if (1 <=? pageNum) && (1 <=? limitNum) then
          let found :=
            rank text
              (filter (fun d => text_matches text d = true
                                ∧ Property.status d = "Available") docs) in
          let result := PropertyController.paginate pageNum limitNum found in
          Some (Success 200 (result.1, result.2, text)
                  ("Found "
                   +:+ Text.int_to_string
                         (PropertyController.totalItems result.2)
                   +:+ " properties matching " +:+ double_quote +:+ text
                   +:+ double_quote))
        else None
    | _, _ => None
    end.

End WithNumbers.
End PropertyReads.

(** ** controllers/contactController.js: deletion, and the requests *)

Module ContactAdmin.

Import Contact ContactController.

(** [deleteContact] *)
Definition deleteContact (now : Time) (id : nat) (db : gmap nat Doc)
    : Reply unit * gmap nat Doc :=
  match db !! id with
  | None => (Failure 404 "NOT_FOUND" "Contact not found" now, db)
  | Some _ => (Success 200 () "Contact deleted successfully", delete id db)
  end.

(** The requests that write to the collection of contacts. *)
Inductive Request :=
| Submit (now : Time) (body : SubmitBody) (property_name : option string)
| Update (now : Time) (id : nat) (body : UpdateBody)
| Mark (now : Time) (id : nat) (notes : option string)
| Delete (now : Time) (id : nat).

Definition handle (db : gmap nat Doc) (r : Request) : gmap nat Doc :=
  match r with
  | Submit now body property_name => snd (submitContact now body property_name db)
  | Update now id body => snd (updateContact now id body db)
  | Mark now id notes => snd (markAsContacted now id notes db)
  | Delete now id => snd (deleteContact now id db)
  end.

(** The collection after serving the requests, one after the other,
    starting from an empty collection. *)
Definition serve (requests : list Request) : gmap nat Doc :=
  foldl handle ∅ requests.

(** The contact a staff operation addresses, and what it carries for the
    notes and for the assignee: [markAsContacted] carries no assignee. *)
Definition op_id (op : StaffOp) : nat :=
  match op with
  | OpUpdate _ id _ => id
  | OpMark _ id _ => id
  end.

Definition op_notes (op : StaffOp) : option string :=
  match op with
  | OpUpdate _ _ body => ub_notes body
  | OpMark _ _ notes => notes
  end.

Definition op_assignedTo (op : StaffOp) : option string :=
  match op with
  | OpUpdate _ _ body => ub_assignedTo body
  | OpMark _ _ _ => None
  end.

End ContactAdmin.

(** ** The service controller: listing and inquiries *)

Module ServiceCatalog.
Section WithNumbers.
Context {num : Type} `{JSNumber num}.

(** A service document with, beside the paths of [Service.Doc], those the
    list and the inquiry counter read. *)
Record Entry := mkEntry {
  base : Service.Doc num;
  category : string;
  order : Z;
  inquiries : nat
}.

(** What [select('-__v -metadata.views -metadata.inquiries')] leaves. *)
Record Public := mkPublic {
  p_title : string;
  p_price : num;
  p_priceType : string;
  p_active : bool;
  p_featured : bool;
  p_category : string;
  p_order : Z;
  p_lastUpdated : nat
}.

Definition select (e : Entry) : Public :=
  mkPublic (Service.title (base e)) (Service.price (base e))
    (Service.priceType (base e)) (Service.active (base e))
    (Service.featured (base e)) (category e) (order e)
    (Service.lastUpdated (base e)).

(** [req.query] of [getServices]. *)
Record ListQuery := mkListQuery {
  lq_category : option string;
  lq_featured : option string;
  lq_active : option string
}.

(** The [query] object of [getServices]. *)
Record ListFilter := mkListFilter {
  lf_active : bool;
  lf_category : option string;
  lf_featured : option bool
}.

Definition list_filter (q : ListQuery) : ListFilter :=
  mkListFilter
    (bool_decide (default "true" (lq_active q) = "true"))
    (if JS.truthy_opt (lq_category q) then lq_category q else None)
    ((fun featured => bool_decide (featured = "true")) <$> lq_featured q).

Definition passes (f : ListFilter) (e : Entry) : bool :=
  Bool.eqb (Service.active (base e)) (lf_active f)
  && from_option (fun c => bool_decide (category e = c)) true (lf_category f)
  && from_option (Bool.eqb (Service.featured (base e))) true (lf_featured f).

(** [.sort({ featured: -1, order: 1 })] is the storage layer's. *)
Variable sort_entries : list Entry → list Entry.

(** [getServices] over the documents of the collection. *)
Definition getServices (q : ListQuery) (entries : list Entry)
    : Reply (list Public) :=
  Success 200
    (select <$> sort_entries (filter (fun e => passes (list_filter q) e = true) entries))
    "Services retrieved successfully".

Definition set_inquiries (n : nat) (e : Entry) : Entry :=
  mkEntry (base e) (category e) (order e) n.

Definition set_base (b : Service.Doc num) (e : Entry) : Entry :=
  mkEntry b (category e) (order e) (inquiries e).

Definition category_enum : list string :=
  ["Property Services"; "Financial Services"; "Legal Services";
   "Consultation"].

(** The schema validators of the modelled paths. *)
Definition validate (e : Entry) : bool :=
  Service.validate (base e) && bool_decide (category e ∈ category_enum).

(** [doc.save()] *)
Definition save (now : nat) (e : Entry) : option Entry :=
  if validate e then Some (set_base (Service.pre_save now (base e)) e)
  else None.

(** [incrementInquiries]: [this.metadata.inquiries += 1; return this.save()] *)
Definition incrementInquiries (now : nat) (e : Entry) : option Entry :=
  save now (set_inquiries (S (inquiries e)) e).

(** [recordInquiry]: the save is awaited; the answer carries the id and
    [service.metadata.inquiries + 1], read from the document after the
    increment. *)
Definition recordInquiry (now : nat) (id : nat) (catalog : gmap nat Entry)
    : Reply (nat * nat) * gmap nat Entry :=
  match catalog !! id with
  | None => (Failure 404 "NOT_FOUND" "Service not found" now, catalog)
  | Some service =>
      match incrementInquiries now service with
      | None => (validation_failure now, catalog)
      | Some service' =>
          (Success 200 (id, (inquiries service' + 1)%nat)
             "Service inquiry recorded successfully",
           <[id := service']> catalog)
      end
  end.

End WithNumbers.
End ServiceCatalog.

(** ** Notions of the specification *)

(** [kw] occurs in [t] as a substring. *)
Definition occurs_in (kw t : string) : Prop :=
  ∃ pre post, t = pre +:+ kw +:+ post.

(** [s] occurs in [field] as a literal substring, letter case ignored. *)
Definition contains_ci (s field : string) : bool :=
  JS.includes (JS.toLowerCase s) (JS.toLowerCase field).

(** The contains-match of the specification: [s] occurs in the location,
    the name or the description. *)
Definition location_contains {num : Type} (s : string) (d : Property.Doc num) : bool :=
  contains_ci s (Property.location d)
  || contains_ci s (Property.name d)
  || contains_ci s (Property.description d).

(** No character of the pattern is special in a regular expression. *)
Fixpoint plain (s : string) : bool :=
  match s with
  | EmptyString => true
  | String c s' => negb (Regex.is_meta c) && negb (Ascii.eqb c ".") && plain s'
  end.

(** The pattern that matches [s] character by character. *)
Fixpoint literals (s : string) : list Regex.atom :=
  match s with
  | EmptyString => []
  | String c s' => Regex.Lit c :: literals s'
  end.

(** The write-once reading of the response time stamp: on every contact
    created by a submission, once [responseDate] holds a time stamp no
    later staff operation changes it. *)
Definition responseDate_written_once : Prop :=
  ∀ now body property_name ops1 ops2 id c1 c2 t,
    let db := snd (ContactController.submitContact now body property_name ∅) in
    ContactController.run_ops ops1 db !! id = Some c1 →
    Contact.responseDate c1 = Some t →
    ContactController.run_ops (ops1 ++ ops2) db !! id = Some c2 →
    Contact.responseDate c2 = Some t.

(** The items of the pages 1, 2, ..., totalPages, for a fixed limit. *)
Definition all_pages {A : Type} (limit : Z) (found : list A) : list (list A) :=
  map (fun p : nat => (PropertyController.paginate (Z.of_nat p) limit found).1)
    (seq 1 (Z.to_nat (PropertyController.totalPages
                        (PropertyController.paginate 1 limit found).2))).

(** ** Sample requests and documents *)

Definition sample_contact : Contact.Data :=
  Contact.mkData "This is urgent, I need info about financing asap"
    (Some "Financing") None [].

Definition scenario_body : ContactController.SubmitBody :=
  ContactController.mkSubmitBody None
    "This is urgent, I need info about financing asap".

(** A message ending in "as" with the subject "ap". *)
Definition split_keyword_contact : Contact.Data :=
  Contact.mkData "Please call me back as" (Some "ap") None [].


Definition urgent_body : ContactController.SubmitBody :=
  ContactController.mkSubmitBody (Some "Viewing")
    "This is urgent, I would like to visit the villa".

(** The collection after one public submission. *)
Definition one_contact : gmap nat Contact.Doc :=
  snd (ContactController.submitContact 0 urgent_body None ∅).

Definition stored_contact : Contact.Doc :=
  Contact.mkDoc "This is urgent, I would like to visit the villa"
    (Some "Viewing") "pending" "urgent" None None None ["viewing-request"].

Definition staff_session : list ContactController.StaffOp :=
  [ ContactController.OpUpdate 1 0%nat
      (ContactController.mkUpdateBody None (Some "not that urgent") None (Some "low"));
    ContactController.OpMark 2 0%nat (Some "called back");
    ContactController.OpUpdate 3 0%nat
      (ContactController.mkUpdateBody (Some "resolved") None (Some "sam") None) ].

(** The staff update that only sets the status of contact 0. *)
Definition to_status (now : nat) (s : string) : ContactController.StaffOp :=
  ContactController.OpUpdate now 0%nat
    (ContactController.mkUpdateBody (Some s) None None None).

Definition villa_query : PropertyController.Query :=
  PropertyController.mkQuery None (Some "Residential") (Some " Beverly Hills ")
    (Some "1000000") (Some "5000000") (Some "2") (Some "2") None
    (Some "yes") None.

Definition range_query : PropertyController.Query :=
  PropertyController.mkQuery None (Some "Residential") None
    (Some "1000000") (Some "5000000") None None None None None.

Definition empty_type_query : PropertyController.Query :=
  PropertyController.mkQuery (Some "") None None None None None None None
    None None.

Definition beverly_villa : Property.Doc N :=
  Property.mkDoc "Luxury Villa" "A villa with a pool and a garden" "Residential"
    "Beverly Hills, CA" 4500000%N (Some "$4,500,000.00") "Buy" "Available"
    true 0.

Definition downtown_office : Property.Doc N :=
  Property.mkDoc "Office Building" "Ten floors of offices downtown" "Commercial"
    "Los Angeles, CA" 15000000%N (Some "$15,000,000.00") "Lease Out"
    "Available" false 0.

Definition main_street_loft : Property.Doc N :=
  Property.mkDoc "Garden Loft" "Bright loft close to the park" "Residential"
    "125 Main St" 750000%N (Some "$750,000.00") "Buy" "Available" false 0.

Definition villa_location_query : PropertyController.Query :=
  PropertyController.mkQuery None None (Some "beverly hills") None None None
    None None None None.

Definition dot_query : PropertyController.Query :=
  PropertyController.mkQuery None None (Some "1.5") None None None None None
    None None.

Definition test_property : PropertyController.CreateBody (num := N) :=
  PropertyController.mkCreateBody "Test Property"
    "A beautiful test property for API testing" "Residential" "Test City, CA"
    750000%N None "Buy" None None.

(** The collection after the creation of [test_property]. *)
Definition listed : gmap nat (Property.Doc N) :=
  snd (PropertyController.createProperty 0 test_property ∅).

Definition price_update : PropertyController.UpdateBody (num := N) :=
  PropertyController.mkUpdateBody None (Some 800000%N) None (Some "Pending") None.

Definition retired_service : Service.Doc N :=
  Service.mkDoc "Property Valuation" 200%N "hourly" false false 12 0.



Definition branded_property : PropertyController.CreateBody (num := N) :=
  PropertyController.mkCreateBody "Test Property"
    "A beautiful test property for API testing" "Residential" "Test City, CA"
    750000%N (Some "a bargain") "Buy" None None.

Definition property_session : list (PropertyReads.Request (num := N)) :=
  [ PropertyReads.Create 0 test_property;
    PropertyReads.Update 1 0%nat (PropertyReads.of_keys price_update);
    PropertyReads.Read 2 0%nat ].

Definition contact_session : list ContactAdmin.Request :=
  [ ContactAdmin.Submit 0 urgent_body None;
    ContactAdmin.Update 1 0%nat
      (ContactController.mkUpdateBody (Some "contacted") (Some " called ") None None);
    ContactAdmin.Submit 2 scenario_body None;
    ContactAdmin.Delete 3 1%nat ].

Definition contacted_contact : Contact.Doc :=
  Contact.mkDoc "This is urgent, I would like to visit the villa"
    (Some "Viewing") "contacted" "urgent" (Some "called") None (Some 1%nat)
    ["viewing-request"].

Definition tower_body : ContactController.SubmitBody :=
  ContactController.mkSubmitBody None "Please send me the brochure".

Definition duplicate_email : ErrorHandler.Err :=
  ErrorHandler.mkErr "MongoServerError" (Some "E11000 duplicate key error")
    (Some (ErrorHandler.CodeNum 11000)) None None (Some ["email"]) None None
    None.

Definition throttled : ErrorHandler.Err :=
  ErrorHandler.mkErr "ValidationError" (Some "Too many requests") None
    (Some 429) (Some 429) None (Some [Some ("email", "Email is required")])
    None None.

Definition refused_connection : ErrorHandler.Err :=
  ErrorHandler.mkErr "Error" (Some "connect ECONNREFUSED 127.0.0.1:27017")
    (Some (ErrorHandler.CodeStr "ECONNREFUSED")) None None None None None
    (Some "Error: connect ECONNREFUSED").

(** A token check that accepts two tokens, and two staff accounts. *)
Definition sample_verify (token : string) : Auth.Verified :=
  if String.eqb token "admin-token" then Auth.Decoded 1
  else if String.eqb token "agent-token" then Auth.Decoded 2
  else if String.eqb token "old-token" then Auth.TokenExpiredError
  else Auth.JsonWebTokenError.

Definition staff : gmap nat Auth.User :=
  {[ 1%nat := Auth.mkUser "admin" true; 2%nat := Auth.mkUser "agent" true ]}.

(** A catalog of one service, and a list with a withdrawn one. *)
Definition valuation_service : ServiceCatalog.Entry (num := N) :=
  ServiceCatalog.mkEntry (Service.mkDoc "Valuation" 250%N "fixed" true true 0 0)
    "Property Services" 1 3.

Definition withdrawn_service : ServiceCatalog.Entry (num := N) :=
  ServiceCatalog.mkEntry (Service.mkDoc "Staging" 0%N "consultation" false false 0 0)
    "Consultation" 2 0.

(** Five stored listings, a request for one page of the list, and a
    storage layer that keeps the stored order. *)
Definition five_listings : list (Property.Doc N) :=
  [beverly_villa; downtown_office; main_street_loft; beverly_villa;
   downtown_office].

Definition page_query (page limit : string) : PropertyController.Query :=
  PropertyController.mkQuery None None None None None (Some page) (Some limit)
    None None None.

Definition stored_order (order : string) (docs : list (Property.Doc N))
    : list (Property.Doc N) := docs.

(** Notes are taken, then an update sends notes of three spaces. *)
Definition blank_notes_session : list ContactController.StaffOp :=
  [ ContactController.OpMark 1 0%nat (Some "called back");
    ContactController.OpUpdate 2 0%nat
      (ContactController.mkUpdateBody None (Some "   ") None None) ].

(** Closes the cases in which an operation leaves contact [c] as it is. *)
Local Ltac unchanged c := exists c; repeat split; auto.

(** * Properties *)

(** ** Strings *)

Lemma startsWith_spec (p s : string) :
  JS.startsWith p s = true ↔ ∃ post, s = p +:+ post.
Proof.
  revert s. induction p as [|a p IH]; intros s; simpl.
  - split; [intros _; by exists s | done].
  - destruct s as [|b s].
    + split; [done | intros [post Hpost]; discriminate].
    + destruct (Ascii.eqb_spec a b) as [->|Hne].
      * rewrite IH. split; intros [post Hpost]; exists post.
        -- by rewrite Hpost.
        -- by injection Hpost.
      * split; [done | intros [post Hpost]; by injection Hpost].
Qed.

Lemma includes_spec (kw t : string) :
  JS.includes kw t = true ↔ occurs_in kw t.
Proof.
  unfold occurs_in. induction t as [|c t IH]; simpl.
  - rewrite startsWith_spec. split.
    + intros [post Hpost]. exists "", post. done.
    + intros [[|x pre] [post Hpost]]; [by exists post | discriminate].
  - rewrite orb_true_iff, IH, startsWith_spec. split.
    + intros [[post Hpost] | (pre & post & Hpost)].
      * exists "", post. done.
      * exists (String c pre), post. simpl. by rewrite Hpost.
    + intros [[|x pre] [post Hpost]].
      * left. by exists post.
      * right. exists pre, post. by injection Hpost.
Qed.

Lemma some_included_spec (kws : list string) (t : string) :
  Contact.some_included kws t = true ↔ ∃ kw, kw ∈ kws ∧ occurs_in kw t.
Proof.
  unfold Contact.some_included. rewrite existsb_exists. split.
  - intros (kw & Hin & Hinc). exists kw. split.
    + by apply list_elem_of_In.
    + by apply includes_spec.
  - intros (kw & Hin & Hocc). exists kw. split.
    + by apply list_elem_of_In.
    + by apply includes_spec.
Qed.

(** ** [[...new Set(xs)]] *)

Lemma elem_of_set_from (seen xs : list string) (x : string) :
  x ∈ JS.set_from seen xs ↔ x ∈ xs ∧ x ∉ seen.
Proof.
  revert seen. induction xs as [|y xs IH]; intros seen; simpl.
  - split; [by intros ?%elem_of_nil | by intros [?%elem_of_nil _]].
  - case_bool_decide as Hy.
    + rewrite IH, elem_of_cons. split; [naive_solver |].
      intros [[-> | Hx] Hn]; [done | by split].
    + rewrite !elem_of_cons, IH, elem_of_cons. split.
      * intros [-> | [Hx Hn]]; [by split; [left |] |].
        split; [by right | naive_solver].
      * intros [[-> | Hx] Hn]; [by left |].
        destruct (decide (x = y)) as [-> | Hne]; [by left | right].
        split; [done | naive_solver].
Qed.

Lemma NoDup_set_from (seen xs : list string) : NoDup (JS.set_from seen xs).
Proof.
  revert seen. induction xs as [|y xs IH]; intros seen; simpl.
  - constructor.
  - case_bool_decide; [apply IH |].
    constructor; [| apply IH].
    rewrite elem_of_set_from, elem_of_cons. naive_solver.
Qed.

Lemma set_from_ext (seen seen' xs : list string) :
  (∀ x, x ∈ seen ↔ x ∈ seen') → JS.set_from seen xs = JS.set_from seen' xs.
Proof.
  revert seen seen'. induction xs as [|y xs IH]; intros seen seen' Hext; simpl.
  - done.
  - rewrite (bool_decide_ext (y ∈ seen) (y ∈ seen')) by apply Hext.
    case_bool_decide.
    + by apply IH.
    + f_equal. apply IH. intros x. rewrite !elem_of_cons, Hext. done.
Qed.

Lemma set_from_app (seen xs ys : list string) :
  JS.set_from seen (xs ++ ys)
  = JS.set_from seen xs ++ JS.set_from (xs ++ seen) ys.
Proof.
  revert seen. induction xs as [|x xs IH]; intros seen; simpl.
  - done.
  - case_bool_decide as Hx.
    + rewrite IH. f_equal. apply set_from_ext. intros z.
      rewrite !elem_of_app, elem_of_cons, elem_of_app. naive_solver.
    + rewrite IH. simpl. do 2 f_equal. apply set_from_ext. intros z.
      rewrite !elem_of_app, !elem_of_cons, elem_of_app. naive_solver.
Qed.

Lemma set_from_seen (seen ys : list string) :
  (∀ y, y ∈ ys → y ∈ seen) → JS.set_from seen ys = [].
Proof.
  induction ys as [|y ys IH]; intros Hall; simpl; [done |].
  rewrite bool_decide_eq_true_2 by (apply Hall; left).
  apply IH. intros z Hz. apply Hall. by right.
Qed.

Lemma set_from_NoDup (seen l : list string) :
  NoDup l → (∀ x, x ∈ l → x ∉ seen) → JS.set_from seen l = l.
Proof.
  intros Hnd. revert seen. induction Hnd as [|x l Hx Hnd IH]; intros seen Hfresh.
  - done.
  - simpl. rewrite bool_decide_eq_false_2 by (apply Hfresh; left).
    f_equal. apply IH. intros z Hz. rewrite elem_of_cons.
    intros [-> | Hs]; [done |]. apply (Hfresh z); [by right | done].
Qed.

Lemma elem_of_set_spread (xs : list string) (x : string) :
  x ∈ JS.set_spread xs ↔ x ∈ xs.
Proof.
  unfold JS.set_spread. rewrite elem_of_set_from.
  split; [by intros [? _] | intros ?; split; [done | apply not_elem_of_nil]].
Qed.

(** Adding elements a set already holds leaves its spread unchanged. *)
Lemma set_spread_absorb (xs ys : list string) :
  (∀ y, y ∈ ys → y ∈ xs) →
  JS.set_spread (JS.set_spread xs ++ ys) = JS.set_spread xs.
Proof.
  intros Hsub. unfold JS.set_spread at 1. rewrite set_from_app.
  rewrite set_from_NoDup.
  - rewrite set_from_seen; [by rewrite app_nil_r |].
    intros y Hy. rewrite app_nil_r. apply elem_of_set_spread. by apply Hsub.
  - apply NoDup_set_from.
  - intros ? _. apply not_elem_of_nil.
Qed.

(** ** Contact classification at creation *)

Lemma or_empty_default (x : option string) : JS.or_empty x = default "" x.
Proof. by destruct x as [[|c s]|]. Qed.

Lemma auto_tags_spec (t x : string) :
  x ∈ Contact.auto_tags t ↔
    (x = "viewing-request" ∧ (occurs_in "viewing" t ∨ occurs_in "visit" t))
    ∨ (x = "pricing-inquiry" ∧ (occurs_in "price" t ∨ occurs_in "cost" t))
    ∨ (x = "financing" ∧ (occurs_in "mortgage" t ∨ occurs_in "financing" t))
    ∨ (x = "investment" ∧ occurs_in "investment" t).
Proof.
  rewrite <- !includes_spec, <- !orb_true_iff. unfold Contact.auto_tags.
  destruct (JS.includes "viewing" t || JS.includes "visit" t);
    destruct (JS.includes "price" t || JS.includes "cost" t);
    destruct (JS.includes "mortgage" t || JS.includes "financing" t);
    destruct (JS.includes "investment" t); simpl;
    rewrite ?elem_of_cons, ?elem_of_nil; naive_solver.
Qed.

Lemma classify_text (d : Contact.Doc) :
  Contact.messageText (Contact.classify d) = Contact.messageText d.
Proof.
  unfold Contact.classify, Contact.messageText.
  destruct (Contact.some_included _ _); [done |].
  by destruct (Contact.some_included _ _).
Qed.

Lemma classify_tags (d : Contact.Doc) :
  Contact.tags (Contact.classify d)
  = JS.set_spread (Contact.tags d ++ Contact.auto_tags (Contact.messageText d)).
Proof.
  unfold Contact.classify.
  destruct (Contact.some_included _ _); [done |].
  by destruct (Contact.some_included _ _).
Qed.

(** Running the body of the hook a second time changes nothing. *)
Lemma classify_idempotent (d : Contact.Doc) :
  Contact.classify (Contact.classify d) = Contact.classify d.
Proof.
  assert (Habs : ∀ ts, JS.set_spread
            (JS.set_spread (ts ++ Contact.auto_tags (Contact.messageText d))
             ++ Contact.auto_tags (Contact.messageText d))
          = JS.set_spread (ts ++ Contact.auto_tags (Contact.messageText d))).
  { intros ts. apply set_spread_absorb. intros y Hy.
    apply elem_of_app. by right. }
  pose proof (classify_tags d) as Htags.
  unfold Contact.classify at 1. rewrite classify_text.
  assert (Hcl : ∀ p, Contact.tags (Contact.set_priority p (Contact.classify d))
                     = Contact.tags (Contact.classify d)) by done.
  destruct (Contact.some_included Contact.urgentKeywords _) eqn:Hu;
    [| destruct (Contact.some_included Contact.highKeywords _) eqn:Hh];
    rewrite ?Hcl, Htags, Habs; unfold Contact.classify; rewrite Hu, ?Hh; done.
Qed.

Lemma create_classifies (data : Contact.Data) (d : Contact.Doc) :
  Contact.create data = Some d →
  Contact.validate (Contact.new_doc data) = true
  ∧ d = Contact.classify (Contact.new_doc data).
Proof.
  unfold Contact.create, Contact.save, Contact.pre_save.
  destruct (Contact.validate _); [| done].
  intros [= <-]. done.
Qed.

Lemma classify_message (d : Contact.Doc) :
  Contact.message (Contact.classify d) = Contact.message d
  ∧ Contact.subject (Contact.classify d) = Contact.subject d.
Proof.
  unfold Contact.classify.
  destruct (Contact.some_included _ _); [done |].
  by destruct (Contact.some_included _ _).
Qed.

Lemma classify_priority (d : Contact.Doc) :
  Contact.priority (Contact.classify d)
  = if Contact.some_included Contact.urgentKeywords (Contact.messageText d)
    then "urgent"
    else if Contact.some_included Contact.highKeywords (Contact.messageText d)
         then "high"
         else Contact.priority d.
Proof.
  unfold Contact.classify.
  destruct (Contact.some_included _ _); [done |].
  by destruct (Contact.some_included _ _).
Qed.

(** C4, as amended: for every newly created contact, with [t] the
    lower-cased text made of the message, one space, and the subject (the
    empty string when absent): if [t] contains one of "urgent", "asap",
    "immediately", "emergency" the persisted priority is "urgent", whatever
    the caller supplied; otherwise, if it contains one of "important",
    "priority", "soon", "quickly" the priority is "high"; otherwise it is
    the caller-supplied value, or "medium" by default. *)
Theorem priority_on_creation (data : Contact.Data) (d : Contact.Doc) :
  Contact.create data = Some d →
  let t := JS.toLowerCase
             (Contact.message d +:+ " " +:+ default "" (Contact.subject d)) in
  let urgent :=
    ∃ kw, kw ∈ ["urgent"; "asap"; "immediately"; "emergency"] ∧ occurs_in kw t in
  let high :=
    ∃ kw, kw ∈ ["important"; "priority"; "soon"; "quickly"] ∧ occurs_in kw t in
  (urgent → Contact.priority d = "urgent")
  ∧ (¬ urgent → high → Contact.priority d = "high")
  ∧ (¬ urgent → ¬ high →
     Contact.priority d = default "medium" (Contact.d_priority data)).
Proof.
  intros [_ ->]%create_classifies.
  destruct (classify_message (Contact.new_doc data)) as [-> ->].
  set (d0 := Contact.new_doc data). cbv zeta.
  rewrite <- or_empty_default.
  change (JS.toLowerCase _) with (Contact.messageText d0).
  change ["urgent"; "asap"; "immediately"; "emergency"] with Contact.urgentKeywords.
  change ["important"; "priority"; "soon"; "quickly"] with Contact.highKeywords.
  rewrite <- !some_included_spec, classify_priority.
  destruct (Contact.some_included Contact.urgentKeywords _).
  { split; [done |]. split; intros Hn; by destruct Hn. }
  destruct (Contact.some_included Contact.highKeywords _).
  { split; [done |]. split; [done |]. intros _ Hn. by destruct Hn. }
  split; [done |]. split; [done |]. intros _ _. reflexivity.
Qed.

Lemma priority_on_creation_witness :
  ∃ d, Contact.create sample_contact = Some d ∧ Contact.priority d = "urgent".
Proof.
  eexists. split; [reflexivity |].
  apply (priority_on_creation sample_contact); [reflexivity |].
  exists "urgent". split; [by left |].
  apply includes_spec. reflexivity.
Defined.

(** C4 as stated fails: the text obtained by putting the subject right
    after the message contains "asap", and the contact is stored with
    priority "medium": the hook looks at the message, a space, and the
    subject. *)
Lemma priority_concatenation_counterexample :
  ∃ d, Contact.create split_keyword_contact = Some d
    ∧ occurs_in "asap"
        (JS.toLowerCase (Contact.message d +:+ default "" (Contact.subject d)))
    ∧ Contact.priority d = "medium"
    ∧ Contact.priority d ≠ "urgent".
Proof.
  eexists. split; [reflexivity |]. split; [| split; [reflexivity | done]].
  apply includes_spec. reflexivity.
Qed.

(** The submission "This is urgent, I need info about financing asap" is
    stored as urgent, tagged "financing" and nothing else. *)
Example urgent_financing_scenario :
  ∃ d, ContactController.submitContact 0 scenario_body None ∅
       = (Success 201 (0%nat, d)
            "Thank you for your inquiry. We will get back to you within 24 hours.",
          {[ 0%nat := d ]})
    ∧ Contact.priority d = "urgent"
    ∧ Contact.tags d = ["financing"].
Proof. eexists. repeat split; reflexivity. Qed.



(** ** Contacts after creation *)

Section ContactLifecycle.
Import Contact ContactController.

Lemma apply_update_fields (u : UpdateData) (d : Doc) :
  tags (apply_update u d) = tags d
  ∧ message (apply_update u d) = message d
  ∧ subject (apply_update u d) = subject d
  ∧ priority (apply_update u d) = default (priority d) (ud_priority u)
  ∧ responseDate (apply_update u d)
    = from_option Some (responseDate d) (ud_responseDate u)
  ∧ status (apply_update u d) = default (status d) (ud_status u).
Proof.
  destruct u as [[s|] [n|] [a|] [p|] [r|]]; done.
Qed.

Lemma markAsContacted_fields_spec (now : Time) (notes : option string) (d : Doc) :
  tags (markAsContacted_fields now notes d) = tags d
  ∧ message (markAsContacted_fields now notes d) = message d
  ∧ subject (markAsContacted_fields now notes d) = subject d
  ∧ priority (markAsContacted_fields now notes d) = priority d
  ∧ responseDate (markAsContacted_fields now notes d) = Some now
  ∧ status (markAsContacted_fields now notes d) = "contacted".
Proof.
  unfold markAsContacted_fields.
  destruct (JS.truthy_opt notes); [| done]. by destruct notes.
Qed.

Lemma attach_Some (x : option string) (p : string) :
  attach x = Some p → x = Some p ∧ p ≠ "".
Proof.
  unfold attach. destruct x as [[|c s]|]; simpl; intros [= <-]; done.
Qed.

(** What [updateContact] stores, when the contact exists and the update
    passes the validators. *)
Lemma updateContact_stored (now : Time) (id : nat) (body : UpdateBody)
    (db : Collection) (c : Doc) :
  db !! id = Some c →
  snd (updateContact now id body db)
  = if update_valid (build_updateData now body c)
    then <[id := apply_update (build_updateData now body c) c]> db
    else db.
Proof.
  intros Hc. unfold updateContact, findByIdAndUpdate. rewrite Hc.
  by destruct (update_valid _).
Qed.

Lemma markAsContacted_stored (now : Time) (id : nat) (notes : option string)
    (db : Collection) (c : Doc) :
  db !! id = Some c →
  snd (markAsContacted now id notes db)
  = if validate (markAsContacted_fields now notes c)
    then <[id := markAsContacted_fields now notes c]> db
    else db.
Proof.
  intros Hc. unfold markAsContacted, save, pre_save. rewrite Hc.
  by destruct (validate _).
Qed.

(** One staff operation on a stored contact. *)
Lemma run_op_contact (op : StaffOp) (db : Collection) (id : nat) (c : Doc) :
  db !! id = Some c →
  ∃ c', run_op op db !! id = Some c'
    ∧ tags c' = tags c
    ∧ message c' = message c
    ∧ subject c' = subject c
    ∧ (priority c' = priority c
       ∨ ∃ now body p, op = OpUpdate now id body
           ∧ ub_priority body = Some p ∧ p ≠ "" ∧ priority c' = p).
Proof.
  intros Hc. destruct op as [now id' body | now id' notes]; simpl.
  - destruct (db !! id') as [c0|] eqn:Hc0.
    + rewrite (updateContact_stored _ _ _ _ _ Hc0).
      destruct (update_valid _); [| unchanged c].
      destruct (decide (id' = id)) as [-> | Hne].
      * rewrite lookup_insert_eq. eexists. split; [done |].
        assert (c0 = c) as -> by congruence.
        destruct (apply_update_fields (build_updateData now body c) c)
          as (-> & -> & -> & -> & _).
        repeat split; try done. simpl.
        destruct (attach (ub_priority body)) as [p|] eqn:Hp; [| by left].
        apply attach_Some in Hp as [Hp Hne]. right. by exists now, body, p.
      * rewrite lookup_insert_ne by done. unchanged c.
    + unfold updateContact. rewrite Hc0. unchanged c.
  - destruct (db !! id') as [c0|] eqn:Hc0.
    + rewrite (markAsContacted_stored _ _ _ _ _ Hc0).
      destruct (validate _); [| unchanged c].
      destruct (decide (id' = id)) as [-> | Hne].
      * rewrite lookup_insert_eq. eexists. split; [done |].
        assert (c0 = c) as -> by congruence.
        destruct (markAsContacted_fields_spec now notes c)
          as (-> & -> & -> & -> & _).
        repeat split; auto.
      * rewrite lookup_insert_ne by done. unchanged c.
    + unfold markAsContacted. rewrite Hc0. unchanged c.
Qed.

Lemma run_ops_snoc (ops : list StaffOp) (op : StaffOp) (db : Collection) :
  run_ops (ops ++ [op]) db = run_op op (run_ops ops db).
Proof. unfold run_ops. by rewrite foldl_app. Qed.

Lemma run_ops_app (ops1 ops2 : list StaffOp) (db : Collection) :
  run_ops (ops1 ++ ops2) db = run_ops ops2 (run_ops ops1 db).
Proof. unfold run_ops. by rewrite foldl_app. Qed.

End ContactLifecycle.

(** Staff operations keep the tags, and the priority unless they set it. *)
Lemma staff_ops_keep_classification
    (ops : list ContactController.StaffOp)
    (db : gmap nat Contact.Doc) (id : nat) (c : Contact.Doc) :
  db !! id = Some c →
  ∃ c', ContactController.run_ops ops db !! id = Some c'
    ∧ Contact.tags c' = Contact.tags c
    ∧ (Contact.priority c' = Contact.priority c
       ∨ ∃ now body p, ContactController.OpUpdate now id body ∈ ops
           ∧ ContactController.ub_priority body = Some p
           ∧ Contact.priority c' = p).
Proof.
  intros Hc. induction ops as [|op ops IH] using rev_ind.
  - exists c. repeat split; auto.
  - destruct IH as (c1 & Hc1 & Ht1 & Hp1).
    rewrite run_ops_snoc.
    destruct (run_op_contact op _ _ _ Hc1) as (c2 & Hc2 & Ht2 & _ & _ & Hp2).
    exists c2. split; [done |]. split; [congruence |].
    destruct Hp2 as [Hp2 | (now & body & p & -> & Hb & _ & Hp2)].
    + destruct Hp1 as [Hp1 | (now & body & p & Hin & Hb & Hp1)].
      * left. congruence.
      * right. exists now, body, p. rewrite elem_of_app. split; [by left |].
        split; [done | congruence].
    + right. exists now, body, p. rewrite elem_of_app, list_elem_of_singleton.
      auto.
Qed.

(** C6: the keyword classification runs when a contact is created and at
    no later time. For every stored contact and every sequence of staff
    operations (updates of status, notes, assignment, priority; marking as
    contacted, which saves the document again), the contact is still
    stored, its tags are those it had, and its priority is the one it had
    unless one of the updates set a priority explicitly, in which case it
    is that value; saving a document loaded from the collection leaves it
    as it is. The hook acts on the new document of a creation, and what it
    stores is a fixed point of the classification. *)
Theorem classification_only_at_creation
    (ops : list ContactController.StaffOp)
    (db : gmap nat Contact.Doc) (id : nat) (c : Contact.Doc) :
  db !! id = Some c →
  (∃ c', ContactController.run_ops ops db !! id = Some c'
     ∧ Contact.tags c' = Contact.tags c
     ∧ (Contact.priority c' = Contact.priority c
        ∨ ∃ now body p, ContactController.OpUpdate now id body ∈ ops
            ∧ ContactController.ub_priority body = Some p
            ∧ Contact.priority c' = p)
     ∧ Contact.pre_save false c' = c')
  ∧ (∀ data d, Contact.create data = Some d →
       d = Contact.pre_save true (Contact.new_doc data)
       ∧ Contact.pre_save true d = d).
Proof.
  intros Hc. split.
  - destruct (staff_ops_keep_classification ops db id c Hc)
      as (c' & Hc' & Htags & Hpriority).
    exists c'. repeat split; assumption.
  - intros data d [_ ->]%create_classifies. split; [done |].
    apply classify_idempotent.
Qed.

Lemma classification_only_at_creation_witness :
  one_contact !! 0%nat = Some stored_contact
  ∧ ∃ c', ContactController.run_ops staff_session one_contact !! 0%nat = Some c'
      ∧ Contact.tags c' = ["viewing-request"].
Proof.
  split; [reflexivity |].
  destruct (classification_only_at_creation staff_session one_contact 0%nat
              stored_contact eq_refl) as [(c' & Hc' & Htags & _) _].
  exists c'. split; [exact Hc' | exact Htags].
Defined.

(** ** The response timestamp *)

(** C9 fails: a contact is set to "contacted" at time 1, to "resolved" at
    time 2 and to "contacted" again at time 3; the stamp 1 is replaced
    by 3. All three steps go through the staff update operation. *)
Lemma responseDate_overwritten : ¬ responseDate_written_once.
Proof.
  intros Hclaim.
  specialize (Hclaim 0%nat urgent_body None
                [to_status 1 "contacted"]
                [to_status 2 "resolved"; to_status 3 "contacted"]
                0%nat
                (Contact.set_responseDate 1%nat
                   (Contact.set_status "contacted" stored_contact))
                (Contact.set_responseDate 3%nat
                   (Contact.set_status "contacted" stored_contact))
                1%nat eq_refl eq_refl eq_refl).
  discriminate Hclaim.
Qed.

(** The same with the dedicated operation: marking a contact as contacted
    a second time replaces the stamp. *)
Example markAsContacted_twice :
  ∃ c1 c2,
    ContactController.run_ops [ContactController.OpMark 1 0%nat None]
      one_contact !! 0%nat = Some c1
    ∧ Contact.responseDate c1 = Some 1%nat
    ∧ ContactController.run_ops
        [ContactController.OpMark 1 0%nat None;
         ContactController.OpMark 2 0%nat None] one_contact !! 0%nat = Some c2
    ∧ Contact.responseDate c2 = Some 2%nat.
Proof. do 2 eexists. repeat split; reflexivity. Qed.

(** C9, as amended: on a stored contact, an accepted staff update stamps
    [responseDate] with the current time exactly when it sets the status to
    "contacted" while the stored status is not "contacted", and leaves
    [responseDate] as it was otherwise; a rejected update changes nothing.
    The stamp is thus written at the first transition into "contacted", and
    again at every later re-entry. Marking as contacted a contact whose
    status is not "contacted" sets the status and stamps [responseDate]. *)
Theorem responseDate_on_transition
    (now : nat) (id : nat) (body : ContactController.UpdateBody)
    (notes : option string) (db : gmap nat Contact.Doc) (c : Contact.Doc) :
  db !! id = Some c →
  (∃ c', snd (ContactController.updateContact now id body db) !! id = Some c'
     ∧ Contact.responseDate c'
       = if ContactController.update_valid
              (ContactController.build_updateData now body c)
            && bool_decide (ContactController.ub_status body = Some "contacted")
            && negb (bool_decide (Contact.status c = "contacted"))
         then Some now
         else Contact.responseDate c)
  ∧ (Contact.status c ≠ "contacted" →
     Contact.validate (ContactController.markAsContacted_fields now notes c) = true →
     ∃ c', snd (ContactController.markAsContacted now id notes db) !! id = Some c'
       ∧ Contact.status c' = "contacted"
       ∧ Contact.responseDate c' = Some now).
Proof.
  intros Hc. split.
  - rewrite (updateContact_stored _ _ _ _ _ Hc).
    destruct (ContactController.update_valid _); simpl; [| by exists c].
    rewrite lookup_insert_eq. eexists. split; [done |].
    destruct (apply_update_fields
                (ContactController.build_updateData now body c) c)
      as (_ & _ & _ & _ & -> & _).
    simpl. by destruct (_ && _).
  - intros _ Hvalid. rewrite (markAsContacted_stored _ _ _ _ _ Hc), Hvalid.
    rewrite lookup_insert_eq. eexists. split; [done |].
    destruct (markAsContacted_fields_spec now notes c)
      as (_ & _ & _ & _ & -> & ->).
    done.
Qed.

Lemma responseDate_on_transition_witness :
  one_contact !! 0%nat = Some stored_contact
  ∧ ∃ c', snd (ContactController.updateContact 7 0%nat
                 (ContactController.mkUpdateBody (Some "contacted") None None None)
                 one_contact) !! 0%nat = Some c'
      ∧ Contact.responseDate c' = Some 7%nat.
Proof.
  split; [reflexivity |].
  apply (responseDate_on_transition 7 0%nat
           (ContactController.mkUpdateBody (Some "contacted") None None None)
           None one_contact stored_contact).
  reflexivity.
Defined.

(** ** The filter of the property list *)

Section FilterBuilder.
Import PropertyController.
Context {num : Type} `{JSNumber num}.

Lemma isIn_truthy (values : list string) (s : string) :
  "" ∉ values → Validator.isIn values s = true → JS.truthy s = true.
Proof.
  intros Hne Hin. apply bool_decide_eq_true in Hin.
  destruct s; [done | reflexivity].
Qed.

Lemma isNumeric_truthy (s : string) :
  Validator.isNumeric s = true → JS.truthy s = true.
Proof. by destruct s. Qed.

Lemma isLength_truthy (max : nat) (s : string) :
  Validator.isLength 1 max s = true → JS.truthy s = true.
Proof. by destruct s. Qed.

Lemma attach_truthy (x : option string) :
  from_option JS.truthy true x = true → attach x = x.
Proof. unfold attach. destruct x as [s|]; simpl; [by intros -> | done]. Qed.

Lemma truthy_opt_supplied (x : option string) :
  from_option JS.truthy true x = true → JS.truthy_opt x = bool_decide (is_Some x).
Proof. destruct x as [s|]; simpl; [by intros -> | done]. Qed.

Lemma check_truthy (p : string → bool) (x : option string) :
  (∀ s, p s = true → JS.truthy s = true) →
  check p x = true → from_option JS.truthy true x = true.
Proof. intros Hp. destruct x as [s|]; simpl; [apply Hp | done]. Qed.

(** On a query whose supplied [type], [category], [minPrice], [maxPrice]
    and [location] are not empty, the code builds the reference filter. *)
Lemma build_query_nonempty (q : Query) :
  from_option JS.truthy true (q_type q) = true →
  from_option JS.truthy true (q_category q) = true →
  from_option JS.truthy true (q_minPrice q) = true →
  from_option JS.truthy true (q_maxPrice q) = true →
  from_option JS.truthy true (q_location q) = true →
  build_query q = reference_filter q.
Proof.
  intros Ht Hc Hlo Hhi Hloc. unfold build_query, reference_filter.
  rewrite (attach_truthy _ Ht), (attach_truthy _ Hc),
    (attach_truthy _ Hlo), (attach_truthy _ Hhi).
  rewrite (truthy_opt_supplied _ Hlo), (truthy_opt_supplied _ Hhi),
    (truthy_opt_supplied _ Hloc).
  f_equal.
  - destruct (q_featured q) as [s|]; simpl; [| done].
    f_equal. destruct (String.eqb_spec s "true") as [-> | Hne]; [done |].
    by apply bool_decide_eq_false_2.
  - by destruct (q_minPrice q), (q_maxPrice q).
  - by destruct (q_location q).
Qed.

End FilterBuilder.

(** C1: on every request the list route hands to the controller (the
    query passed [validatePropertyQuery], which leaves every parameter as
    supplied but for trimming [location]), the filter the controller builds
    is the reference filter: the status condition is the supplied status
    or "Available"; type, category and featured are conditions exactly
    when supplied; a price condition is there exactly when a bound is
    supplied and holds the supplied bounds as [$gte] and [$lte]; featured is
    [true] for the string "true" and [false] for any other string. *)
Theorem build_query_is_reference {num : Type} `{JSNumber num}
    (q q' : PropertyController.Query) :
  PropertyController.validatePropertyQuery (num := num) q = Some q' →
  PropertyController.build_query (num := num) q'
  = PropertyController.reference_filter q'
  ∧ q' = PropertyController.mkQuery
           (PropertyController.q_type q) (PropertyController.q_category q)
           (JS.trim <$> PropertyController.q_location q)
           (PropertyController.q_minPrice q) (PropertyController.q_maxPrice q)
           (PropertyController.q_page q) (PropertyController.q_limit q)
           (PropertyController.q_sort q) (PropertyController.q_featured q)
           (PropertyController.q_status q).
Proof.
  unfold PropertyController.validatePropertyQuery.
  destruct (_ && _) eqn:Hchecks; [| done]. intros [= <-]. split; [| done].
  repeat (apply andb_prop in Hchecks as [Hchecks ?]).
  apply build_query_nonempty; simpl.
  - eapply check_truthy; [| done]. intros s.
    apply isIn_truthy. by apply (bool_decide_unpack (_ ∉ _)).
  - eapply check_truthy; [| done]. intros s.
    apply isIn_truthy. by apply (bool_decide_unpack (_ ∉ _)).
  - eapply check_truthy; [| done]. intros s [? _]%andb_prop.
    by apply isNumeric_truthy.
  - eapply check_truthy; [| done]. intros s [? _]%andb_prop.
    by apply isNumeric_truthy.
  - eapply check_truthy; [| done]. intros s. apply isLength_truthy.
Qed.

Lemma build_query_is_reference_witness :
  ∃ q',
    PropertyController.validatePropertyQuery (num := N) villa_query = Some q'
    ∧ PropertyController.build_query (num := N) q'
      = PropertyController.mkFilter "Available" None (Some "Residential")
          (Some false)
          (Some (PropertyController.mkPriceCond (Some 1000000%N) (Some 5000000%N)))
          (Some (PropertyController.location_clause "Beverly Hills")).
Proof.
  eexists. split; [reflexivity |].
  etransitivity;
    [apply (build_query_is_reference (num := N) villa_query); reflexivity |].
  reflexivity.
Defined.

(** A parameter supplied as the empty string is rejected by the
    validation chain; the controller alone would drop it from the filter. *)
Example empty_type_rejected :
  PropertyController.validatePropertyQuery (num := N) empty_type_query = None
  ∧ PropertyController.f_type
      (PropertyController.build_query (num := N) empty_type_query) = None
  ∧ PropertyController.f_type
      (PropertyController.reference_filter (num := N) empty_type_query) = Some "".
Proof. repeat split; reflexivity. Qed.

(** The price condition is an inclusive range. *)
Lemma price_matches_inclusive {num : Type} `{JSNumber num}
    (lo hi : option num) (p : num) :
  PropertyController.price_matches (PropertyController.mkPriceCond lo hi) p = true
  ↔ (∀ l, lo = Some l → num_le l p = true) ∧ (∀ h, hi = Some h → num_le p h = true).
Proof.
  unfold PropertyController.price_matches. simpl. rewrite andb_true_iff.
  destruct lo as [l|], hi as [h|]; simpl; split.
  all: try (intros [Hl Hh]; split; intros ? [= <-]; done).
  all: try (intros [Hl Hh]; split; auto).
  all: try (intros _; split; intros ? [=]).
Qed.

(** The residential villa at 4.5M is the one listing between 1M and 5M. *)
Example villa_scenario :
  PropertyController.getProperties (fun _ docs => docs) range_query
    [beverly_villa; downtown_office]
  = Some (Success 200
            ([beverly_villa],
             PropertyController.mkPagination 1 1 1 10 false false)
            "Properties retrieved successfully").
Proof. reflexivity. Qed.

(** ** The location clause *)

Lemma compile_plain (s : string) :
  plain s = true → Regex.compile s = Some (literals s).
Proof.
  induction s as [|c s IH]; simpl; [done |].
  intros [[Hm Hd]%andb_prop Hs]%andb_prop.
  apply negb_true_iff in Hm, Hd. rewrite Hm, (IH Hs), Hd. done.
Qed.

Lemma match_here_literals (s subject : string) :
  Regex.match_here true (literals s) subject
  = JS.startsWith (JS.toLowerCase s) (JS.toLowerCase subject).
Proof.
  revert subject. induction s as [|c s IH]; intros [|x subject]; simpl; try done.
  rewrite IH. by destruct (Ascii.eqb _ _).
Qed.

Lemma search_literals (s subject : string) :
  Regex.search true (literals s) subject = contains_ci s subject.
Proof.
  unfold contains_ci. induction subject as [|x subject IH].
  - simpl. by rewrite match_here_literals.
  - cbn [Regex.search JS.toLowerCase JS.includes].
    by rewrite IH, match_here_literals.
Qed.

(** For a pattern without special characters the clause is the
    contains-match. *)
Lemma location_clause_plain {num : Type} `{JSNumber num}
    (s : string) (d : Property.Doc num) :
  plain s = true →
  PropertyController.or_matches (PropertyController.location_clause s) d
  = Some (location_contains s d).
Proof.
  intros Hs. unfold PropertyController.location_clause, location_contains.
  simpl. unfold PropertyController.regex_cond_matches, Regex.test. simpl.
  rewrite (compile_plain s Hs), !search_literals.
  by rewrite orb_false_r, orb_assoc.
Qed.

Lemma contains_ci_empty (field : string) : contains_ci "" field = true.
Proof. unfold contains_ci. simpl. by destruct (JS.toLowerCase field). Qed.

(** On strings without regular-expression metacharacter the clause of the
    filter is the contains-match: it matches [d] if and only if [s] occurs,
    letter case ignored, as a literal substring of the location, the name
    or the description of [d]. (When no clause is attached, which happens
    for the empty string, every document passes.) *)
Lemma location_clause_contains {num : Type} `{JSNumber num}
    (q : PropertyController.Query) (s : string) (d : Property.Doc num) :
  PropertyController.q_location q = Some s →
  plain s = true →
  from_option (fun clause => PropertyController.or_matches clause d) (Some true)
    (PropertyController.f_or (PropertyController.build_query (num := num) q))
  = Some (location_contains s d).
Proof.
  intros Hq Hplain. unfold PropertyController.build_query. simpl. rewrite Hq.
  destruct s as [|c s].
  - simpl. unfold location_contains. by rewrite !contains_ci_empty.
  - cbn [JS.truthy_opt JS.truthy fmap option_fmap option_map from_option].
    by apply location_clause_plain.
Qed.

Example beverly_hills_contains :
  PropertyController.q_location villa_location_query = Some "beverly hills"
  ∧ plain "beverly hills" = true
  ∧ from_option
      (fun clause => PropertyController.or_matches clause beverly_villa)
      (Some true)
      (PropertyController.f_or
         (PropertyController.build_query (num := N) villa_location_query))
    = Some true.
Proof.
  split; [reflexivity |]. split; [reflexivity |].
  etransitivity;
    [apply (location_clause_contains villa_location_query "beverly hills");
     reflexivity |].
  reflexivity.
Qed.

(** C2 at the location string "1.5": the request passes
    validation, the filter carries the string as the pattern of its three
    conditions, and the clause matches a listing at "125 Main St" in which
    "1.5" occurs nowhere: the dot of the pattern stands for any
    character. *)
Theorem location_pattern_not_literal :
  PropertyController.validatePropertyQuery (num := N) dot_query = Some dot_query
  ∧ PropertyController.f_or (PropertyController.build_query (num := N) dot_query)
    = Some (PropertyController.location_clause "1.5")
  ∧ PropertyController.or_matches
      (PropertyController.location_clause "1.5") main_street_loft = Some true
  ∧ location_contains "1.5" main_street_loft = false
  ∧ ¬ (PropertyController.or_matches
         (PropertyController.location_clause "1.5") main_street_loft = Some true
       ↔ location_contains "1.5" main_street_loft = true).
Proof.
  repeat split; try reflexivity.
  intros [Hfwd _]. discriminate (Hfwd eq_refl).
Qed.

(** ** Pagination *)

Section Pages.
Import PropertyController.

(** [ceil_div a b] is the ceiling of the quotient: the least [n] with
    [a <= b * n]. *)
Lemma ceil_div_spec (a b : Z) :
  0 < b → b * (ceil_div a b - 1) < a ≤ b * ceil_div a b.
Proof.
  intros Hb. unfold ceil_div.
  pose proof (Z.div_mod (- a) b ltac:(lia)) as Hdiv.
  pose proof (Z.mod_pos_bound (- a) b Hb) as Hmod.
  nia.
Qed.

Lemma ceil_div_unique (a b n : Z) :
  0 < b → b * (n - 1) < a ≤ b * n → ceil_div a b = n.
Proof.
  intros Hb Hn. pose proof (ceil_div_spec a b Hb) as Hc. nia.
Qed.

Lemma ceil_div_zero (b : Z) : 0 < b → ceil_div 0 b = 0.
Proof. intros Hb. apply ceil_div_unique; lia. Qed.

Lemma paginate_items {A : Type} (pageNum limitNum : Z) (found : list A) (i : nat) :
  1 ≤ pageNum → 1 ≤ limitNum →
  (paginate pageNum limitNum found).1 !! i
  = if decide (Z.of_nat i < limitNum)
    then found !! (Z.to_nat ((pageNum - 1) * limitNum) + i)%nat
    else None.
Proof.
  intros Hp Hl. unfold paginate. simpl.
  case_decide as Hi.
  - rewrite lookup_take_lt by lia. by rewrite lookup_drop.
  - rewrite lookup_take_ge by lia. done.
Qed.

End Pages.

Section Numbers.
Import Validator.

Lemma to_double_exact (v : Z) : Z.abs v ≤ 2 ^ 53 → to_double v = Finite v.
Proof.
  intros Hv. unfold to_double.
  destruct (Z.leb_spec (Z.abs v) (2 ^ 53)); [done | lia].
Qed.

Lemma round_magnitude_lower (a : Z) : 2 ^ 53 < a → 2 ^ 53 ≤ round_magnitude a.
Proof.
  intros Ha. unfold round_magnitude.
  assert (0 < a) as Hpos by lia.
  pose proof (Z.log2_spec a Hpos) as [Hlow _].
  assert (53 ≤ Z.log2 a) as Hlog.
  { rewrite <- (Z.log2_pow2 53) by lia. apply Z.log2_le_mono. lia. }
  set (e := Z.log2 a - 52) in *.
  assert (2 ^ Z.log2 a = 2 ^ 52 * 2 ^ e) as Hsplit.
  { rewrite <- Z.pow_add_r by lia. f_equal. lia. }
  assert (2 ≤ 2 ^ e) as Hpow.
  { change 2 with (2 ^ 1) at 1. apply Z.pow_le_mono_r; lia. }
  assert (2 ^ 52 ≤ a / 2 ^ e) as Hq.
  { apply Z.div_le_lower_bound; lia. }
  set (q := a / 2 ^ e) in *. set (P := 2 ^ e) in *.
  assert (2 ^ 52 * 2 ≤ q * P) as Hprod.
  { apply Z.mul_le_mono_nonneg; lia. }
  destruct (_ || _); lia.
Qed.

(** Rounding keeps an integer on its side of the exact range. *)
Lemma to_double_range (v : Z) :
  match to_double v with
  | Finite w => (Z.abs v ≤ 2 ^ 53 ∧ w = v)
                ∨ (2 ^ 53 < v ∧ 2 ^ 53 ≤ w) ∨ (v < - 2 ^ 53 ∧ w ≤ - 2 ^ 53)
  | PosInfinity => 2 ^ 53 < v
  | NegInfinity => v < - 2 ^ 53
  end.
Proof.
  unfold to_double.
  destruct (Z.leb_spec (Z.abs v) (2 ^ 53)) as [Hsmall | Hlarge]; [by left |].
  pose proof (round_magnitude_lower (Z.abs v) Hlarge) as Hm.
  destruct (Z.ltb_spec (round_magnitude (Z.abs v)) (2 ^ 1024)).
  - right. destruct (Z.abs_spec v) as [[Hv Habs] | [Hv Habs]].
    + left. rewrite Z.sgn_pos by lia. lia.
    + right. rewrite Z.sgn_neg by lia. lia.
  - destruct (Z.ltb_spec 0 v); lia.
Qed.

(** The bounds [isInt] checks on the Number value hold of the integer the
    string denotes, for bounds inside the exact range. *)
Lemma isInt_bounds (min : Z) (max : option Z) (s : string) :
  isInt min max s = true →
  - 2 ^ 53 < min ≤ 2 ^ 53 → from_option (fun m => Z.abs m < 2 ^ 53) True max →
  int_shape s = true
  ∧ min ≤ int_value s ∧ from_option (fun m => int_value s ≤ m) True max.
Proof.
  unfold isInt. intros [[Hshape Hmin]%andb_prop Hmax]%andb_prop Hbmin Hbmax.
  split; [done |].
  pose proof (to_double_range (int_value s)) as Hrange.
  destruct (to_double (int_value s)) as [w| |]; simpl in Hmin; [| | done].
  - apply Z.leb_le in Hmin. split; [lia |].
    destruct max as [m|]; simpl in *; [| done].
    apply Z.leb_le in Hmax. lia.
  - split; [lia |]. destruct max as [m|]; simpl in *; done.
Qed.

(** On a string of the shape [isInt] accepts, [parseInt] is exact up to
    [2 ^ 53] in magnitude. *)
Lemma parseInt_exact (s : string) :
  int_shape s = true → Z.abs (int_value s) ≤ 2 ^ 53 →
  parseInt s = Some (int_value s).
Proof.
  unfold int_shape, all_digits, parseInt. intros Hshape Hv.
  destruct (skip_sign s) as [|c r] eqn:Hbody; [done |].
  simpl in Hshape.
  destruct (is_digit c) eqn:Hc; [| done].
  destruct r as [|x r']; simpl.
  - rewrite andb_false_r. by rewrite (to_double_exact _ Hv).
  - simpl in Hshape.
    destruct (is_digit x) eqn:Hx; [| done].
    assert (Ascii.eqb x "x" || Ascii.eqb x "X" = false) as ->.
    { destruct (Ascii.eqb_spec x "x") as [-> | _]; [done |].
      destruct (Ascii.eqb_spec x "X") as [-> | _]; done. }
    rewrite andb_false_r. by rewrite (to_double_exact _ Hv).
Qed.

End Numbers.

Section Served.
Import PropertyController.
Context {num : Type} `{JSNumber num}.
Variable sort_docs : string → list (Property.Doc num) → list (Property.Doc num).

Lemma find_total (f : Filter num) (docs : list (Property.Doc num)) :
  (∀ d, is_Some (matches f d)) → is_Some (find f docs).
Proof.
  intros Hm. induction docs as [|d docs [found Hfound]]; simpl; [done |].
  destruct (Hm d) as [b ->]. rewrite Hfound. done.
Qed.

Lemma matches_total (q : Query) (d : Property.Doc num) :
  from_option plain true (q_location q) = true →
  is_Some (matches (build_query q) d).
Proof.
  intros Hplain. unfold matches, build_query. simpl.
  destruct (q_location q) as [[|c s]|]; [done | | done].
  change (from_option plain true (Some (String c s))) with (plain (String c s))
    in Hplain.
  cbn [JS.truthy_opt JS.truthy fmap option_fmap option_map from_option].
  by rewrite (location_clause_plain _ d Hplain).
Qed.

(** A validated request whose page is at most [2 ^ 53] is served: the
    controller answers with the page of [paginate], at the page and the
    limit the request denotes, a page >= 1 and a limit in 1..100. *)
Lemma getProperties_serves (q q' : Query) (docs found : list (Property.Doc num)) :
  let page := from_option Validator.int_value 1 (q_page q) in
  let limit := from_option Validator.int_value 10 (q_limit q) in
  validatePropertyQuery (num := num) q = Some q' →
  find (build_query q') docs = Some found →
  page ≤ 2 ^ 53 →
  getProperties sort_docs q' docs
  = Some (Success 200
            (paginate page limit
               (sort_docs (default "-createdAt" (q_sort q)) found))
            "Properties retrieved successfully")
  ∧ 1 ≤ page ∧ 1 ≤ limit ≤ 100.
Proof.
  intros page limit. unfold validatePropertyQuery.
  destruct (_ && _) eqn:Hchecks; [| done]. intros [= <-] Hfound Hsafe.
  repeat (apply andb_prop in Hchecks as [Hchecks ?]).
  unfold getProperties. rewrite Hfound. simpl.
  assert (from_option Validator.parseInt (Some 1) (q_page q) = Some page
          ∧ 1 ≤ page) as [-> Hpage].
  { subst page. destruct (q_page q) as [s|]; simpl in *; [| done].
    destruct (isInt_bounds 1 None s) as (Hshape & Hmin & _); [done | lia | done |].
    split; [| done]. apply parseInt_exact; [done | lia]. }
  assert (from_option Validator.parseInt (Some 10) (q_limit q) = Some limit
          ∧ 1 ≤ limit ≤ 100) as [-> Hlimit].
  { subst limit. destruct (q_limit q) as [s|]; simpl in *; [| split; [done | lia]].
    destruct (isInt_bounds 1 (Some 100) s) as (Hshape & Hmin & Hmax);
      [done | lia | simpl; lia |].
    simpl in Hmax. split; [| lia]. apply parseInt_exact; [done | lia]. }
  done.
Qed.

End Served.

(** C3, as amended: for every request that passes the validation of the
    query, whose page (1 when absent) is at most [2 ^ 53] and whose filter
    the storage layer answers with the matching documents, the page is
    >= 1, the limit (10 when absent) is in 1..100, and the list operation
    answers with metadata that has currentPage = page, itemsPerPage =
    limit, totalItems = the number of matches, totalPages = the ceiling of
    totalItems / limit (0 when there is no match); the items of the page
    are the matches, as sorted, at offsets (page-1)*limit, ...,
    (page-1)*limit + limit - 1; hasNextPage is false exactly when
    currentPage >= totalPages; and hasPreviousPage is false exactly when
    currentPage = 1. (The storage layer's sort reorders the matches.) *)
Theorem pagination_metadata {num : Type} `{JSNumber num}
    (sort_docs : string → list (Property.Doc num) → list (Property.Doc num))
    (now : nat) (q q' : PropertyController.Query)
    (docs matching : list (Property.Doc num)) :
  let page := from_option Validator.int_value 1 (PropertyController.q_page q) in
  let limit := from_option Validator.int_value 10 (PropertyController.q_limit q) in
  let sorted :=
    sort_docs (default "-createdAt" (PropertyController.q_sort q)) matching in
  (∀ order found, sort_docs order found ≡ₚ found) →
  PropertyController.validatePropertyQuery (num := num) q = Some q' →
  PropertyController.find (PropertyController.build_query q') docs
  = Some matching →
  page ≤ 2 ^ 53 →
  1 ≤ page ∧ 1 ≤ limit ≤ 100
  ∧ ∃ items info,
      PropertyController.list_route sort_docs now q docs
      = Some (Success 200 (items, info) "Properties retrieved successfully")
      ∧ PropertyController.currentPage info = page
      ∧ PropertyController.itemsPerPage info = limit
      ∧ PropertyController.totalItems info = Z.of_nat (length matching)
      ∧ limit * (PropertyController.totalPages info - 1)
          < PropertyController.totalItems info
          ≤ limit * PropertyController.totalPages info
      ∧ (PropertyController.totalItems info = 0 →
         PropertyController.totalPages info = 0)
      ∧ (∀ i : nat,
           items !! i
           = if decide (Z.of_nat i < limit)
             then sorted !! (Z.to_nat ((page - 1) * limit) + i)%nat
             else None)
      ∧ (PropertyController.hasNextPage info = false
         ↔ PropertyController.totalPages info ≤ page)
      ∧ (PropertyController.hasPreviousPage info = false ↔ page = 1).
Proof.
  intros page limit sorted Hsort Hvalid Hfind Hsafe.
  destruct (getProperties_serves sort_docs q q' docs matching Hvalid Hfind Hsafe)
    as (Hserved & Hpage & Hlimit).
  fold page limit in Hserved, Hpage, Hlimit.
  split; [done |]. split; [done |].
  exists (PropertyController.paginate page limit sorted).1,
         (PropertyController.paginate page limit sorted).2.
  split.
  { unfold PropertyController.list_route. rewrite Hvalid, Hserved.
    reflexivity. }
  split; [done |]. split; [done |].
  assert (PropertyController.totalItems
            (PropertyController.paginate page limit sorted).2
          = Z.of_nat (length matching)) as Htotal.
  { simpl. f_equal. subst sorted. by rewrite Hsort. }
  split; [done |].
  split.
  { pose proof (ceil_div_spec (Z.of_nat (length sorted)) limit ltac:(lia)).
    done. }
  split.
  { simpl. intros ->. apply ceil_div_zero. lia. }
  split.
  { intros i. apply paginate_items; lia. }
  simpl. rewrite !Z.ltb_ge. lia.
Qed.

Lemma pagination_metadata_witness :
  ∃ items info,
    PropertyController.list_route stored_order 0 (page_query "2" "2")
      five_listings
    = Some (Success 200 (items, info) "Properties retrieved successfully")
    ∧ PropertyController.currentPage info = 2
    ∧ PropertyController.totalPages info = 3
    ∧ (PropertyController.hasPreviousPage info = false ↔ 2 = 1).
Proof.
  destruct (pagination_metadata stored_order 0 (page_query "2" "2")
              (page_query "2" "2") five_listings five_listings)
    as (_ & _ & items & info & Hroute & Hpage & _ & Htotal & Hceil & _ & _ & _
        & Hprevious);
    [intros order found; reflexivity | reflexivity | reflexivity
    | vm_compute; discriminate |].
  exists items, info. split; [exact Hroute |]. split; [exact Hpage |].
  split; [| exact Hprevious].
  change (Z.of_nat (length five_listings)) with 5 in Htotal.
  change (from_option Validator.int_value 10
            (PropertyController.q_limit (page_query "2" "2"))) with 2 in Hceil.
  lia.
Defined.

(** Page 2 of 5 matches, two per page: the third and fourth match, with a
    page before and a page after. *)
Example page_two_of_five :
  PropertyController.paginate 2 2 ["a"; "b"; "c"; "d"; "e"]
  = (["c"; "d"], PropertyController.mkPagination 2 3 5 2 true true).
Proof. reflexivity. Qed.

(** C3 as stated fails on a page past the last one: with 5 matches and
    limit 10 there is one page; the request for page 3 is answered with
    hasNextPage false although currentPage is not totalPages and totalItems
    is not 0. *)
Lemma hasNextPage_past_last_page :
  ∃ items info,
    PropertyController.list_route stored_order 0 (page_query "3" "10")
      five_listings
    = Some (Success 200 (items, info) "Properties retrieved successfully")
    ∧ ¬ (PropertyController.hasNextPage info = false
         ↔ (PropertyController.currentPage info
            = PropertyController.totalPages info
            ∨ PropertyController.totalItems info = 0)).
Proof.
  do 2 eexists. split; [reflexivity |].
  intros [Hfwd _]. destruct (Hfwd eq_refl) as [Heq | Heq]; discriminate Heq.
Qed.

(** Above [2 ^ 53] the page of the answer is the Number [parseInt] rounds
    to, not the page of the request: page 9007199254740993 passes the
    validation and is answered with currentPage 9007199254740992. *)
Example currentPage_rounded :
  ∃ answer,
    PropertyController.list_route stored_order 0
      (page_query "9007199254740993" "10") five_listings
    = Some (Success 200 answer "Properties retrieved successfully")
    ∧ PropertyController.currentPage answer.2 = 9007199254740992.
Proof.
  exists (PropertyController.paginate 9007199254740992 10 five_listings).
  split; [exact eq_refl | reflexivity].
Qed.

(** ** Derived price fields *)

(** C7: the formatted price of a service by pricing mode and amount.
    "free" gives "Free", whatever the amount; otherwise "consultation", or
    an amount of zero, gives "Contact for pricing"; "hourly" with a nonzero
    amount gives the US-dollar string followed by "/hour"; "percentage"
    with a nonzero amount gives the number followed by "%"; any other mode
    with a nonzero amount gives the US-dollar string. On whole amounts:
    hourly 200 gives "$200.00/hour" and percentage 6 gives "6%". *)
Theorem formattedPrice_by_mode {num : Type} `{JSNumber num}
    (d : Service.Doc num) :
  let mode := Service.priceType d in
  let amount := Service.price d in
  (mode = "free" → Service.formattedPrice d = "Free")
  ∧ (mode ≠ "free" → mode = "consultation" ∨ is_zero amount = true →
     Service.formattedPrice d = "Contact for pricing")
  ∧ (mode = "hourly" → is_zero amount = false →
     Service.formattedPrice d = format_USD amount +:+ "/hour")
  ∧ (mode = "percentage" → is_zero amount = false →
     Service.formattedPrice d = to_string amount +:+ "%")
  ∧ (mode ∉ ["free"; "consultation"; "hourly"; "percentage"] →
     is_zero amount = false →
     Service.formattedPrice d = format_USD amount)
  ∧ Service.formattedPrice
      (Service.mkDoc "Consulting" 200%N "hourly" true false 0 0) = "$200.00/hour"
  ∧ Service.formattedPrice
      (Service.mkDoc "Brokerage" 6%N "percentage" true false 0 0) = "6%"
  ∧ (∀ amount' : N,
       Service.formattedPrice
         (Service.mkDoc "Valuation" amount' "free" true false 0 0) = "Free").
Proof.
  intros mode amount. subst mode amount. unfold Service.formattedPrice.
  destruct d as [title price priceType active featured views lastUpdated]; simpl.
  repeat split; try reflexivity.
  - by intros ->.
  - intros Hfree Hcontact.
    destruct (String.eqb_spec priceType "free"); [done |].
    destruct (String.eqb_spec priceType "consultation"); [done |].
    destruct Hcontact as [? | ->]; done.
  - by intros -> ->.
  - by intros -> ->.
  - intros Hmode ->. rewrite !not_elem_of_cons in Hmode.
    destruct Hmode as (? & ? & ? & ? & _).
    destruct (String.eqb_spec priceType "free"); [done |].
    destruct (String.eqb_spec priceType "consultation"); [done |].
    destruct (String.eqb_spec priceType "hourly"); [done |].
    by destruct (String.eqb_spec priceType "percentage").
Qed.

Lemma formattedPrice_by_mode_witness :
  is_zero 1500%N = false
  ∧ Service.formattedPrice
      (Service.mkDoc "Staging" 1500%N "fixed" true false 0 0) = "$1,500.00".
Proof.
  split; [reflexivity |].
  etransitivity;
    [apply (formattedPrice_by_mode
              (Service.mkDoc "Staging" 1500%N "fixed" true false 0 0));
     [apply (bool_decide_unpack (_ ∉ _)); exact I | reflexivity] |].
  reflexivity.
Defined.

(** C8 at the update [{price: 800000, status: 'Pending'}] of a listing
    created at 750000: the update is accepted, the stored price is
    800000, and the stored [priceFormatted] is still the one of 750000. *)
Theorem priceFormatted_stale_after_update :
  ∃ before after,
    listed !! 0%nat = Some before
    ∧ Property.priceFormatted before = Some "$750,000.00"
    ∧ PropertyController.updateProperty 1 0%nat price_update listed
      = (Success 200 after "Property updated successfully",
         <[0%nat := after]> listed)
    ∧ Property.price after = 800000%N
    ∧ Property.priceFormatted after = Some "$750,000.00"
    ∧ Property.formattedPrice after = "$800,000.00".
Proof. do 2 eexists. repeat split; reflexivity. Qed.

(** A listing created at price 0 is stored without [priceFormatted]; and a
    caller can set [priceFormatted] directly through the update. *)
Example priceFormatted_zero_and_direct :
  (∃ free_listing,
     Property.save
       (PropertyController.new_doc
          (PropertyController.mkCreateBody "Gift" "A plot given away for free"
             "Residential" "Test City, CA" 0%N None "Buy" None None))
     = Some free_listing
     ∧ Property.priceFormatted free_listing = None
     ∧ Property.formattedPrice free_listing = "$0.00")
  ∧ (∃ after,
       snd (PropertyController.updateProperty 1 0%nat
              (PropertyController.mkUpdateBody None None (Some "a bargain") None None)
              listed) !! 0%nat = Some after
       ∧ Property.price after = 750000%N
       ∧ Property.priceFormatted after = Some "a bargain").
Proof. split; eexists; repeat split; reflexivity. Qed.

(** On the save path the field follows the price, when the price is not
    zero (or NaN). *)
Lemma save_formats_price {num : Type} `{JSNumber num} (d d' : Property.Doc num) :
  Property.save d = Some d' → to_boolean (Property.price d) = true →
  Property.price d' = Property.price d
  ∧ Property.priceFormatted d' = Some (format_USD (Property.price d')).
Proof.
  unfold Property.save, Property.pre_save.
  destruct (Property.validate d); [| done]. intros [= <-] ->. done.
Qed.

(** ** Reading one service *)

(** C10: a stored service whose active flag is false is answered with
    404 NOT_FOUND, the very answer given for an id that is not stored, and
    the collection (so the view counter) is left as it was. *)
Theorem getService_inactive {num : Type} `{JSNumber num}
    (now id : nat) (db : gmap nat (Service.Doc num)) (s : Service.Doc num) :
  db !! id = Some s → Service.active s = false →
  ServiceController.getService now id db
  = (Failure 404 "NOT_FOUND" "Service not found" now, db)
  ∧ (∀ missing, db !! missing = None →
       ServiceController.getService now missing db
       = ServiceController.getService now id db).
Proof.
  intros Hs Hinactive. unfold ServiceController.getService.
  rewrite Hs, Hinactive. split; [done |].
  intros missing ->. done.
Qed.

Lemma getService_inactive_witness :
  ({[ 4%nat := retired_service ]} : gmap nat (Service.Doc N)) !! 4%nat
  = Some retired_service
  ∧ Service.active retired_service = false
  ∧ ServiceController.getService 9 4%nat {[ 4%nat := retired_service ]}
    = (Failure 404 "NOT_FOUND" "Service not found" 9%nat,
       {[ 4%nat := retired_service ]}).
Proof.
  split; [reflexivity |]. split; [reflexivity |].
  apply (getService_inactive 9 4%nat {[ 4%nat := retired_service ]}
           retired_service); reflexivity.
Defined.

(** An active service is returned, with its counter incremented. *)
Example getService_active :
  ∃ shown stored,
    ServiceController.getService 9 4%nat
      ({[ 4%nat := Service.mkDoc "Property Valuation" 200%N "hourly" true false 12 0 ]}
         : gmap nat (Service.Doc N))
    = (Success 200 shown "Service retrieved successfully", {[ 4%nat := stored ]})
    ∧ Service.views shown = 13%nat
    ∧ Service.views stored = 13%nat.
Proof. do 2 eexists. repeat split; reflexivity. Qed.

(** * More properties of the code *)

(** ** Pages *)

Section PageFacts.
Import PropertyController.
Context {A : Type}.
Implicit Types found : list A.

Lemma paginate_items_nat (page limit : Z) found :
  1 ≤ page → 1 ≤ limit →
  (paginate page limit found).1
  = take (Z.to_nat limit)
      (drop ((Z.to_nat page - 1) * Z.to_nat limit) found).
Proof.
  intros Hp Hl. unfold paginate. simpl. do 2 f_equal. nia.
Qed.

Lemma concat_pages_take (l : nat) found (n : nat) :
  concat (map (fun p : nat => take l (drop ((p - 1) * l) found)) (seq 1 n))
  = take (n * l) found.
Proof.
  induction n as [|n IH]; [done |].
  rewrite seq_S, map_app, concat_app, IH. simpl.
  rewrite app_nil_r, Nat.sub_0_r, take_take_drop. f_equal. lia.
Qed.

Lemma totalPages_nat (limit : Z) found :
  1 ≤ limit →
  (length found ≤ Z.to_nat (ceil_div (Z.of_nat (length found)) limit)
                  * Z.to_nat limit)%nat.
Proof.
  intros Hl. pose proof (ceil_div_spec (Z.of_nat (length found)) limit) as Hc.
  nia.
Qed.

End PageFacts.

(** X1: for a limit of at least 1, the pages 1 to totalPages, put one
    after the other, are exactly the matching documents in their order:
    nothing is lost, repeated or moved. *)
Theorem pages_partition {A : Type} (limit : Z) (found : list A) :
  1 ≤ limit → concat (all_pages limit found) = found.
Proof.
  intros Hl. unfold all_pages.
  rewrite (map_ext_in _
             (fun p : nat => take (Z.to_nat limit)
                               (drop ((p - 1) * Z.to_nat limit) found))).
  - rewrite concat_pages_take. apply take_ge. simpl.
    by apply totalPages_nat.
  - intros p Hp%in_seq. rewrite paginate_items_nat by lia.
    do 3 f_equal. lia.
Qed.

Lemma pages_partition_witness :
  1 ≤ 2 ∧ concat (all_pages 2 ["a"; "b"; "c"; "d"; "e"]) = ["a"; "b"; "c"; "d"; "e"].
Proof. split; [lia |]. apply (pages_partition 2); lia. Defined.

(** X2: a page before the last one holds exactly [limit] items, the last
    page holds the rest (at least one), and a page past the last one is
    empty. *)
Theorem page_sizes {A : Type} (page limit : Z) (found : list A) :
  1 ≤ page → 1 ≤ limit →
  let items := (PropertyController.paginate page limit found).1 in
  let info := (PropertyController.paginate page limit found).2 in
  (page < PropertyController.totalPages info →
   Z.of_nat (length items) = limit)
  ∧ (page = PropertyController.totalPages info →
     1 ≤ Z.of_nat (length items) ≤ limit
     ∧ Z.of_nat (length items)
       = Z.of_nat (length found) - (page - 1) * limit)
  ∧ (PropertyController.totalPages info < page → items = []).
Proof.
  intros Hp Hl items info. subst items info.
  pose proof (ceil_div_spec (Z.of_nat (length found)) limit ltac:(lia)) as Hc.
  unfold PropertyController.paginate. simpl.
  rewrite length_take, length_drop.
  split; [| split].
  - intros Hlt. nia.
  - intros ->. nia.
  - intros Hgt. rewrite drop_ge; [by rewrite take_nil |]. nia.
Qed.

Lemma page_sizes_witness :
  (1 ≤ 3 ∧ 1 ≤ 2)
  ∧ Z.of_nat (length (PropertyController.paginate 3 2
                        ["a"; "b"; "c"; "d"; "e"]).1) = 5 - (3 - 1) * 2.
Proof.
  split; [lia |].
  apply (page_sizes 3 2 ["a"; "b"; "c"; "d"; "e"]); [lia | lia | reflexivity].
Defined.

(** X3: [hasNextPage] is true exactly when the next page has an item. *)
Theorem hasNextPage_next_nonempty {A : Type} (page limit : Z) (found : list A) :
  1 ≤ page → 1 ≤ limit →
  PropertyController.hasNextPage (PropertyController.paginate page limit found).2
  = true
  ↔ (PropertyController.paginate (page + 1) limit found).1 ≠ [].
Proof.
  intros Hp Hl.
  pose proof (ceil_div_spec (Z.of_nat (length found)) limit ltac:(lia)) as Hc.
  unfold PropertyController.paginate. simpl. rewrite Z.ltb_lt.
  split.
  - intros Hlt Hnil. apply (f_equal length) in Hnil.
    rewrite length_take, length_drop in Hnil. simpl in Hnil. nia.
  - intros Hne. destruct (Z.lt_ge_cases page
                            (PropertyController.ceil_div
                               (Z.of_nat (length found)) limit)) as [|Hge];
      [done |].
    exfalso. apply Hne. rewrite drop_ge; [by rewrite take_nil |]. nia.
Qed.

Lemma hasNextPage_next_nonempty_witness :
  (1 ≤ 2 ∧ 1 ≤ 2)
  ∧ (PropertyController.paginate (2 + 1) 2 ["a"; "b"; "c"; "d"; "e"]).1 ≠ [].
Proof.
  split; [lia |].
  apply (hasNextPage_next_nonempty 2 2 ["a"; "b"; "c"; "d"; "e"]);
    [lia | lia | reflexivity].
Defined.

(** ** What the property lists return *)

Section ListFacts.
Import PropertyController.
Context {num : Type} `{JSNumber num}.

Lemma find_sound (f : Filter num) (docs found : list (Property.Doc num)) :
  find f docs = Some found →
  ∀ d, d ∈ found → d ∈ docs ∧ matches f d = Some true.
Proof.
  revert found. induction docs as [|x docs IH]; simpl; intros found.
  - intros [= <-] d Hd. by apply elem_of_nil in Hd.
  - destruct (matches f x) as [b|] eqn:Hx; [| done].
    destruct (find f docs) as [rest|]; [| done].
    intros [= <-] d Hd. destruct b.
    + apply elem_of_cons in Hd as [-> | Hd].
      * split; [left | done].
      * destruct (IH rest eq_refl d Hd). split; [by right | done].
    + destruct (IH rest eq_refl d Hd). split; [by right | done].
Qed.

Lemma elem_of_page {A : Type} (page limit : Z) (found : list A) (d : A) :
  d ∈ (paginate page limit found).1 → d ∈ found.
Proof.
  unfold paginate. simpl. intros Hd.
  eapply elem_of_sublist; [exact Hd |].
  etransitivity; [apply sublist_take | apply sublist_drop].
Qed.

Lemma matches_true (f : Filter num) (d : Property.Doc num) :
  matches f d = Some true →
  Property.status d = f_status f
  ∧ eq_if_present (f_type f) (Property.type d) = true
  ∧ eq_if_present (f_category f) (Property.category d) = true
  ∧ from_option (Bool.eqb (Property.featured d)) true (f_featured f) = true
  ∧ from_option (fun c => price_matches c (Property.price d)) true (f_price f)
    = true.
Proof.
  unfold matches. destruct (from_option _ _ _) as [in_or|]; [| done].
  intros [= Hall]. repeat (apply andb_prop in Hall as [Hall ?]).
  apply bool_decide_eq_true in Hall. done.
Qed.

End ListFacts.

(** X4: every listing on a page answered by the list operation passes the
    filter of the request: its status is the requested one ("Available"
    when none is requested), its type and category are the requested ones,
    its featured flag is the requested one, and its price lies between the
    requested bounds, both included. (The storage layer's sort returns
    documents of the list it is given.) *)
Theorem listed_properties_pass_filter {num : Type} `{JSNumber num}
    (sort_docs : string → list (Property.Doc num) → list (Property.Doc num))
    (q : PropertyController.Query) (docs items : list (Property.Doc num))
    (info : PropertyController.Pagination) (http : nat) (msg : string)
    (d : Property.Doc num) :
  (∀ key l x, x ∈ sort_docs key l → x ∈ l) →
  PropertyController.getProperties sort_docs q docs
  = Some (Success http (items, info) msg) →
  d ∈ items →
  d ∈ docs
  ∧ Property.status d = default "Available" (PropertyController.q_status q)
  ∧ (∀ t, PropertyController.q_type q = Some t → t ≠ "" → Property.type d = t)
  ∧ (∀ c, PropertyController.q_category q = Some c → c ≠ "" →
       Property.category d = c)
  ∧ (∀ f, PropertyController.q_featured q = Some f →
       Property.featured d = bool_decide (f = "true"))
  ∧ (∀ lo, PropertyController.q_minPrice q = Some lo → lo ≠ "" →
       num_le (parseFloat lo) (Property.price d) = true)
  ∧ (∀ hi, PropertyController.q_maxPrice q = Some hi → hi ≠ "" →
       num_le (Property.price d) (parseFloat hi) = true).
Proof.
  intros Hsort Hget Hd. unfold PropertyController.getProperties in Hget.
  destruct (from_option _ _ (PropertyController.q_page q)) as [pageNum|]; [| done].
  destruct (from_option _ _ (PropertyController.q_limit q)) as [limitNum|]; [| done].
  destruct (PropertyController.find _ docs) as [found|] eqn:Hfind; [| done].
  injection Hget as _ <- _ _.
  apply elem_of_page, Hsort in Hd.
  destruct (find_sound _ _ _ Hfind d Hd) as [Hdocs Hm].
  apply matches_true in Hm as (Hstatus & Htype & Hcat & Hfeat & Hprice).
  simpl in *. split; [done |]. split; [done |].
  unfold PropertyController.eq_if_present, PropertyController.attach in *.
  split; [| split; [| split; [| split]]].
  - intros [|a t] Hq Hne; [done |]. rewrite Hq in Htype. simpl in Htype.
    by apply bool_decide_eq_true in Htype.
  - intros [|a c] Hq Hne; [done |]. rewrite Hq in Hcat. simpl in Hcat.
    by apply bool_decide_eq_true in Hcat.
  - intros f Hq. rewrite Hq in Hfeat. simpl in Hfeat.
    by apply Bool.eqb_prop in Hfeat.
  - intros [|a lo] Hq Hne; [done |]. rewrite Hq in Hprice. simpl in Hprice.
    by apply andb_prop in Hprice as [? _].
  - intros [|a hi] Hq Hne; [done |]. rewrite Hq in Hprice.
    destruct (PropertyController.q_minPrice q) as [[|b lo]|]; simpl in Hprice;
      by apply andb_prop in Hprice as [_ ?].
Qed.

Lemma listed_properties_pass_filter_witness :
  (∀ (key : string) (l : list (Property.Doc N)) x, x ∈ l → x ∈ l)
  ∧ PropertyController.getProperties (fun _ docs => docs) range_query
      [beverly_villa; downtown_office]
    = Some (Success 200
              ([beverly_villa],
               PropertyController.mkPagination 1 1 1 10 false false)
              "Properties retrieved successfully")
  ∧ beverly_villa ∈ [beverly_villa]
  ∧ Property.category beverly_villa = "Residential".
Proof.
  split; [done |]. split; [reflexivity |]. split; [by left |].
  eapply (listed_properties_pass_filter (fun _ docs => docs) range_query
            [beverly_villa; downtown_office] [beverly_villa] _ 200 _
            beverly_villa).
  - done.
  - reflexivity.
  - by left.
  - reflexivity.
  - done.
Defined.

(** X5: the search answers 400 VALIDATION_ERROR when [q] is missing or
    empty, whatever [page] and [limit] are; and every listing on a page it
    answers has the status "Available" and matches the search string. (The
    storage layer's ranking returns documents of the list it is given.) *)
Theorem search_only_available {num : Type} `{JSNumber num}
    (text_matches : string → Property.Doc num → bool)
    (rank : string → list (Property.Doc num) → list (Property.Doc num))
    (now : nat) (q page limit : option string)
    (docs : list (Property.Doc num)) :
  (∀ text l x, x ∈ rank text l → x ∈ l) →
  (JS.truthy_opt q = false →
   PropertyReads.searchProperties text_matches rank now q page limit docs
   = Some (Failure 400 "VALIDATION_ERROR" "Search query is required" now))
  ∧ (∀ http items info text msg d,
       PropertyReads.searchProperties text_matches rank now q page limit docs
       = Some (Success http (items, info, text) msg) →
       d ∈ items →
       q = Some text ∧ d ∈ docs
       ∧ Property.status d = "Available" ∧ text_matches text d = true).
Proof.
  intros Hrank. unfold PropertyReads.searchProperties. split.
  - by intros ->.
  - intros http items info text msg d.
    destruct q as [[|c s]|]; try done. simpl.
    destruct (from_option _ _ page) as [pageNum|]; [| done].
    destruct (from_option _ _ limit) as [limitNum|]; [| done].
    destruct (_ && _); [| done].
    intros [= _ <- _ <- _] Hd.
    apply elem_of_page, Hrank, list_elem_of_filter in Hd as [[? ?] ?]. done.
Qed.

Lemma search_only_available_witness :
  (∀ (text : string) (l : list (Property.Doc N)) x, x ∈ l → x ∈ l)
  ∧ PropertyReads.searchProperties (fun _ _ => true) (fun _ l => l) 3 (Some "")
      (Some "zero") None [beverly_villa]
    = Some (Failure 400 "VALIDATION_ERROR" "Search query is required" 3%nat).
Proof.
  split; [done |].
  apply (search_only_available (fun _ _ => true) (fun _ l => l) 3 (Some "")
           (Some "zero") None [beverly_villa]); done.
Defined.

(** X6: the featured list holds only listings that are featured and
    "Available"; with a limit of at least 1 (6 when none is given) it holds
    at most that many; with the limit 0 it holds every such listing the
    storage layer returns. *)
Theorem featured_list_bounded {num : Type} `{JSNumber num}
    (sort_docs : string → list (Property.Doc num) → list (Property.Doc num))
    (limit : option string) (docs items : list (Property.Doc num))
    (http : nat) (msg : string) :
  (∀ key l x, x ∈ sort_docs key l → x ∈ l) →
  PropertyReads.getFeaturedProperties sort_docs limit docs
  = Some (Success http items msg) →
  (∀ d, d ∈ items →
     d ∈ docs ∧ Property.featured d = true ∧ Property.status d = "Available")
  ∧ ∃ limitNum,
      from_option Validator.parseInt (Some 6) limit = Some limitNum
      ∧ 0 ≤ limitNum
      ∧ (1 ≤ limitNum → Z.of_nat (length items) ≤ limitNum)
      ∧ (limitNum = 0 →
         items = sort_docs "-createdAt"
                   (filter (fun d => Property.featured d = true
                                     ∧ Property.status d = "Available") docs)).
Proof.
  intros Hsort. unfold PropertyReads.getFeaturedProperties.
  destruct (from_option _ _ limit) as [limitNum|]; [| done].
  destruct (Z.ltb_spec limitNum 0) as [|Hnn]; [done |].
  intros [= _ <- _]. split.
  - intros d Hd.
    assert (d ∈ sort_docs "-createdAt"
                  (filter (fun d => Property.featured d = true
                                    ∧ Property.status d = "Available") docs))
      as Hin.
    { destruct (limitNum =? 0); [done |].
      eapply elem_of_sublist; [exact Hd | apply sublist_take]. }
    apply Hsort, list_elem_of_filter in Hin as [[? ?] ?]. done.
  - exists limitNum. split; [done |]. split; [done |]. split.
    + intros Hpos. destruct (Z.eqb_spec limitNum 0); [lia |].
      rewrite length_take. lia.
    + intros ->. done.
Qed.

Lemma featured_list_bounded_witness :
  (∀ (key : string) (l : list (Property.Doc N)) x, x ∈ l → x ∈ l)
  ∧ PropertyReads.getFeaturedProperties (fun _ l => l) (Some "1")
      [beverly_villa; downtown_office; beverly_villa]
    = Some (Success 200 [beverly_villa]
              "Featured properties retrieved successfully")
  ∧ ∀ d, d ∈ [beverly_villa] → Property.featured d = true.
Proof.
  split; [done |]. split; [reflexivity |].
  intros d Hd.
  eapply (featured_list_bounded (fun _ l => l) (Some "1")
            [beverly_villa; downtown_office; beverly_villa]);
    [done | reflexivity | exact Hd].
Defined.

(** ** Listings: reads, writes and what is stored *)

Section ListingFacts.
Context {num : Type} `{JSNumber num}.
Implicit Types d : Property.Doc num.


Lemma validate_pre_save d :
  Property.validate (Property.pre_save d) = Property.validate d.
Proof. unfold Property.pre_save. by destruct (to_boolean _). Qed.

Lemma save_valid d d' : Property.save d = Some d' → Property.validate d' = true.
Proof.
  unfold Property.save. destruct (Property.validate d) eqn:Hv; [| done].
  intros [= <-]. by rewrite validate_pre_save.
Qed.

Lemma apply_update_valid (body : PropertyController.UpdateBody (num := num)) d :
  PropertyController.update_valid body = true →
  Property.validate d = true →
  Property.validate (PropertyController.apply_update body d) = true.
Proof.
  unfold PropertyController.update_valid, Property.validate,
    Property.required_max.
  intros Hu Hd.
  destruct body as [[n|] [p|] [pf|] [s|] [f|]]; simpl in *;
    repeat match goal with
           | Hand : _ && _ = true |- _ => apply andb_prop in Hand as [? ?]
           end;
    repeat (apply andb_true_intro; split); done.
Qed.

Lemma apply_plain_valid (body : PropertyReads.WholeBody (num := num)) d :
  PropertyReads.plain_valid body = true →
  Property.validate d = true →
  Property.validate (PropertyReads.apply_plain body d) = true.
Proof.
  unfold PropertyReads.plain_valid, PropertyReads.apply_plain.
  intros Hbody Hd.
  repeat match goal with
         | Hand : _ && _ = true |- _ => apply andb_prop in Hand as [? ?]
         end.
  pose proof (apply_update_valid (PropertyReads.keys body) d) as Hkeys.
  set (d1 := PropertyController.apply_update (PropertyReads.keys body) d) in *.
  assert (Property.validate d1 = true) as Hd1 by auto.
  clearbody d1. clear Hkeys.
  unfold Property.validate, Property.required_max in *.
  destruct body as [ks [de|] [ca|] [lo|] [ty|] [vi|] ops]; simpl in *;
    repeat match goal with
           | Hand : _ && _ = true |- _ => apply andb_prop in Hand as [? ?]
           end;
    repeat (apply andb_true_intro; split); done.
Qed.

(** On a body that holds the keys of [PropertyController.UpdateBody] and
    nothing else, the two readings of [updateProperty] agree. *)
Lemma updateProperty_of_keys (now id : nat)
    (body : PropertyController.UpdateBody (num := num))
    (db : gmap nat (Property.Doc num)) :
  PropertyReads.updateProperty now id (PropertyReads.of_keys body) db
  = PropertyController.updateProperty now id body db.
Proof.
  unfold PropertyReads.updateProperty, PropertyController.updateProperty,
    PropertyReads.plain_valid.
  destruct (db !! id); [| done]. simpl. rewrite !andb_true_r.
  by destruct (PropertyController.update_valid body).
Qed.

End ListingFacts.



(** X8: whatever requests (creations, updates, reads, deletions) are
    served from an empty collection, as long as no update carries an update
    operator (a key that starts with [$]), every stored listing passes the
    schema validators of the modelled paths: a name and a location of 1 to
    200 characters, a description of 1 to 2000, a category, type and status
    of their enumerations, and a price of at least 0. *)
Theorem stored_listings_valid {num : Type} `{JSNumber num}
    (requests : list (PropertyReads.Request (num := num)))
    (id : nat) (d : Property.Doc num) :
  forallb PropertyReads.no_operator requests = true →
  PropertyReads.serve requests !! id = Some d →
  Property.validate d = true.
Proof.
  unfold PropertyReads.serve. revert id d.
  induction requests as [|r requests IH] using rev_ind; intros id d Hplain.
  - simpl. by rewrite lookup_empty.
  - rewrite forallb_app in Hplain. apply andb_prop in Hplain as [Hrest Hr].
    specialize (IH ltac:(auto)). simpl in Hr. rewrite andb_true_r in Hr.
    rewrite foldl_app. simpl.
    set (db := foldl PropertyReads.handle ∅ requests) in *.
    destruct r as [now body | now id' body | now id' | now id']; simpl.
    + unfold PropertyController.createProperty.
      destruct (Property.save _) as [d0|] eqn:Hsave; simpl; [| by apply IH].
      destruct (decide (fresh (dom db) = id)) as [-> | Hne].
      * rewrite lookup_insert_eq. intros [= <-]. by eapply save_valid.
      * rewrite lookup_insert_ne by done. by apply IH.
    + unfold PropertyReads.updateProperty.
      destruct (db !! id') as [d0|] eqn:Hd0; simpl; [| by apply IH].
      destruct (PropertyReads.plain_valid body) eqn:Hu; simpl; [| by apply IH].
      simpl in Hr.
      destruct (PropertyReads.wb_operators body); [done |]. simpl.
      destruct (decide (id' = id)) as [-> | Hne].
      * rewrite lookup_insert_eq. intros [= <-].
        apply apply_plain_valid; [done | by eapply IH].
      * rewrite lookup_insert_ne by done. by apply IH.
    + unfold PropertyReads.getProperty.
      destruct (db !! id') as [d0|] eqn:Hd0; simpl; [| by apply IH].
      destruct (Property.save _) as [d1|] eqn:Hsave; [| by apply IH].
      destruct (decide (id' = id)) as [-> | Hne].
      * rewrite lookup_insert_eq. intros [= <-]. by eapply save_valid.
      * rewrite lookup_insert_ne by done. by apply IH.
    + unfold PropertyReads.deleteProperty.
      destruct (db !! id') as [d0|] eqn:Hd0; simpl; [| by apply IH].
      destruct (decide (id' = id)) as [-> | Hne].
      * by rewrite lookup_delete_eq.
      * rewrite lookup_delete_ne by done. by apply IH.
Qed.

Lemma stored_listings_valid_witness :
  forallb PropertyReads.no_operator property_session = true
  ∧ ∃ d, PropertyReads.serve property_session !! 0%nat = Some d
      ∧ Property.validate d = true.
Proof.
  split; [reflexivity |].
  eexists. split; [reflexivity |].
  apply (stored_listings_valid property_session 0%nat); reflexivity.
Defined.

(** X9: deleting the listing a creation has just stored gives back the
    collection as it was before the creation: the new id was not in use,
    and no other document is touched. *)
Theorem create_then_delete {num : Type} `{JSNumber num}
    (now now' : nat) (body : PropertyController.CreateBody (num := num))
    (db db' : gmap nat (Property.Doc num)) (id http : nat)
    (d : Property.Doc num) (msg : string) :
  PropertyController.createProperty now body db
  = (Success http (id, d) msg, db') →
  db !! id = None
  ∧ db' !! id = Some d
  ∧ PropertyReads.deleteProperty now' id db'
    = (Success 200 () "Property deleted successfully", db).
Proof.
  unfold PropertyController.createProperty.
  destruct (Property.save _) as [d0|]; [| done].
  intros [= _ <- <- _ <-].
  assert (db !! fresh (dom db) = None) as Hfresh.
  { apply not_elem_of_dom, is_fresh. }
  split; [done |]. split; [apply lookup_insert_eq |].
  unfold PropertyReads.deleteProperty. rewrite lookup_insert_eq.
  by rewrite delete_insert_id.
Qed.

Lemma create_then_delete_witness :
  ∃ d, PropertyController.createProperty 0 test_property listed
       = (Success 201 (1%nat, d) "Property created successfully",
          <[1%nat := d]> listed)
    ∧ PropertyReads.deleteProperty 5 1%nat (<[1%nat := d]> listed)
      = (Success 200 () "Property deleted successfully", listed).
Proof.
  eexists. split; [reflexivity |].
  eapply (create_then_delete 0 5 test_property listed). reflexivity.
Defined.

(** X10: on creation the stored [priceFormatted] is the formatting of the
    price whenever the price is not zero: a [priceFormatted] sent in the
    body is overwritten. *)
Theorem create_formats_price {num : Type} `{JSNumber num}
    (now : nat) (body : PropertyController.CreateBody (num := num))
    (db db' : gmap nat (Property.Doc num)) (id http : nat)
    (d : Property.Doc num) (msg : string) :
  PropertyController.createProperty now body db
  = (Success http (id, d) msg, db') →
  to_boolean (PropertyController.cb_price body) = true →
  db' !! id = Some d
  ∧ Property.price d = PropertyController.cb_price body
  ∧ Property.priceFormatted d
    = Some (format_USD (PropertyController.cb_price body)).
Proof.
  unfold PropertyController.createProperty.
  destruct (Property.save _) as [d0|] eqn:Hsave; [| done].
  intros [= _ <- <- _ <-] Hprice.
  split; [apply lookup_insert_eq |].
  destruct (save_formats_price _ _ Hsave Hprice) as [Hp Hf].
  rewrite Hf, Hp. done.
Qed.

Lemma create_formats_price_witness :
  ∃ d, PropertyController.createProperty 0 branded_property ∅
       = (Success 201 (0%nat, d) "Property created successfully",
          {[ 0%nat := d ]})
    ∧ to_boolean (PropertyController.cb_price branded_property) = true
    ∧ Property.priceFormatted d = Some "$750,000.00".
Proof.
  eexists. split; [reflexivity |]. split; [reflexivity |].
  etransitivity;
    [eapply (create_formats_price 0 branded_property ∅); reflexivity |].
  reflexivity.
Defined.

(** X11: the subcategory validator accepts a pair of category and
    subcategory exactly when the table of [getSubcategories] lists the
    subcategory under that category, and no subcategory is accepted under
    both categories. *)
Theorem subcategory_validator_table (category value : string) :
  (PropertyStatics.subcategory_validator category value = true
   ↔ ∃ subcategories,
       PropertyStatics.getSubcategories !! category = Some subcategories
       ∧ value ∈ subcategories)
  ∧ ¬ (PropertyStatics.subcategory_validator "Residential" value = true
       ∧ PropertyStatics.subcategory_validator "Commercial" value = true).
Proof.
  split.
  - unfold PropertyStatics.subcategory_validator, PropertyStatics.getSubcategories.
    destruct (String.eqb_spec category "Residential") as [-> | Hres].
    + rewrite lookup_insert_eq, bool_decide_eq_true. split.
      * intros Hv. eexists. split; [done | exact Hv].
      * intros (subs & [= <-] & Hv). exact Hv.
    + rewrite lookup_insert_ne by done.
      destruct (String.eqb_spec category "Commercial") as [-> | Hcom].
      * rewrite lookup_insert_eq, bool_decide_eq_true. split.
        -- intros Hv. eexists. split; [done | exact Hv].
        -- intros (subs & [= <-] & Hv). exact Hv.
      * rewrite lookup_insert_ne, lookup_empty by done. split; [done |].
        by intros (subs & ? & _).
  - unfold PropertyStatics.subcategory_validator. simpl.
    rewrite !bool_decide_eq_true. intros [Hres Hcom].
    unfold PropertyStatics.residentialTypes in Hres.
    repeat (apply elem_of_cons in Hres as [-> | Hres];
            [by apply (bool_decide_unpack (_ ∉ _)) in Hcom |]).
    by apply elem_of_nil in Hres.
Qed.

(** ** Contacts: what a submission stores, and what is kept afterwards *)

Section ContactFacts.
Import Contact ContactController.

Lemma classify_fields (d : Doc) :
  status (classify d) = status d
  ∧ notes (classify d) = notes d
  ∧ assignedTo (classify d) = assignedTo d
  ∧ responseDate (classify d) = responseDate d.
Proof.
  unfold classify.
  destruct (some_included _ _); [done |]. by destruct (some_included _ _).
Qed.

Lemma classify_valid (d : Doc) : validate d = true → validate (classify d) = true.
Proof.
  unfold validate. intros Hv.
  destruct (classify_message d) as [-> ->].
  destruct (classify_fields d) as (-> & -> & _).
  rewrite classify_priority.
  repeat match goal with
         | Hand : _ && _ = true |- _ => apply andb_prop in Hand as [? ?]
         end.
  repeat (apply andb_true_intro; split); try done.
  destruct (some_included _ _); [done |]. by destruct (some_included _ _).
Qed.

Lemma create_valid (data : Data) (d : Doc) :
  create data = Some d → validate d = true.
Proof.
  intros [Hv ->]%create_classifies. by apply classify_valid.
Qed.

Lemma apply_update_keeps_valid (u : UpdateData) (d : Doc) :
  update_valid u = true → validate d = true → validate (apply_update u d) = true.
Proof.
  unfold update_valid, validate. intros Hu Hd.
  destruct u as [[s|] [n|] [a|] [p|] [r|]]; simpl in *;
    repeat match goal with
           | Hand : _ && _ = true |- _ => apply andb_prop in Hand as [? ?]
           end;
    repeat (apply andb_true_intro; split); done.
Qed.

Lemma auto_tags_sublist (text : string) :
  auto_tags text
    `sublist_of` ["viewing-request"; "pricing-inquiry"; "financing"; "investment"].
Proof.
  unfold auto_tags.
  destruct (_ || _); destruct (_ || _); destruct (_ || _);
    destruct (JS.includes "investment" text); simpl;
    repeat first [ by apply sublist_nil_l
                 | apply sublist_skip
                 | apply sublist_cons ].
Qed.

Lemma auto_tags_NoDup (text : string) : NoDup (auto_tags text).
Proof.
  eapply sublist_NoDup; [| apply auto_tags_sublist].
  apply (bool_decide_unpack _). exact I.
Qed.

End ContactFacts.

(** X12: a contact stored by the public submission always starts with
    status "pending" and no response date, its priority is "urgent", "high"
    or "medium" (never "low"), it has neither notes nor an assignee, and
    its tags are some of "viewing-request", "pricing-inquiry", "financing",
    "investment", in this order: the form cannot set priority or tags. *)
Theorem submission_shape (now : nat) (body : ContactController.SubmitBody)
    (property_name : option string) (db db' : gmap nat Contact.Doc)
    (http id : nat) (d : Contact.Doc) (msg : string) :
  ContactController.submitContact now body property_name db
  = (Success http (id, d) msg, db') →
  db !! id = None ∧ db' = <[id := d]> db
  ∧ Contact.status d = "pending"
  ∧ Contact.responseDate d = None
  ∧ Contact.notes d = None ∧ Contact.assignedTo d = None
  ∧ Contact.priority d ∈ ["urgent"; "high"; "medium"]
  ∧ Contact.tags d
      `sublist_of` ["viewing-request"; "pricing-inquiry"; "financing"; "investment"].
Proof.
  unfold ContactController.submitContact.
  destruct (Contact.create _) as [d0|] eqn:Hcreate; [| done].
  intros [= _ <- <- _ <-].
  apply create_classifies in Hcreate as [_ ->].
  set (d0 := Contact.new_doc _).
  destruct (classify_fields d0) as (-> & -> & -> & ->).
  split; [apply not_elem_of_dom, is_fresh |]. split; [done |].
  split; [done |]. split; [done |]. split; [done |]. split; [done |].
  split.
  - rewrite classify_priority.
    destruct (Contact.some_included _ _); [by left |].
    destruct (Contact.some_included _ _); [by right; left |].
    by right; right; left.
  - rewrite classify_tags. unfold JS.set_spread. simpl.
    rewrite set_from_NoDup.
    + apply auto_tags_sublist.
    + apply auto_tags_NoDup.
    + intros ? _. apply not_elem_of_nil.
Qed.

Lemma submission_shape_witness :
  ∃ d, ContactController.submitContact 0 urgent_body None ∅
       = (Success 201 (0%nat, d)
            "Thank you for your inquiry. We will get back to you within 24 hours.",
          one_contact)
    ∧ Contact.status d = "pending".
Proof.
  eexists. split; [reflexivity |].
  eapply (submission_shape 0 urgent_body None ∅). reflexivity.
Defined.

(** X13: whatever requests (submissions, staff updates, markings as
    contacted, deletions) are served from an empty collection, every stored
    contact passes the schema validators of the modelled paths: a message
    of 10 to 1000 characters, a subject of at most 200, notes of at most
    500, a status and a priority of their enumerations. *)
Theorem stored_contacts_valid (requests : list ContactAdmin.Request)
    (id : nat) (c : Contact.Doc) :
  ContactAdmin.serve requests !! id = Some c →
  Contact.validate c = true.
Proof.
  unfold ContactAdmin.serve. revert id c.
  induction requests as [|r requests IH] using rev_ind; intros id c.
  - simpl. by rewrite lookup_empty.
  - rewrite foldl_app. simpl.
    set (db := foldl ContactAdmin.handle ∅ requests) in *.
    destruct r as [now body pname | now id' body | now id' notes | now id'];
      simpl.
    + unfold ContactController.submitContact.
      destruct (Contact.create _) as [d0|] eqn:Hcreate; simpl; [| apply IH].
      destruct (decide (fresh (dom db) = id)) as [-> | Hne].
      * rewrite lookup_insert_eq. intros [= <-]. by eapply create_valid.
      * rewrite lookup_insert_ne by done. apply IH.
    + destruct (db !! id') as [c0|] eqn:Hc0.
      * rewrite (updateContact_stored _ _ _ _ _ Hc0).
        destruct (ContactController.update_valid _) eqn:Hu; [| apply IH].
        destruct (decide (id' = id)) as [-> | Hne].
        -- rewrite lookup_insert_eq. intros [= <-].
           apply apply_update_keeps_valid; [done | by eapply IH].
        -- rewrite lookup_insert_ne by done. apply IH.
      * unfold ContactController.updateContact. rewrite Hc0. apply IH.
    + destruct (db !! id') as [c0|] eqn:Hc0.
      * rewrite (markAsContacted_stored _ _ _ _ _ Hc0).
        destruct (Contact.validate _) eqn:Hv; [| apply IH].
        destruct (decide (id' = id)) as [-> | Hne].
        -- rewrite lookup_insert_eq. by intros [= <-].
        -- rewrite lookup_insert_ne by done. apply IH.
      * unfold ContactController.markAsContacted. rewrite Hc0. apply IH.
    + unfold ContactAdmin.deleteContact.
      destruct (db !! id') as [c0|] eqn:Hc0; simpl; [| apply IH].
      destruct (decide (id' = id)) as [-> | Hne].
      * by rewrite lookup_delete_eq.
      * rewrite lookup_delete_ne by done. apply IH.
Qed.

Lemma stored_contacts_valid_witness :
  ContactAdmin.serve contact_session !! 0%nat = Some contacted_contact
  ∧ Contact.validate contacted_contact = true.
Proof.
  split; [reflexivity |].
  apply (stored_contacts_valid contact_session 0%nat). reflexivity.
Defined.

(** X14: whatever requests are served from an empty collection, every
    stored contact whose status is "contacted" has a response date. *)
Theorem contacted_has_responseDate (requests : list ContactAdmin.Request)
    (id : nat) (c : Contact.Doc) :
  ContactAdmin.serve requests !! id = Some c →
  Contact.status c = "contacted" →
  is_Some (Contact.responseDate c).
Proof.
  unfold ContactAdmin.serve. revert id c.
  induction requests as [|r requests IH] using rev_ind; intros id c.
  - simpl. by rewrite lookup_empty.
  - rewrite foldl_app. simpl.
    set (db := foldl ContactAdmin.handle ∅ requests) in *.
    destruct r as [now body pname | now id' body | now id' notes | now id'];
      simpl.
    + unfold ContactController.submitContact.
      destruct (Contact.create _) as [d0|] eqn:Hcreate; simpl; [| apply IH].
      destruct (decide (fresh (dom db) = id)) as [-> | Hne].
      * rewrite lookup_insert_eq. intros [= <-] Hst.
        apply create_classifies in Hcreate as [_ ->].
        destruct (classify_fields (Contact.new_doc
                    (ContactController.contactData body pname)))
          as (Hs & _). rewrite Hs in Hst. done.
      * rewrite lookup_insert_ne by done. apply IH.
    + destruct (db !! id') as [c0|] eqn:Hc0.
      * rewrite (updateContact_stored _ _ _ _ _ Hc0).
        destruct (ContactController.update_valid _) eqn:Hu; [| apply IH].
        destruct (decide (id' = id)) as [-> | Hne].
        -- rewrite lookup_insert_eq. intros [= <-].
           destruct (apply_update_fields
                       (ContactController.build_updateData now body c0) c0)
             as (_ & _ & _ & _ & -> & ->).
           simpl. intros Hst.
           destruct (bool_decide (ContactController.ub_status body
                                  = Some "contacted")) eqn:Hset.
           ++ destruct (bool_decide (Contact.status c0 = "contacted")) eqn:Hwas;
                simpl; [| done].
              apply bool_decide_eq_true in Hwas. by eapply IH.
           ++ simpl. eapply IH; [done |].
              apply bool_decide_eq_false in Hset.
              unfold ContactController.attach in Hst.
              destruct (ContactController.ub_status body) as [[|a s]|];
                simpl in Hst; try done.
              congruence.
        -- rewrite lookup_insert_ne by done. apply IH.
      * unfold ContactController.updateContact. rewrite Hc0. apply IH.
    + destruct (db !! id') as [c0|] eqn:Hc0.
      * rewrite (markAsContacted_stored _ _ _ _ _ Hc0).
        destruct (Contact.validate _) eqn:Hv; [| apply IH].
        destruct (decide (id' = id)) as [-> | Hne].
        -- rewrite lookup_insert_eq. intros [= <-] _.
           destruct (markAsContacted_fields_spec now notes c0)
             as (_ & _ & _ & _ & -> & _). done.
        -- rewrite lookup_insert_ne by done. apply IH.
      * unfold ContactController.markAsContacted. rewrite Hc0. apply IH.
    + unfold ContactAdmin.deleteContact.
      destruct (db !! id') as [c0|] eqn:Hc0; simpl; [| apply IH].
      destruct (decide (id' = id)) as [-> | Hne].
      * by rewrite lookup_delete_eq.
      * rewrite lookup_delete_ne by done. apply IH.
Qed.

Lemma contacted_has_responseDate_witness :
  ContactAdmin.serve contact_session !! 0%nat = Some contacted_contact
  ∧ Contact.status contacted_contact = "contacted"
  ∧ is_Some (Contact.responseDate contacted_contact).
Proof.
  split; [reflexivity |]. split; [reflexivity |].
  apply (contacted_has_responseDate contact_session 0%nat); reflexivity.
Defined.

Section StaffFacts.
Import Contact ContactController.

Lemma apply_update_notes (u : UpdateData) (d : Doc) :
  (is_Some (notes d) → is_Some (notes (apply_update u d)))
  ∧ (is_Some (assignedTo d) → is_Some (assignedTo (apply_update u d))).
Proof. destruct u as [[s|] [n|] [a|] [p|] [r|]]; split; done. Qed.

Lemma markAsContacted_notes (now : Time) (new_notes : option string) (d : Doc) :
  (is_Some (notes d) → is_Some (notes (markAsContacted_fields now new_notes d)))
  ∧ assignedTo (markAsContacted_fields now new_notes d) = assignedTo d.
Proof.
  unfold markAsContacted_fields.
  destruct (JS.truthy_opt new_notes); [| done]. by destruct new_notes.
Qed.

Lemma attach_falsy (x : option string) :
  JS.truthy_opt x = false → attach x = None.
Proof. unfold attach. by intros ->. Qed.

Lemma apply_update_same (u : UpdateData) (d : Doc) :
  (ud_notes u = None → notes (apply_update u d) = notes d)
  ∧ (ud_assignedTo u = None → assignedTo (apply_update u d) = assignedTo d).
Proof. destruct u as [[s|] [n|] [a|] [p|] [r|]]; split; done. Qed.

Lemma markAsContacted_same (now : Time) (new_notes : option string) (d : Doc) :
  JS.truthy_opt new_notes = false →
  notes (markAsContacted_fields now new_notes d) = notes d.
Proof. unfold markAsContacted_fields. by intros ->. Qed.

Lemma run_op_keeps (op : StaffOp) (db : Collection) (id : nat) (c : Doc) :
  db !! id = Some c →
  ∃ c', run_op op db !! id = Some c'
    ∧ message c' = message c
    ∧ subject c' = subject c
    ∧ (is_Some (notes c) → is_Some (notes c'))
    ∧ (is_Some (assignedTo c) → is_Some (assignedTo c'))
    ∧ ((ContactAdmin.op_id op = id →
        JS.truthy_opt (ContactAdmin.op_notes op) = false) →
       notes c' = notes c)
    ∧ ((ContactAdmin.op_id op = id →
        JS.truthy_opt (ContactAdmin.op_assignedTo op) = false) →
       assignedTo c' = assignedTo c).
Proof.
  intros Hc. destruct op as [now id' body | now id' notes']; simpl.
  - destruct (db !! id') as [c0|] eqn:Hc0.
    + rewrite (updateContact_stored _ _ _ _ _ Hc0).
      destruct (update_valid _); [| unchanged c].
      destruct (decide (id' = id)) as [-> | Hne].
      * rewrite lookup_insert_eq. eexists. split; [done |].
        assert (c0 = c) as -> by congruence.
        destruct (apply_update_fields (build_updateData now body c) c)
          as (_ & -> & -> & _).
        destruct (apply_update_notes (build_updateData now body c) c).
        destruct (apply_update_same (build_updateData now body c) c)
          as [Hnotes Hassigned].
        repeat split; auto.
        -- intros Hfalsy. apply Hnotes. simpl. apply attach_falsy. auto.
        -- intros Hfalsy. apply Hassigned. simpl. apply attach_falsy. auto.
      * rewrite lookup_insert_ne by done. unchanged c.
    + unfold updateContact. rewrite Hc0. unchanged c.
  - destruct (db !! id') as [c0|] eqn:Hc0.
    + rewrite (markAsContacted_stored _ _ _ _ _ Hc0).
      destruct (validate _); [| unchanged c].
      destruct (decide (id' = id)) as [-> | Hne].
      * rewrite lookup_insert_eq. eexists. split; [done |].
        assert (c0 = c) as -> by congruence.
        destruct (markAsContacted_fields_spec now notes' c)
          as (_ & -> & -> & _).
        destruct (markAsContacted_notes now notes' c) as [? ->].
        repeat split; auto.
        intros Hfalsy. apply markAsContacted_same. auto.
      * rewrite lookup_insert_ne by done. unchanged c.
    + unfold markAsContacted. rewrite Hc0. unchanged c.
Qed.

End StaffFacts.

(** X15: no sequence of staff operations (updates, markings as contacted)
    changes the message or the subject of a stored contact; notes and an
    assignee, once set, stay set, though not always with their content;
    and they stay exactly as they are through every operation on the
    contact that carries no notes (missing or empty), respectively no
    assignee. *)
Theorem staff_ops_keep_message (ops : list ContactController.StaffOp)
    (db : gmap nat Contact.Doc) (id : nat) (c : Contact.Doc) :
  db !! id = Some c →
  ∃ c', ContactController.run_ops ops db !! id = Some c'
    ∧ Contact.message c' = Contact.message c
    ∧ Contact.subject c' = Contact.subject c
    ∧ (is_Some (Contact.notes c) → is_Some (Contact.notes c'))
    ∧ (is_Some (Contact.assignedTo c) → is_Some (Contact.assignedTo c'))
    ∧ (Forall (fun op => ContactAdmin.op_id op = id →
                         JS.truthy_opt (ContactAdmin.op_notes op) = false) ops →
       Contact.notes c' = Contact.notes c)
    ∧ (Forall (fun op => ContactAdmin.op_id op = id →
                         JS.truthy_opt (ContactAdmin.op_assignedTo op) = false)
         ops →
       Contact.assignedTo c' = Contact.assignedTo c).
Proof.
  intros Hc. induction ops as [|op ops IH] using rev_ind.
  - exists c. repeat split; auto.
  - destruct IH as (c1 & Hc1 & Hm1 & Hs1 & Hn1 & Ha1 & Hnotes1 & Hassigned1).
    rewrite run_ops_snoc.
    destruct (run_op_keeps op _ _ _ Hc1)
      as (c2 & Hc2 & Hm2 & Hs2 & Hn2 & Ha2 & Hnotes2 & Hassigned2).
    exists c2.
    split; [done |]. split; [congruence |]. split; [congruence |].
    split; [auto |]. split; [auto |]. split.
    + intros [Hops Hop]%Forall_app. rewrite Forall_singleton in Hop.
      rewrite (Hnotes2 Hop). auto.
    + intros [Hops Hop]%Forall_app. rewrite Forall_singleton in Hop.
      rewrite (Hassigned2 Hop). auto.
Qed.

Lemma staff_ops_keep_message_witness :
  one_contact !! 0%nat = Some stored_contact
  ∧ ∃ c', ContactController.run_ops staff_session one_contact !! 0%nat = Some c'
      ∧ Contact.message c' = "This is urgent, I would like to visit the villa".
Proof.
  split; [reflexivity |].
  destruct (staff_ops_keep_message staff_session one_contact 0%nat
              stored_contact eq_refl) as (c' & Hc' & Hm & _).
  exists c'. split; [exact Hc' | exact Hm].
Defined.

(** Notes of white space only are not empty, so the update sets them, and
    the [trim] setter stores the empty string in place of the notes that
    were there. *)
Example notes_blanked_by_spaces :
  ∃ before after,
    ContactController.run_ops (take 1 blank_notes_session) one_contact !! 0%nat
    = Some before
    ∧ Contact.notes before = Some "called back"
    ∧ ContactController.run_ops blank_notes_session one_contact !! 0%nat
      = Some after
    ∧ Contact.notes after = Some "".
Proof. do 2 eexists. repeat split; reflexivity. Qed.

(** X16: after the deletion of a stored contact, an update, a marking as
    contacted and a second deletion of the same id are all answered
    404 NOT_FOUND and leave the collection as the deletion left it; the
    other contacts are not touched by the deletion. *)
Theorem deleted_contact_is_gone (now now' : nat) (id : nat)
    (body : ContactController.UpdateBody) (notes : option string)
    (db : gmap nat Contact.Doc) (c : Contact.Doc) :
  db !! id = Some c →
  let db' := snd (ContactAdmin.deleteContact now id db) in
  db' = delete id db
  ∧ (∀ other, other ≠ id → db' !! other = db !! other)
  ∧ ContactController.updateContact now' id body db'
    = (Failure 404 "NOT_FOUND" "Contact not found" now', db')
  ∧ ContactController.markAsContacted now' id notes db'
    = (Failure 404 "NOT_FOUND" "Contact not found" now', db')
  ∧ ContactAdmin.deleteContact now' id db'
    = (Failure 404 "NOT_FOUND" "Contact not found" now', db').
Proof.
  intros Hc. unfold ContactAdmin.deleteContact at 1. rewrite Hc. simpl.
  split; [done |]. split.
  { intros other Hne. by rewrite lookup_delete_ne. }
  unfold ContactController.updateContact, ContactController.markAsContacted,
    ContactAdmin.deleteContact.
  rewrite !lookup_delete_eq. done.
Qed.

Lemma deleted_contact_is_gone_witness :
  one_contact !! 0%nat = Some stored_contact
  ∧ ContactController.markAsContacted 9 0%nat None
      (snd (ContactAdmin.deleteContact 8 0%nat one_contact))
    = (Failure 404 "NOT_FOUND" "Contact not found" 9%nat,
       snd (ContactAdmin.deleteContact 8 0%nat one_contact)).
Proof.
  split; [reflexivity |].
  apply (deleted_contact_is_gone 8 9 0%nat
           (ContactController.mkUpdateBody None None None None) None
           one_contact stored_contact).
  reflexivity.
Defined.

(** ** The virtuals of a contact *)

(** X17: the response time is absent exactly when the response date or
    the creation date is; otherwise it is the number of hours nearest to
    the time between creation and response, half an hour counting as a
    full one: a response less than 30 minutes after creation shows 0. *)
Theorem responseTime_nearest_hour (responseDate createdAt : option Z) :
  (ContactVirtuals.responseTime responseDate createdAt = None
   ↔ responseDate = None ∨ createdAt = None)
  ∧ ∀ r c h,
      responseDate = Some r → createdAt = Some c →
      ContactVirtuals.responseTime responseDate createdAt = Some h →
      3600000 * h - 1800000 ≤ r - c < 3600000 * h + 1800000.
Proof.
  split.
  - destruct responseDate, createdAt; simpl; naive_solver.
  - intros r c h -> -> [= <-]. unfold Text.round_div.
    pose proof (Z.div_mod (2 * (r - c) + 1000 * 60 * 60) (2 * (1000 * 60 * 60))
                  ltac:(lia)) as Hdiv.
    pose proof (Z.mod_pos_bound (2 * (r - c) + 1000 * 60 * 60)
                  (2 * (1000 * 60 * 60)) ltac:(lia)) as Hmod.
    lia.
Qed.

Section AgoFacts.

Lemma floor_div_positive (a b : Z) : 0 < b → (0 < a / b ↔ b ≤ a).
Proof.
  intros Hb. pose proof (Z.div_mod a b ltac:(lia)).
  pose proof (Z.mod_pos_bound a b Hb). nia.
Qed.

Lemma nested_hours_days (diffMs : Z) :
  diffMs / (1000 * 60 * 60) / 24 = diffMs / 86400000.
Proof. rewrite Z.div_div by lia. done. Qed.

End AgoFacts.

(** X18: the time since submission is given in days when at least 24
    hours have passed, in hours when at least one hour and less than 24
    have passed, and in minutes otherwise; each count is rounded down, and
    the unit takes an "s" exactly when the count is above 1. So less than a
    minute reads "0 minute ago", and a creation date in the future gives a
    negative count of minutes. *)
Theorem timeSinceSubmission_units (now createdAt : Z) :
  let elapsed := now - createdAt in
  (86400000 ≤ elapsed →
   ContactVirtuals.timeSinceSubmission now createdAt
   = ContactVirtuals.ago (elapsed / 86400000) "day"
   ∧ 1 ≤ elapsed / 86400000)
  ∧ (3600000 ≤ elapsed < 86400000 →
     ContactVirtuals.timeSinceSubmission now createdAt
     = ContactVirtuals.ago (elapsed / 3600000) "hour"
     ∧ 1 ≤ elapsed / 3600000 ≤ 23)
  ∧ (elapsed < 3600000 →
     ContactVirtuals.timeSinceSubmission now createdAt
     = ContactVirtuals.ago (elapsed / 60000) "minute"
     ∧ elapsed / 60000 ≤ 59)
  ∧ (0 ≤ elapsed < 60000 →
     ContactVirtuals.timeSinceSubmission now createdAt = "0 minute ago").
Proof.
  intros elapsed. unfold ContactVirtuals.timeSinceSubmission.
  fold elapsed. rewrite nested_hours_days.
  change (1000 * 60 * 60) with 3600000. change (1000 * 60) with 60000.
  pose proof (floor_div_positive elapsed 86400000 ltac:(lia)) as Hd.
  pose proof (floor_div_positive elapsed 3600000 ltac:(lia)) as Hh.
  split; [| split; [| split]].
  - intros He. destruct (Z.ltb_spec 0 (elapsed / 86400000)); [| lia].
    split; [done | lia].
  - intros He. destruct (Z.ltb_spec 0 (elapsed / 86400000)); [lia |].
    destruct (Z.ltb_spec 0 (elapsed / 3600000)); [| lia].
    split; [done |]. split; [lia |].
    apply Z.lt_succ_r. apply Z.div_lt_upper_bound; lia.
  - intros He. destruct (Z.ltb_spec 0 (elapsed / 86400000)); [lia |].
    destruct (Z.ltb_spec 0 (elapsed / 3600000)); [lia |].
    split; [done |].
    apply Z.lt_succ_r. apply Z.div_lt_upper_bound; lia.
  - intros He. destruct (Z.ltb_spec 0 (elapsed / 86400000)); [lia |].
    destruct (Z.ltb_spec 0 (elapsed / 3600000)); [lia |].
    rewrite (Z.div_small elapsed 60000) by lia. reflexivity.
Qed.

Lemma timeSinceSubmission_units_witness :
  86400000 ≤ 200000000 - 0
  ∧ ContactVirtuals.timeSinceSubmission 200000000 0 = "2 days ago".
Proof.
  split; [lia |].
  destruct (timeSinceSubmission_units 200000000 0) as [Hdays _].
  destruct (Hdays ltac:(lia)) as [Hshown _].
  etransitivity; [exact Hshown | reflexivity].
Defined.

Lemma responseTime_nearest_hour_witness :
  ContactVirtuals.responseTime (Some 9000000) (Some 0) = Some 3
  ∧ 3600000 * 3 - 1800000 ≤ 9000000 - 0 < 3600000 * 3 + 1800000.
Proof.
  split; [reflexivity |].
  apply (responseTime_nearest_hour (Some 9000000) (Some 0)); reflexivity.
Defined.

(** ** The name of the listing in the classification *)

Section SubjectFromListing.
Import Contact ContactController.

Lemma lower_char_space (c : ascii) :
  JS.is_space (JS.lower_char c) = JS.is_space c.
Proof. by destruct c as [[] [] [] [] [] [] [] []]. Qed.

Lemma toLowerCase_app (a b : string) :
  JS.toLowerCase (a +:+ b) = JS.toLowerCase a +:+ JS.toLowerCase b.
Proof. induction a as [|c a IH]; simpl; [done | rewrite IH; reflexivity]. Qed.

Lemma toLowerCase_trimEnd (s : string) :
  JS.toLowerCase (JS.trimEnd s) = JS.trimEnd (JS.toLowerCase s).
Proof.
  induction s as [|c s IH]; simpl; [done |].
  rewrite <- IH. destruct (JS.trimEnd s); simpl.
  - rewrite lower_char_space. by destruct (JS.is_space c).
  - done.
Qed.

Lemma string_app_assoc (a b c : string) : (a +:+ b) +:+ c = a +:+ b +:+ c.
Proof.
  induction a as [|x a IH]; [done |].
  change (String x ((a +:+ b) +:+ c) = String x (a +:+ b +:+ c)).
  by rewrite IH.
Qed.

Lemma string_app_nil_r (a : string) : a +:+ "" = a.
Proof.
  induction a as [|x a IH]; [done |].
  change (String x (a +:+ "") = String x a). by rewrite IH.
Qed.

(** Trimming the end of [a +:+ b] keeps [a] whole when something of [b]
    remains. *)
Lemma trimEnd_app (a b : string) :
  JS.trimEnd (a +:+ b)
  = match JS.trimEnd b with
    | EmptyString => JS.trimEnd a
    | String _ _ => a +:+ JS.trimEnd b
    end.
Proof.
  induction a as [|c a IH].
  - change (JS.trimEnd b
            = match JS.trimEnd b with
              | EmptyString => EmptyString
              | String _ _ => JS.trimEnd b
              end).
    by destruct (JS.trimEnd b).
  - change (JS.trimEnd (String c (a +:+ b))
            = match JS.trimEnd b with
              | EmptyString => JS.trimEnd (String c a)
              | String _ _ => String c (a +:+ JS.trimEnd b)
              end).
    simpl. rewrite IH. destruct (JS.trimEnd b) as [|x t]; [done |].
    by destruct a.
Qed.

(** A word that trimming leaves alone survives the trimming of a text in
    which it occurs. *)
Lemma occurs_in_trimEnd (kw s : string) :
  kw ≠ "" → JS.trimEnd kw = kw → occurs_in kw s → occurs_in kw (JS.trimEnd s).
Proof.
  intros Hne Hkw (pre & post & ->).
  rewrite trimEnd_app.
  assert (∃ rest, JS.trimEnd (kw +:+ post) = kw +:+ rest) as [rest Hrest].
  { rewrite trimEnd_app. destruct (JS.trimEnd post) as [|x t] eqn:Hpost.
    - exists "". by rewrite Hkw, string_app_nil_r.
    - by exists (String x t). }
  rewrite Hrest. destruct kw as [|k kw]; [done |]. simpl.
  exists pre, rest. done.
Qed.

Lemma occurs_in_app_r (kw a b : string) : occurs_in kw b → occurs_in kw (a +:+ b).
Proof.
  intros (pre & post & ->). exists (a +:+ pre), post.
  by rewrite string_app_assoc.
Qed.

(** The text the hook reads when the subject was made from the name of
    the listing. *)
Lemma listing_name_in_text (body : SubmitBody) (name kw : string) :
  JS.truthy_opt (sb_subject body) = false →
  kw ≠ "" → JS.trimEnd kw = kw →
  occurs_in kw (JS.toLowerCase name) →
  JS.includes kw (messageText (new_doc (contactData body (Some name)))) = true.
Proof.
  intros Hsub Hne Hkw Hocc. apply includes_spec.
  unfold contactData. rewrite Hsub. unfold messageText, new_doc. simpl.
  rewrite !toLowerCase_app. do 2 apply occurs_in_app_r.
  set (t := JS.trim ("Inquiry about " +:+ name)).
  change (if JS.truthy t then t else "") with (JS.or_empty (Some t)).
  rewrite or_empty_default. subst t.
  change (occurs_in kw
            (JS.toLowerCase (JS.trimEnd ("Inquiry about " +:+ name)))).
  rewrite toLowerCase_trimEnd, toLowerCase_app.
  apply occurs_in_trimEnd; [done | done |].
  by apply occurs_in_app_r.
Qed.

End SubjectFromListing.

(** X19: when an inquiry about a listing comes without a subject, the
    subject is made from the name of the listing and is classified with the
    message: a listing whose name contains, in any letter case, one of
    "urgent", "asap", "immediately", "emergency" makes every such inquiry
    "urgent", and one whose name contains "investment" gives it the tag
    "investment", whatever the message says. *)
Theorem listing_name_classifies (now : nat) (body : ContactController.SubmitBody)
    (name : string) (db db' : gmap nat Contact.Doc) (http id : nat)
    (d : Contact.Doc) (msg : string) :
  JS.truthy_opt (ContactController.sb_subject body) = false →
  ContactController.submitContact now body (Some name) db
  = (Success http (id, d) msg, db') →
  Contact.subject d = Some (JS.trim ("Inquiry about " +:+ name))
  ∧ ((∃ kw, kw ∈ ["urgent"; "asap"; "immediately"; "emergency"]
            ∧ occurs_in kw (JS.toLowerCase name)) →
     Contact.priority d = "urgent")
  ∧ (occurs_in "investment" (JS.toLowerCase name) →
     "investment" ∈ Contact.tags d).
Proof.
  intros Hsub. unfold ContactController.submitContact.
  destruct (Contact.create _) as [d0|] eqn:Hcreate; [| done].
  intros [= _ <- <- _ <-].
  apply create_classifies in Hcreate as [_ ->].
  split; [| split].
  - destruct (classify_message
                (Contact.new_doc (ContactController.contactData body (Some name))))
      as [_ ->].
    unfold ContactController.contactData. by rewrite Hsub.
  - intros (kw & Hkw & Hocc). rewrite classify_priority.
    assert (Contact.some_included Contact.urgentKeywords
              (Contact.messageText
                 (Contact.new_doc (ContactController.contactData body (Some name))))
            = true) as ->; [| done].
    unfold Contact.some_included. apply existsb_exists. exists kw. split.
    + by apply list_elem_of_In.
    + apply listing_name_in_text; try done.
      * intros ->. by apply (bool_decide_unpack (_ ∉ _)) in Hkw.
      * repeat (apply elem_of_cons in Hkw as [-> | Hkw]; [done |]).
        by apply elem_of_nil in Hkw.
  - intros Hocc. rewrite classify_tags, elem_of_set_spread, elem_of_app.
    right. apply auto_tags_spec. right; right; right. split; [done |].
    apply includes_spec. by apply listing_name_in_text.
Qed.

Lemma listing_name_classifies_witness :
  ∃ d, JS.truthy_opt (ContactController.sb_subject tower_body) = false
    ∧ ContactController.submitContact 0 tower_body
        (Some "Emergency Exit Investment Tower ") ∅
      = (Success 201 (0%nat, d)
           "Thank you for your inquiry. We will get back to you within 24 hours.",
         {[ 0%nat := d ]})
    ∧ Contact.subject d = Some "Inquiry about Emergency Exit Investment Tower".
Proof.
  eexists. split; [reflexivity |]. split; [reflexivity |].
  etransitivity;
    [eapply (listing_name_classifies 0 tower_body
               "Emergency Exit Investment Tower " ∅); reflexivity |].
  reflexivity.
Defined.

(** ** The error handler *)

Section ErrorFacts.
Import ErrorHandler.

Lemma no_rule (err : Err) :
  matches_rule err = false →
  e_name err ≠ "CastError" ∧ e_name err ≠ "ValidationError"
  ∧ e_name err ≠ "JsonWebTokenError" ∧ e_name err ≠ "TokenExpiredError"
  ∧ e_code err ≠ Some (CodeNum 11000)
  ∧ e_code err ≠ Some (CodeStr "LIMIT_FILE_SIZE")
  ∧ e_code err ≠ Some (CodeStr "LIMIT_FILE_COUNT")
  ∧ e_code err ≠ Some (CodeStr "LIMIT_UNEXPECTED_FILE")
  ∧ e_status err ≠ Some 429.
Proof.
  unfold matches_rule. intros Hm.
  repeat (apply orb_false_elim in Hm as [Hm ?]).
  repeat match goal with
         | Hb : bool_decide _ = false |- _ => apply bool_decide_eq_false in Hb
         end.
  rewrite !not_elem_of_cons in *. naive_solver.
Qed.

(** The local object [error] when no rule applies: the error's own
    properties. *)
Lemma shape_no_rule (err : Err) :
  matches_rule err = false →
  shape err = Some (mkShaped (e_code err) (e_message err) (e_statusCode err)
                      (e_details err)).
Proof.
  intros (Hn1 & Hn2 & Hn3 & Hn4 & Hc1 & Hc2 & Hc3 & Hc4 & Hs)%no_rule.
  unfold shape.
  apply String.eqb_neq in Hn1, Hn2, Hn3, Hn4. rewrite Hn1, Hn2, Hn3, Hn4.
  by rewrite !bool_decide_eq_false_2.
Qed.

(** The local object [error] when some rule applies: a fixed code and a
    fixed status. *)
Lemma shape_rule (err : Err) (error : Shaped) :
  shape err = Some error → matches_rule err = true →
  ∃ c, s_code error = Some (CodeStr c) ∧ c ∈ vocabulary
       ∧ s_statusCode error ∈ [Some 400; Some 401; Some 404; Some 429].
Proof.
  unfold shape. intros Hshape Hm.
  destruct (if bool_decide (e_code err = Some (CodeNum 11000)) then _ else _)
    as [first|] eqn:Hfirst; [| done].
  destruct (if String.eqb (e_name err) "ValidationError" then _ else _)
    as [second|] eqn:Hsecond; [| done].
  injection Hshape as <-.
  destruct (bool_decide (e_status err = Some 429)) eqn:Hstatus.
  { eexists. split; [done |]. split; apply (bool_decide_unpack _); exact I. }
  destruct (bool_decide (e_code err = Some (CodeStr "LIMIT_UNEXPECTED_FILE")))
    eqn:Hc4.
  { eexists. split; [done |]. split; apply (bool_decide_unpack _); exact I. }
  destruct (bool_decide (e_code err = Some (CodeStr "LIMIT_FILE_COUNT")))
    eqn:Hc3.
  { eexists. split; [done |]. split; apply (bool_decide_unpack _); exact I. }
  destruct (bool_decide (e_code err = Some (CodeStr "LIMIT_FILE_SIZE")))
    eqn:Hc2.
  { eexists. split; [done |]. split; apply (bool_decide_unpack _); exact I. }
  destruct (String.eqb_spec (e_name err) "TokenExpiredError") as [Hn4 | Hn4].
  { eexists. split; [done |]. split; apply (bool_decide_unpack _); exact I. }
  destruct (String.eqb_spec (e_name err) "JsonWebTokenError") as [Hn3 | Hn3].
  { eexists. split; [done |]. split; apply (bool_decide_unpack _); exact I. }
  destruct (String.eqb_spec (e_name err) "ValidationError") as [Hn2 | Hn2].
  { unfold validation_error in Hsecond.
    destruct (e_errors err) as [errors|]; [| done].
    destruct (details_of errors); [| done].
    injection Hsecond as <-. eexists. split; [done |].
    split; apply (bool_decide_unpack _); exact I. }
  injection Hsecond as <-.
  destruct (bool_decide (e_code err = Some (CodeNum 11000))) eqn:Hc1.
  { unfold duplicate_key in Hfirst.
    destruct (e_keyValue err) as [[|field keys]|]; try done.
    injection Hfirst as <-. eexists. split; [done |].
    split; apply (bool_decide_unpack _); exact I. }
  injection Hfirst as <-.
  destruct (String.eqb_spec (e_name err) "CastError") as [Hn1 | Hn1].
  { eexists. split; [done |]. split; apply (bool_decide_unpack _); exact I. }
  exfalso. unfold matches_rule in Hm.
  apply bool_decide_eq_false in Hc2, Hc3, Hc4.
  rewrite Hc1, Hstatus in Hm.
  rewrite (bool_decide_eq_false_2 (e_name err ∈ _)) in Hm.
  2: { rewrite !not_elem_of_cons. repeat split; try done. apply not_elem_of_nil. }
  rewrite (bool_decide_eq_false_2 (e_code err ∈ _)) in Hm.
  2: { rewrite !not_elem_of_cons. repeat split; try done. apply not_elem_of_nil. }
  done.
Qed.

Lemma details_of_None (values : list (option (string * string))) :
  details_of values = None ↔ None ∈ values.
Proof.
  induction values as [|[val|] rest IH]; simpl.
  - split; [done | by intros ?%elem_of_nil].
  - rewrite elem_of_cons, <- IH.
    destruct (details_of rest).
    + split; [done | intros [? | ?]; done].
    + split; [intros _; by right | done].
  - split; [intros _; apply elem_of_cons; by left | done].
Qed.

Lemma validation_error_None (err : Err) :
  validation_error err = None
  ↔ e_errors err = None ∨ ∃ errors, e_errors err = Some errors ∧ None ∈ errors.
Proof.
  unfold validation_error. destruct (e_errors err) as [errors|].
  - pose proof (details_of_None errors) as Hnone.
    destruct (details_of errors); split; try done.
    + intros [? | (errors' & [= <-] & Hin)]; [done |].
      by apply Hnone in Hin.
    + intros _. right. exists errors. split; [done |]. by apply Hnone.
  - split; [by left | done].
Qed.

(** The chain of rules fails in the two blocks that read into the error. *)
Lemma shape_None (err : Err) :
  shape err = None
  ↔ (e_code err = Some (CodeNum 11000)
     ∧ head (default [] (e_keyValue err)) = None)
    ∨ (e_name err = "ValidationError" ∧ validation_error err = None).
Proof.
  unfold shape, duplicate_key.
  case_bool_decide as Hcode;
    destruct (String.eqb_spec (e_name err) "ValidationError") as [Hname | Hname];
    destruct (e_keyValue err) as [[|field keys]|];
    destruct (validation_error err);
    simpl; split; try done; try (intros _; by left); try (intros _; by right);
    intros [[? ?] | [? ?]]; done.
Qed.

(** The status a rule fixes is one the response takes. *)
Lemma rule_status_sendable (err : Err) (error : Shaped) :
  shape err = Some error → matches_rule err = true →
  number_truthy (s_statusCode error) = true
  ∧ sendable (default 500 (s_statusCode error)) = true.
Proof.
  intros Hshape Hm.
  destruct (shape_rule err error Hshape Hm) as (_ & _ & _ & Hhttp).
  repeat (apply elem_of_cons in Hhttp as [-> | Hhttp]; [done |]).
  by apply elem_of_nil in Hhttp.
Qed.

End ErrorFacts.

(** X20: the handler sends an answer unless it fails itself, which
    happens in exactly three cases: the error has the code 11000 and no key
    in [keyValue]; it is named "ValidationError" and has no [errors], or
    one of the values of [errors] is null or undefined; or no rule applies
    to it and its own [statusCode] is a number other than 0 outside 100 to
    999, which the response refuses. *)
Theorem errorHandler_answers (development : bool) (now : nat)
    (err : ErrorHandler.Err) :
  ErrorHandler.errorHandler development now err = None
  ↔ (ErrorHandler.e_code err = Some (ErrorHandler.CodeNum 11000)
     ∧ head (default [] (ErrorHandler.e_keyValue err)) = None)
    ∨ (ErrorHandler.e_name err = "ValidationError"
       ∧ (ErrorHandler.e_errors err = None
          ∨ ∃ errors, ErrorHandler.e_errors err = Some errors ∧ None ∈ errors))
    ∨ (ErrorHandler.matches_rule err = false
       ∧ ∃ n, ErrorHandler.e_statusCode err = Some n ∧ n ≠ 0
              ∧ ¬ (100 ≤ n ≤ 999)).
Proof.
  pose proof (shape_None err) as Hnone.
  rewrite validation_error_None in Hnone.
  unfold ErrorHandler.errorHandler.
  destruct (ErrorHandler.shape err) as [error|] eqn:Hshape.
  - match type of Hnone with
    | _ ↔ ?cases =>
        assert (¬ cases) as Hno by (intros Hcases; by apply Hnone in Hcases)
    end.
    clear Hnone.
    destruct (ErrorHandler.matches_rule err) eqn:Hm.
    + destruct (rule_status_sendable err error Hshape Hm) as [-> ->].
      split; [done |]. intros [? | [? | [? _]]]; [| | done].
      * exfalso. apply Hno. by left.
      * exfalso. apply Hno. by right.
    + rewrite (shape_no_rule err Hm) in Hshape. injection Hshape as <-.
      simpl. unfold ErrorHandler.number_truthy, ErrorHandler.sendable.
      destruct (ErrorHandler.e_statusCode err) as [n|]; simpl.
      * destruct (Z.eqb_spec n 0) as [-> | Hn]; simpl.
        -- split; [done |].
           intros [? | [? | (_ & n & [= <-] & ? & _)]]; [| | done].
           ++ exfalso. apply Hno. by left.
           ++ exfalso. apply Hno. by right.
        -- destruct (Z.leb_spec 100 n); destruct (Z.leb_spec n 999); simpl.
           ++ split; [done |].
              intros [? | [? | (_ & n' & [= <-] & ? & ?)]]; [| | lia].
              ** exfalso. apply Hno. by left.
              ** exfalso. apply Hno. by right.
           ++ split; [| done]. intros _. right; right. split; [done |].
              exists n. split; [done |]. split; [done | lia].
           ++ split; [| done]. intros _. right; right. split; [done |].
              exists n. split; [done |]. split; [done | lia].
           ++ split; [| done]. intros _. right; right. split; [done |].
              exists n. split; [done |]. split; [done | lia].
      * split; [done |]. intros [? | [? | (_ & n & ? & _)]]; [| | done].
        -- exfalso. apply Hno. by left.
        -- exfalso. apply Hno. by right.
  - split; [| done]. intros _.
    destruct (proj1 Hnone eq_refl) as [? | ?]; [by left | by right; left].
Qed.

Lemma errorHandler_answers_witness :
  ErrorHandler.errorHandler true 5
    (ErrorHandler.mkErr "MongoServerError" None
       (Some (ErrorHandler.CodeNum 11000)) None None None None None None)
  = None
  ∧ ErrorHandler.errorHandler true 5
      (ErrorHandler.mkErr "Error" (Some "teapot") None None (Some 42) None
         None None None)
    = None.
Proof.
  split.
  - apply (errorHandler_answers true 5). left. split; reflexivity.
  - apply (errorHandler_answers true 5). right. right.
    split; [reflexivity |]. exists 42. split; [reflexivity |]. lia.
Defined.

(** X21: an error with [status] 429 is always answered
    429 RATE_LIMIT_EXCEEDED with the fixed message and no details, whatever
    its name, code, message and details are: the last rule of the handler
    wins. *)
Theorem errorHandler_rate_limit (development : bool) (now : nat)
    (err : ErrorHandler.Err) (reply : ErrorHandler.ErrorReply) :
  ErrorHandler.errorHandler development now err = Some reply →
  ErrorHandler.e_status err = Some 429 →
  reply = ErrorHandler.mkErrorReply 429
            (ErrorHandler.CodeStr "RATE_LIMIT_EXCEEDED")
            "Too many requests, please try again later" None
            (if development then ErrorHandler.e_stack err else None) now.
Proof.
  unfold ErrorHandler.errorHandler, ErrorHandler.shape. intros Hreply Hstatus.
  rewrite (bool_decide_eq_true_2 _ Hstatus) in Hreply.
  destruct (if bool_decide _ then _ else _) as [error1|]; [| done].
  destruct (if String.eqb _ _ then _ else _) as [error2|]; [| done].
  simpl in Hreply. by injection Hreply as <-.
Qed.

Lemma errorHandler_rate_limit_witness :
  ∃ reply, ErrorHandler.errorHandler false 5 throttled = Some reply
    ∧ ErrorHandler.e_status throttled = Some 429
    ∧ ErrorHandler.r_http reply = 429.
Proof.
  eexists. split; [reflexivity |]. split; [reflexivity |].
  rewrite (errorHandler_rate_limit false 5 throttled _ eq_refl eq_refl).
  reflexivity.
Defined.

(** X22: when one of the rules of the handler applies to the error, or the
    error carries no code of its own, the code of the answer is one of the
    ten codes of the response envelope; and when a rule applies the HTTP
    status is 400, 401, 404 or 429. *)
Theorem errorHandler_vocabulary (development : bool) (now : nat)
    (err : ErrorHandler.Err) (reply : ErrorHandler.ErrorReply) :
  ErrorHandler.errorHandler development now err = Some reply →
  (ErrorHandler.matches_rule err = true
   ∨ ErrorHandler.code_truthy (ErrorHandler.e_code err) = false) →
  (∃ c, ErrorHandler.r_code reply = ErrorHandler.CodeStr c
        ∧ c ∈ ErrorHandler.vocabulary)
  ∧ (ErrorHandler.matches_rule err = true →
     ErrorHandler.r_http reply ∈ [400; 401; 404; 429]).
Proof.
  unfold ErrorHandler.errorHandler. intros Hreply Hcases.
  destruct (ErrorHandler.matches_rule err) eqn:Hm.
  - destruct (ErrorHandler.shape err) as [error|] eqn:Hshape; [| done].
    destruct (shape_rule err error Hshape Hm) as (c & Hc & Hvoc & Hhttp).
    destruct (rule_status_sendable err error Hshape Hm) as [Htruthy Hsend].
    rewrite Htruthy, Hsend in Hreply.
    injection Hreply as <-. simpl. rewrite Hc.
    assert (c ≠ "") as Hne.
    { intros ->. by apply (bool_decide_unpack (_ ∉ _)) in Hvoc. }
    split.
    + exists c. split; [| done]. simpl. by destruct c.
    + intros _.
      repeat (apply elem_of_cons in Hhttp as [-> | Hhttp];
              [simpl; apply (bool_decide_unpack _); exact I |]).
      by apply elem_of_nil in Hhttp.
  - destruct Hcases as [? | Hcode]; [done |].
    rewrite (shape_no_rule err Hm) in Hreply.
    destruct (ErrorHandler.sendable _); [| done].
    injection Hreply as <-. simpl.
    rewrite Hcode. split; [| done].
    eexists. split; [done |]. apply (bool_decide_unpack _). exact I.
Qed.

Lemma errorHandler_vocabulary_witness :
  ∃ reply, ErrorHandler.errorHandler false 5 duplicate_email = Some reply
    ∧ ErrorHandler.matches_rule duplicate_email = true
    ∧ ErrorHandler.r_http reply ∈ [400; 401; 404; 429].
Proof.
  eexists. split; [reflexivity |]. split; [reflexivity |].
  apply (errorHandler_vocabulary false 5 duplicate_email _ eq_refl);
    [left; reflexivity | reflexivity].
Defined.

(** X23: an error to which no rule applies, and whose own [statusCode]
    is missing, 0, or a status from 100 to 999, is answered with its own
    properties: its [statusCode] (500 when it is missing or 0), its [code]
    when it has one that is not 0 or empty (otherwise INTERNAL_ERROR), its
    [message] when it is not empty (otherwise "Internal server error"), and
    its [details]; the stack is sent in development only. So the code and
    the message of such an error reach the caller as they are. *)
Theorem errorHandler_passes_through (development : bool) (now : nat)
    (err : ErrorHandler.Err) :
  let http :=
    if ErrorHandler.number_truthy (ErrorHandler.e_statusCode err)
    then default 500 (ErrorHandler.e_statusCode err) else 500 in
  ErrorHandler.matches_rule err = false →
  100 ≤ http ≤ 999 →
  ErrorHandler.errorHandler development now err
  = Some (ErrorHandler.mkErrorReply http
            (if ErrorHandler.code_truthy (ErrorHandler.e_code err)
             then default (ErrorHandler.CodeStr "INTERNAL_ERROR")
                    (ErrorHandler.e_code err)
             else ErrorHandler.CodeStr "INTERNAL_ERROR")
            (if JS.truthy_opt (ErrorHandler.e_message err)
             then default "" (ErrorHandler.e_message err)
             else "Internal server error")
            (ErrorHandler.e_details err)
            (if development then ErrorHandler.e_stack err else None)
            now).
Proof.
  intros http Hm Hhttp. unfold ErrorHandler.errorHandler.
  rewrite (shape_no_rule err Hm). simpl.
  assert ((if ErrorHandler.number_truthy (ErrorHandler.e_statusCode err)
           then default 500 (ErrorHandler.e_statusCode err)
           else if ErrorHandler.number_truthy (ErrorHandler.e_statusCode err)
                then default 500 (ErrorHandler.e_statusCode err) else 500)
          = http) as ->.
  { subst http. by destruct (ErrorHandler.number_truthy _). }
  unfold ErrorHandler.sendable.
  destruct (Z.leb_spec 100 http); [| lia].
  destruct (Z.leb_spec http 999); [| lia]. done.
Qed.

Lemma errorHandler_passes_through_witness :
  ErrorHandler.matches_rule refused_connection = false
  ∧ ErrorHandler.errorHandler false 5 refused_connection
    = Some (ErrorHandler.mkErrorReply 500 (ErrorHandler.CodeStr "ECONNREFUSED")
              "connect ECONNREFUSED 127.0.0.1:27017" None None 5).
Proof.
  split; [reflexivity |].
  rewrite (errorHandler_passes_through false 5 refused_connection eq_refl);
    [reflexivity | simpl; lia].
Defined.

(** X24: the error that [notFound] builds for a URL is answered
    404 NOT_FOUND with the message "Route <URL> not found" and no details,
    for every URL. *)
Theorem notFound_answer (development : bool) (now : nat)
    (originalUrl : string) (stack : option string) :
  ErrorHandler.errorHandler development now
    (ErrorHandler.notFound originalUrl stack)
  = Some (ErrorHandler.mkErrorReply 404 (ErrorHandler.CodeStr "NOT_FOUND")
            ("Route " +:+ originalUrl +:+ " not found") None
            (if development then stack else None) now).
Proof.
  unfold ErrorHandler.errorHandler.
  rewrite (shape_no_rule (ErrorHandler.notFound originalUrl stack) eq_refl).
  reflexivity.
Qed.

(** ** The authentication middleware *)

Section AuthFacts.
Variable verifyToken : string → Auth.Verified.

Lemma bearer_header (authHeader : option string) :
  Auth.no_bearer authHeader = false →
  authHeader
  = Some ("Bearer " +:+ Text.substring_from 7 (default "" authHeader)).
Proof.
  unfold Auth.no_bearer. intros [Hset Hstarts]%orb_false_elim.
  apply negb_false_iff in Hstarts.
  destruct authHeader as [header|]; [| done].
  change (default "" (Some header)) with header in *.
  apply startsWith_spec in Hstarts as [post ->]. done.
Qed.

(** [authenticate] calls [next] exactly for a header "Bearer <token>" whose
    non-empty token decodes to the id of a stored, active user. *)
Lemma authenticate_admits (now : nat) (authHeader : option string)
    (users : gmap nat Auth.User) (user : option Auth.User) :
  Auth.authenticate verifyToken now authHeader users = Auth.Next user ↔
  ∃ token userId u,
    authHeader = Some ("Bearer " +:+ token) ∧ token ≠ ""
    ∧ verifyToken token = Auth.Decoded userId
    ∧ users !! userId = Some u ∧ Auth.isActive u = true ∧ user = Some u.
Proof.
  unfold Auth.authenticate. split.
  - destruct (Auth.no_bearer authHeader) eqn:Hbearer; [done |].
    apply bearer_header in Hbearer.
    set (token := Text.substring_from 7 (default "" authHeader)) in *.
    destruct (JS.truthy token) eqn:Htoken; [| done]. simpl.
    destruct (verifyToken token) as [userId| | |] eqn:Hverify; try done.
    destruct (users !! userId) as [u|] eqn:Hu; [| done].
    destruct (Auth.isActive u) eqn:Hactive; [| done]. simpl.
    intros [= <-]. exists token, userId, u.
    repeat split; try done. intros Hempty. by rewrite Hempty in Htoken.
  - intros (token & userId & u & -> & Hne & Hverify & Hu & Hactive & ->).
    change (Text.substring_from 7 (default "" (Some ("Bearer " +:+ token))))
      with token.
    change (Auth.no_bearer (Some ("Bearer " +:+ token))) with false.
    destruct token; [done |]. simpl. by rewrite Hverify, Hu, Hactive.
Qed.

End AuthFacts.

(** X25: the pair [adminOnly] lets a request through exactly when its
    Authorization header is "Bearer " followed by a non-empty token that
    verifies to the id of a stored user who is active and whose role is
    "admin"; the user attached to the request is that one. *)
Theorem adminOnly_admits (verifyToken : string → Auth.Verified) (now : nat)
    (authHeader : option string) (users : gmap nat Auth.User)
    (user : option Auth.User) :
  Auth.adminOnly verifyToken now authHeader users = Auth.Next user ↔
  ∃ token userId u,
    authHeader = Some ("Bearer " +:+ token) ∧ token ≠ ""
    ∧ verifyToken token = Auth.Decoded userId
    ∧ users !! userId = Some u ∧ Auth.isActive u = true
    ∧ Auth.role u = "admin" ∧ user = Some u.
Proof.
  unfold Auth.adminOnly, Auth.guarded. split.
  - destruct (Auth.authenticate verifyToken now authHeader users)
      as [admitted|] eqn:Hauth; [| done].
    apply authenticate_admits in Hauth
      as (token & userId & u & Hheader & Hne & Hverify & Hu & Hactive & ->).
    simpl. case_bool_decide as Hrole; [| done]. simpl. intros [= <-].
    exists token, userId, u. repeat split; try done.
    by apply list_elem_of_singleton in Hrole.
  - intros (token & userId & u & Hheader & Hne & Hverify & Hu & Hactive
            & Hrole & ->).
    rewrite (proj2 (authenticate_admits verifyToken now authHeader users
                      (Some u))) by naive_solver.
    simpl. rewrite bool_decide_eq_true_2; [done |].
    rewrite Hrole. apply list_elem_of_singleton. done.
Qed.

(** X26: [optionalAuth] attaches a user to the request exactly when
    [authenticate] would have let the same request through, and then the
    same user; and [authenticate] never calls [next] without a user. *)
Theorem optionalAuth_agrees (verifyToken : string → Auth.Verified)
    (now : nat) (authHeader : option string) (users : gmap nat Auth.User) :
  (∀ u, Auth.optionalAuth verifyToken authHeader users = Some u ↔
        Auth.authenticate verifyToken now authHeader users
        = Auth.Next (Some u))
  ∧ Auth.authenticate verifyToken now authHeader users ≠ Auth.Next None.
Proof.
  unfold Auth.optionalAuth, Auth.authenticate.
  destruct (Auth.no_bearer authHeader); [by split |].
  destruct (JS.truthy _); simpl; [| by split].
  destruct (verifyToken _) as [userId| | |]; try by split.
  destruct (users !! userId) as [u|]; [| by split].
  destruct (Auth.isActive u); simpl; [| by split].
  split; [| done]. intros u'. split; congruence.
Qed.

(** X27: with more roles allowed, [authenticate] followed by [authorize]
    lets through every request it let through before, with the same user:
    whatever passes [adminOnly] passes [adminOrAgent]. *)
Theorem guarded_monotone (verifyToken : string → Auth.Verified)
    (roles roles' : list string) (now : nat) (authHeader : option string)
    (users : gmap nat Auth.User) (user : option Auth.User) :
  roles ⊆ roles' →
  Auth.guarded verifyToken roles now authHeader users = Auth.Next user →
  Auth.guarded verifyToken roles' now authHeader users = Auth.Next user.
Proof.
  unfold Auth.guarded. intros Hsub.
  destruct (Auth.authenticate verifyToken now authHeader users)
    as [[u|]|]; try done.
  simpl. case_bool_decide as Hrole; [| done]. simpl. intros [= <-].
  rewrite bool_decide_eq_true_2; [done |]. by apply Hsub.
Qed.

Lemma guarded_monotone_witness :
  ["admin"] ⊆ ["admin"; "agent"]
  ∧ Auth.adminOnly sample_verify 5 (Some "Bearer admin-token") staff
    = Auth.Next (Some (Auth.mkUser "admin" true))
  ∧ Auth.adminOrAgent sample_verify 5 (Some "Bearer admin-token") staff
    = Auth.Next (Some (Auth.mkUser "admin" true)).
Proof.
  assert (["admin"] ⊆ ["admin"; "agent"]) as Hsub.
  { intros role Hrole. apply list_elem_of_singleton in Hrole as ->.
    apply (bool_decide_unpack _). exact I. }
  split; [exact Hsub |]. split; [reflexivity |].
  apply (guarded_monotone sample_verify ["admin"] ["admin"; "agent"] 5
           (Some "Bearer admin-token") staff _ Hsub).
  reflexivity.
Defined.

(** X28: [authenticate] followed by [authorize] answers 403 exactly when
    [authenticate] let the request through with a user whose role is not
    among the roles; every other refusal is the one of [authenticate], and
    does not depend on the roles. *)
Theorem guarded_refusal (verifyToken : string → Auth.Verified)
    (roles : list string) (now : nat) (authHeader : option string)
    (users : gmap nat Auth.User) (http : nat) (code msg : string)
    (timestamp : nat) :
  Auth.guarded verifyToken roles now authHeader users
  = Auth.Rejected http code msg timestamp ↔
  Auth.authenticate verifyToken now authHeader users
  = Auth.Rejected http code msg timestamp
  ∨ ((http, code, msg, timestamp)
     = (403%nat, "FORBIDDEN", "Insufficient permissions", now)
     ∧ ∃ u, Auth.authenticate verifyToken now authHeader users
            = Auth.Next (Some u) ∧ Auth.role u ∉ roles).
Proof.
  assert (Auth.authenticate verifyToken now authHeader users ≠ Auth.Next None)
    as Hsome.
  { intros (? & ? & ? & _ & _ & _ & _ & _ & [=])%authenticate_admits. }
  unfold Auth.guarded.
  destruct (Auth.authenticate verifyToken now authHeader users)
    as [[u|]|http' code' msg' timestamp'] eqn:Hauth; [| done |].
  - simpl. case_bool_decide as Hrole; simpl.
    + split; [done |]. intros [? | [_ (u' & [= <-] & Hnot)]]; done.
    + split.
      * intros [= <- <- <- <-]. right. split; [done |]. by exists u.
      * intros [? | [[= -> -> -> ->] _]]; done.
  - split; [by left |]. intros [? | [_ (u' & ? & _)]]; done.
Qed.

(** ** The service catalog *)

(** X29: recording an inquiry for a stored, valid service stores its
    counter plus one and stamps [lastUpdated], and leaves the rest of the
    service as it was; the answer reports one more than the stored counter,
    that is the previous counter plus two. *)
Theorem recordInquiry_reports_one_more {num : Type} `{JSNumber num}
    (now id : nat) (catalog : gmap nat (ServiceCatalog.Entry (num := num)))
    (service : ServiceCatalog.Entry) :
  catalog !! id = Some service →
  ServiceCatalog.validate service = true →
  ∃ stored,
    ServiceCatalog.recordInquiry now id catalog
    = (Success 200 (id, (ServiceCatalog.inquiries service + 2)%nat)
         "Service inquiry recorded successfully",
       <[id := stored]> catalog)
    ∧ ServiceCatalog.inquiries stored
      = (ServiceCatalog.inquiries service + 1)%nat
    ∧ Service.lastUpdated (ServiceCatalog.base stored) = now
    ∧ Service.set_lastUpdated now (ServiceCatalog.base service)
      = ServiceCatalog.base stored
    ∧ ServiceCatalog.category stored = ServiceCatalog.category service
    ∧ ServiceCatalog.order stored = ServiceCatalog.order service.
Proof.
  intros Hstored Hvalid.
  unfold ServiceCatalog.recordInquiry, ServiceCatalog.incrementInquiries,
    ServiceCatalog.save.
  rewrite Hstored.
  change (ServiceCatalog.validate
            (ServiceCatalog.set_inquiries
               (S (ServiceCatalog.inquiries service)) service))
    with (ServiceCatalog.validate service).
  rewrite Hvalid. eexists. split.
  - simpl. repeat f_equal. lia.
  - simpl. repeat split. lia.
Qed.

Lemma recordInquiry_reports_one_more_witness :
  ∃ stored,
    ServiceCatalog.recordInquiry 9 1 {[ 1%nat := valuation_service ]}
    = (Success 200 (1%nat, 5%nat) "Service inquiry recorded successfully",
       <[1%nat := stored]> {[ 1%nat := valuation_service ]})
    ∧ ServiceCatalog.inquiries stored = 4%nat.
Proof.
  destruct (recordInquiry_reports_one_more 9 1 {[ 1%nat := valuation_service ]}
              valuation_service)
    as (stored & Hreply & Hcount & _); [vm_compute; reflexivity | reflexivity |].
  exists stored. split; [exact Hreply | exact Hcount].
Defined.

(** X30: the public list of services holds exactly the stored services
    that pass the filter of the query string, whatever the order: [active]
    equal to the comparison of the parameter (or of "true" when it is
    missing) with "true", the category when one is given and not empty, and
    [featured] equal to the comparison of the parameter with "true" when it
    is given. So any value of [active] other than "true" lists the inactive
    services, and only them. *)
Theorem getServices_lists_filter {num : Type} `{JSNumber num}
    (sort_entries : list (ServiceCatalog.Entry (num := num))
                    → list ServiceCatalog.Entry)
    (q : ServiceCatalog.ListQuery) (entries : list ServiceCatalog.Entry)
    (p : ServiceCatalog.Public) :
  (∀ l e, e ∈ sort_entries l ↔ e ∈ l) →
  (∃ msg services,
     ServiceCatalog.getServices sort_entries q entries
     = Success 200 services msg ∧ p ∈ services) ↔
  ∃ e, e ∈ entries ∧ p = ServiceCatalog.select e
    ∧ Service.active (ServiceCatalog.base e)
      = bool_decide (default "true" (ServiceCatalog.lq_active q) = "true")
    ∧ (∀ c, ServiceCatalog.lq_category q = Some c → c ≠ "" →
            ServiceCatalog.category e = c)
    ∧ (∀ f, ServiceCatalog.lq_featured q = Some f →
            Service.featured (ServiceCatalog.base e)
            = bool_decide (f = "true")).
Proof.
  intros Hsort. unfold ServiceCatalog.getServices.
  assert (∀ e : ServiceCatalog.Entry (num := num),
    ServiceCatalog.passes (ServiceCatalog.list_filter q) e = true ↔
    Service.active (ServiceCatalog.base e)
      = bool_decide (default "true" (ServiceCatalog.lq_active q) = "true")
    ∧ (∀ c, ServiceCatalog.lq_category q = Some c → c ≠ "" →
            ServiceCatalog.category e = c)
    ∧ (∀ f, ServiceCatalog.lq_featured q = Some f →
            Service.featured (ServiceCatalog.base e)
            = bool_decide (f = "true"))) as Hpasses.
  { intros e. unfold ServiceCatalog.passes, ServiceCatalog.list_filter.
    simpl. rewrite !andb_true_iff, Bool.eqb_true_iff.
    destruct (ServiceCatalog.lq_category q) as [[|a c]|];
      destruct (ServiceCatalog.lq_featured q) as [f|]; simpl;
      rewrite ?Bool.eqb_true_iff, ?bool_decide_eq_true; naive_solver. }
  split.
  - intros (msg & services & [= <- <-] & Hin).
    apply list_elem_of_fmap in Hin as (e & -> & Hin).
    apply Hsort, list_elem_of_filter in Hin as [Hpass Hin].
    exists e. split; [done |]. split; [done |]. by apply Hpasses.
  - intros (e & Hin & -> & Hpass). eexists _, _. split; [done |].
    apply list_elem_of_fmap. exists e. split; [done |].
    apply Hsort, list_elem_of_filter. split; [| done]. by apply Hpasses.
Qed.

Lemma getServices_lists_filter_witness :
  (∀ (l : list (ServiceCatalog.Entry (num := N))) e, e ∈ id l ↔ e ∈ l)
  ∧ ∃ msg services,
      ServiceCatalog.getServices id
        (ServiceCatalog.mkListQuery None None (Some "false"))
        [valuation_service; withdrawn_service]
      = Success 200 services msg
      ∧ ServiceCatalog.select withdrawn_service ∈ services.
Proof.
  split; [done |].
  apply (getServices_lists_filter id
           (ServiceCatalog.mkListQuery None None (Some "false"))
           [valuation_service; withdrawn_service]
           (ServiceCatalog.select withdrawn_service)); [done |].
  exists withdrawn_service. split.
  - apply list_elem_of_In. simpl. right. left. reflexivity.
  - split; [reflexivity |]. split; [reflexivity |].
    split; intros value Hgiven; discriminate Hgiven.
Defined.
